(** * mcrouter: request lifecycle and statistics engine

    A shallow embedding of [mcrouter/stats.cpp] and
    [mcrouter/ProxyRequestContext-inl.h], with the properties of the
    statistics aggregation, the statistics query surface and the
    single-reply request context proved about it.

    Conventions of the embedding:
    - [uint64_t], [size_t] and [unsigned long] are [Z] in [0, 2^64) with the
      wrap-around written out ([add64]); [int64_t] and [long] are [Z] in
      [-2^63, 2^63) ([sadd64]); [int] is [Z];
    - [double] is IEEE-754 binary64, as [spec_float] with precision 53 and
      maximal exponent 1024, round to nearest even;
    - a C array is a list read by position; reading past its end is undefined
      in C++ and reads as the element type's zero here;
    - headers that are not part of the two files ([stats.h], [stat_list.h],
      [config.h], [McKey.h], the result codes of the protocol library) are
      interfaces: type classes whose fields are the constants and tables
      those headers define. *)

From Stdlib Require Import ZArith Lia SpecFloat.
From stdpp Require Import base option list gmap strings.

Local Open Scope Z_scope.

(** ** Machine arithmetic *)

Module Machine.

Definition two64 : Z := 2 ^ 64.

(** Value of an unsigned 64-bit result. *)
Definition wrap64 (z : Z) : Z := z mod two64.

(** [a + b] on [uint64_t]. *)
Definition add64 (a b : Z) : Z := wrap64 (a + b).

(** [a - b] on [uint64_t]. *)
Definition sub64 (a b : Z) : Z := wrap64 (a - b).

(** Value of a signed 64-bit result (two's complement). *)
Definition swrap64 (z : Z) : Z := (z + 2 ^ 63) mod two64 - 2 ^ 63.

(** [a + b] on [int64_t]. *)
Definition sadd64 (a b : Z) : Z := swrap64 (a + b).

(** [a * b] on [long]. *)
Definition smul64 (a b : Z) : Z := swrap64 (a * b).

(** [std::max] on integers. *)
Definition max64 (a b : Z) : Z := if a <? b then b else a.

End Machine.
Export Machine.

(** ** IEEE-754 binary64 *)

Module Double.

Definition double : Type := spec_float.

Definition prec : Z := 53.
Definition emax : Z := 1024.

Definition zero : double := S754_zero false.
Definition infinity : double := S754_infinity false.

(** Conversion of an integer to [double] (exact below 2^53, rounded above). *)
Definition of_Z (z : Z) : double := binary_normalize prec emax z 0 false.

Definition add : double -> double -> double := SFadd prec emax.
Definition mul : double -> double -> double := SFmul prec emax.
Definition div : double -> double -> double := SFdiv prec emax.
Definition ltb : double -> double -> bool := SFltb.
Definition leb : double -> double -> bool := SFleb.

(** [std::max (a, b)] is [(a < b) ? b : a]; [std::min (a, b)] is
    [(b < a) ? b : a]. *)
Definition max (a b : double) : double := if ltb a b then b else a.
Definition min (a b : double) : double := if ltb b a then b else a.

(** The literal [1000000.0]. *)
Definition million : double := of_Z 1000000.

End Double.

Abbreviation double := Double.double.

(** ** The headers the two files include *)

(** The result codes of the protocol library: [mc_res_t] is an enumeration,
    used as an index into arrays of [mc_nres] counters. *)
Definition mc_res_t : Type := nat.

Class mc_res_h : Type := {
  mc_nres : nat;
  mc_res_unknown : mc_res_t;
  mc_res_ok : mc_res_t;
  mc_res_bad_command : mc_res_t;
  mc_res_client_error : mc_res_t;
  mc_res_local_error : mc_res_t;
  (** [mc_res_is_err]: the classification of a result code as an error. *)
  mc_res_is_err : mc_res_t -> bool;
}.

(** [stat_type_t], [stats.h]. *)
Inductive stat_type_t : Type :=
  | stat_string
  | stat_uint64
  | stat_int64
  | stat_double.

Global Instance stat_type_t_eq_dec : EqDecision stat_type_t.
Proof. solve_decision. Defined.

(** The union [stat_t::data].  The member written last is the tag; the two
    integer members read each other's bits, any other cross read is outside
    the model and reads as zero. *)
Inductive stat_data : Type :=
  | data_string (s : option string)
  | data_uint64 (z : Z)
  | data_int64 (z : Z)
  | data_dbl (d : double).

Definition get_uint64 (d : stat_data) : Z :=
  match d with
  | data_uint64 z => z
  | data_int64 z => wrap64 z
  | _ => 0
  end.

Definition get_int64 (d : stat_data) : Z :=
  match d with
  | data_int64 z => z
  | data_uint64 z => swrap64 z
  | _ => 0
  end.

Definition get_dbl (d : stat_data) : double :=
  match d with
  | data_dbl x => x
  | _ => Double.zero
  end.

Definition get_string (d : stat_data) : option string :=
  match d with
  | data_string s => s
  | _ => None
  end.

(** [stat_group_t] is a bit mask. *)
Definition stat_group_t : Type := Z.

(** [stat_t], [stats.h]. *)
Record stat_t : Type := mk_stat {
  name : string;
  group : stat_group_t;
  type : stat_type_t;
  aggregate : bool;
  data : stat_data;
}.

Definition set_data (s : stat_t) (d : stat_data) : stat_t :=
  {| name := name s; group := group s; type := type s;
     aggregate := aggregate s; data := d |}.

(** The default-constructed element of a [stat_t] array, read where an index
    is out of range. *)
Definition stat_none : stat_t :=
  {| name := ""; group := 0; type := stat_uint64; aggregate := false;
     data := data_uint64 0 |}.

(** [stats.h] and [config.h]: the group masks, the bin duration and the
    package string. *)
Class stats_h : Type := {
  mcproxy_stats : stat_group_t;
  detailed_stats : stat_group_t;
  cmd_all_stats : stat_group_t;
  cmd_in_stats : stat_group_t;
  cmd_out_stats : stat_group_t;
  cmd_error_stats : stat_group_t;
  ods_stats : stat_group_t;
  rate_stats : stat_group_t;
  count_stats : stat_group_t;
  outlier_stats : stat_group_t;
  max_stats : stat_group_t;
  max_max_stats : stat_group_t;
  all_stats : stat_group_t;
  server_stats : stat_group_t;
  suspect_server_stats : stat_group_t;
  unknown_stats : stat_group_t;
  MOVING_AVERAGE_BIN_SIZE_IN_SECOND : Z;
  MCROUTER_PACKAGE_STRING : string;
}.

(** [stat_list.h]: the table of [STAT] entries.  The enumeration
    [stat_name_t] numbers the entries in order, so a slot is its position in
    the table and [num_stats] is the table's length; the named fields are the
    enumerators the two files mention. *)
Class stat_list_h : Type := {
  stat_list : list stat_t;
  (* request outcome counters *)
  request_replied_stat : nat;
  request_replied_count_stat : nat;
  request_error_stat : nat;
  request_error_count_stat : nat;
  request_success_stat : nat;
  request_success_count_stat : nat;
  (* window sums read by prepare_stats *)
  destination_batches_sum_stat : nat;
  destination_requests_sum_stat : nat;
  outstanding_route_get_reqs_queued_stat : nat;
  outstanding_route_get_reqs_queued_helper_stat : nat;
  outstanding_route_get_wait_time_sum_us_stat : nat;
  outstanding_route_update_reqs_queued_stat : nat;
  outstanding_route_update_reqs_queued_helper_stat : nat;
  outstanding_route_update_wait_time_sum_us_stat : nat;
  retrans_per_kbyte_sum_stat : nat;
  retrans_num_total_stat : nat;
  (* slots prepare_stats assigns *)
  num_suspect_servers_stat : nat;
  destination_batch_size_stat : nat;
  retrans_per_kbyte_avg_stat : nat;
  outstanding_route_get_avg_queue_size_stat : nat;
  outstanding_route_get_avg_wait_time_sec_stat : nat;
  outstanding_route_update_avg_queue_size_stat : nat;
  outstanding_route_update_avg_wait_time_sec_stat : nat;
  commandargs_stat : nat;
  time_stat : nat;
  start_time_stat : nat;
  uptime_stat : nat;
  config_age_stat : nat;
  config_last_success_stat : nat;
  config_last_attempt_stat : nat;
  config_failures_stat : nat;
  pid_stat : nat;
  parent_pid_stat : nat;
  rusage_user_stat : nat;
  rusage_system_stat : nat;
  ps_num_minor_faults_stat : nat;
  ps_num_major_faults_stat : nat;
  ps_user_time_sec_stat : nat;
  ps_system_time_sec_stat : nat;
  ps_rss_stat : nat;
  ps_vsize_stat : nat;
  fibers_allocated_stat : nat;
  fibers_pool_size_stat : nat;
  fibers_stack_high_watermark_stat : nat;
  duration_us_stat : nat;
  client_queue_notify_period_stat : nat;
}.

Definition num_stats `{stat_list_h} : nat := length stat_list.

(** ** The data the statistics engine reads *)

(** [ProxyDestination::State].  The positions in [ServerStat::states] follow
    [state_index]; [ProxyDestination.h] fixes the numbering. *)
Inductive State : Type := kUp | kNew | kClosed | kDown.

Definition kNumStates : nat := 4.

Definition state_index (s : State) : nat :=
  match s with kUp => 0 | kNew => 1 | kClosed => 2 | kDown => 3 end%nat.

(** What the per-destination lambda of [stats_reply] reads of a
    [ProxyDestination]: its tracker's two flags, [stats ()] and the two
    request counts. *)
Record ProxyDestination : Type := {
  tracker_isHardTko : bool;
  tracker_isSoftTko : bool;
  pd_results : option (list Z);
  pd_state : State;
  pd_avgLatency : option double;
  pd_retransPerKByte : double;
  pd_pendingRequestCount : Z;
  pd_inflightRequestCount : Z;
}.

(** [Proxy], as far as the two files use it.  [destinationMap] lists the
    destinations in the order [foreachDestinationSynced] visits them. *)
Record Proxy : Type := {
  stats : list stat_t;
  stats_bin : list (list Z);
  stats_num_within_window : list Z;
  num_bins_used : Z;
  destinationMap : list (string * ProxyDestination);
  fibersAllocated : Z;
  fibersPoolSize : Z;
  stackHighWatermark : Z;
  durationUs : double;
  queueNotifyPeriod : double;
  being_destroyed : bool;
  enable_flush_cmd : bool;
}.

(** [McrouterInstanceBase].  [proxies] holds the [opts ().num_proxies]
    proxies, [getProxy (i)] is the [i]-th of them. *)
Record McrouterInstanceBase : Type := {
  proxies : list Proxy;
  suspectServersCount : Z;
  suspectServers : list (string * (bool * Z));
  startTime : Z;
  lastConfigAttempt : Z;
  configFailures : Z;
}.

Definition num_proxies (router : McrouterInstanceBase) : nat :=
  length (proxies router).

Definition getProxy (router : McrouterInstanceBase) (i : nat) : option Proxy :=
  proxies router !! i.

(** [proxy->stats[idx]]. *)
Definition stat_at (stats : list stat_t) (idx : nat) : stat_t :=
  default stat_none (stats !! idx).

(** [proxy->stats_num_within_window[idx]]. *)
Definition window_at (proxy : Proxy) (idx : nat) : Z :=
  default 0 (stats_num_within_window proxy !! idx).

(** [proxy->stats_bin[idx][j]]. *)
Definition bin_at (proxy : Proxy) (idx j : nat) : Z :=
  default 0 (default [] (stats_bin proxy !! idx) !! j).

(** ** Rates and maxima over the window, [stats.cpp] *)

Section Windowed.
Context `{stats_h}.

Definition get_num_bins_used (router : McrouterInstanceBase) : Z :=
  if (0 <? num_proxies router)%nat then
    match getProxy router 0 with
    | Some anyProxy => num_bins_used anyProxy
    | None => 0
    end
  else 0.

(** The rate functions return the rate together with the integer divisors of
    the divisions they performed, in order. *)
Definition stats_aggregate_rate_value
    (router : McrouterInstanceBase) (idx : nat) : double * list Z :=
  let num_bins_used := get_num_bins_used router in
  if num_bins_used =? 0 then (Double.zero, [])
  else
    let num :=
      foldl (fun num proxy => add64 num (window_at proxy idx)) 0
        (proxies router) in
    let divisor := num_bins_used * MOVING_AVERAGE_BIN_SIZE_IN_SECOND in
    (Double.div (Double.of_Z num) (Double.of_Z divisor), [divisor]).

Definition stats_rate_value
    (router : McrouterInstanceBase) (proxy : Proxy) (idx : nat)
    : double * list Z :=
  let stat := stat_at (stats proxy) idx in
  if num_bins_used proxy =? 0 then (Double.zero, [])
  else if aggregate stat then stats_aggregate_rate_value router idx
  else
    let divisor := num_bins_used proxy * MOVING_AVERAGE_BIN_SIZE_IN_SECOND in
    (Double.div (Double.of_Z (window_at proxy idx)) (Double.of_Z divisor),
     [divisor]).

(** The bins [0 .. num_bins_used - 1] the loops over [j] visit. *)
Definition used_bins (router : McrouterInstanceBase) : list nat :=
  seq 0 (Z.to_nat (get_num_bins_used router)).

(** The inner loop of [stats_aggregate_max_value]: [binSum] for bin [j]. *)
Definition binSum (router : McrouterInstanceBase) (idx j : nat) : Z :=
  foldl (fun binSum proxy => add64 binSum (bin_at proxy idx j)) 0
    (proxies router).

Definition stats_aggregate_max_value
    (router : McrouterInstanceBase) (idx : nat) : Z :=
  foldl (fun max j => max64 max (binSum router idx j)) 0 (used_bins router).

Definition stats_aggregate_max_max_value
    (router : McrouterInstanceBase) (idx : nat) : Z :=
  foldl
    (fun max j =>
       foldl (fun max proxy => max64 max (bin_at proxy idx j)) max
         (proxies router))
    0 (used_bins router).

Definition stats_max_value (router : McrouterInstanceBase) (idx : nat) : Z :=
  stats_aggregate_max_value router idx.

End Windowed.

(** ** The snapshot, [stats.cpp] *)

(** What [prepare_stats] reads of the host: the clock, the process ids,
    [getrusage], [sysconf], the captured command line and [/proc/<pid>/stat].
    [proc_stat_scan] is [None] when [fopen] fails; otherwise it lists the
    values [fscanf] converted, in the order of the six receiving arguments
    (so fewer than six when a field does not parse, none on end of file). *)
Record host_env : Type := {
  time_now : Z;
  host_pid : Z;
  host_ppid : Z;
  ru_utime_tv_sec : Z;
  ru_utime_tv_usec : Z;
  ru_stime_tv_sec : Z;
  ru_stime_tv_usec : Z;
  sysconf_SC_CLK_TCK : Z;
  sysconf_SC_PAGESIZE : Z;
  gStandaloneArgs : option string;
  proc_stat_scan : option (list Z);
}.

Record proc_stat_data_t : Type := {
  num_minor_faults : Z;
  num_major_faults : Z;
  user_time_sec : double;
  system_time_sec : double;
  vsize : Z;
  rss : Z;
}.

(** The [k]-th receiving argument of the [fscanf] call keeps its old value
    [old] unless conversion [k] succeeded. *)
Definition scanned (conv : list Z) (k : nat) (old : Z) : Z :=
  default old (conv !! k).

(** [get_proc_stat]: the return code and [*data]. *)
Definition get_proc_stat (env : host_env) : Z * proc_stat_data_t :=
  let data :=
    {| num_minor_faults := 0; num_major_faults := 0;
       user_time_sec := Double.zero; system_time_sec := Double.zero;
       vsize := 0; rss := 0 |} in
  match proc_stat_scan env with
  | None => (-1, data)
  | Some conv =>
    let conv := take 6 conv in
    let data :=
      {| num_minor_faults := scanned conv 0 (num_minor_faults data);
         num_major_faults := scanned conv 1 (num_major_faults data);
         user_time_sec := user_time_sec data;
         system_time_sec := system_time_sec data;
         vsize := scanned conv 4 (vsize data);
         rss := rss data |} in
    let utime_ticks := scanned conv 2 0 in
    let stime_ticks := scanned conv 3 0 in
    let rss_pages := scanned conv 5 0 in
    let count := Z.of_nat (length conv) in
    if negb (count =? 6) then (-1, data)
    else
      (0,
       {| num_minor_faults := num_minor_faults data;
          num_major_faults := num_major_faults data;
          user_time_sec :=
            Double.div (Double.of_Z utime_ticks)
              (Double.of_Z (sysconf_SC_CLK_TCK env));
          system_time_sec :=
            Double.div (Double.of_Z stime_ticks)
              (Double.of_Z (sysconf_SC_CLK_TCK env));
          vsize := vsize data;
          rss :=
            if rss_pages <? 0 then 0
            else wrap64 (smul64 rss_pages (sysconf_SC_PAGESIZE env)) |})
  end.

(** [stats[idx].data.<member> = v]. *)
Definition stat_write (stats : list stat_t) (idx : nat) (d : stat_data)
    : list stat_t :=
  <[idx := set_data (stat_at stats idx) d]> stats.

(** [stat_set_uint64]; [None] is the failed [assert]. *)
Definition stat_set_uint64 (stats : list stat_t) (stat_num : nat) (value : Z)
    : option (list stat_t) :=
  if decide (type (stat_at stats stat_num) = stat_uint64)
  then Some (stat_write stats stat_num (data_uint64 value))
  else None.

Definition stat_get_uint64 (stats : list stat_t) (stat_num : nat) : Z :=
  get_uint64 (data (stat_at stats stat_num)).

(** [stats[stat_num].data.int64] and [stats[stat_num].data.dbl]. *)
Definition stat_get_int64 (stats : list stat_t) (stat_num : nat) : Z :=
  get_int64 (data (stat_at stats stat_num)).

Definition stat_get_dbl (stats : list stat_t) (stat_num : nat) : double :=
  get_dbl (data (stat_at stats stat_num)).

Section Snapshot.
Context `{stats_h} `{stat_list_h}.

(** [init_stats] assigns every slot from the table of [stat_list.h]. *)
Definition init_stats : list stat_t := stat_list.

Definition stat_get_config_age (stats : list stat_t) (now : Z) : Z :=
  let lct := get_uint64 (data (stat_at stats config_last_success_stat)) in
  sub64 now lct.

(** The sum of a window counter over the proxies (the first loop of
    [prepare_stats]). *)
Definition window_sum (router : McrouterInstanceBase) (idx : nat) : Z :=
  foldl (fun sum proxy => add64 sum (window_at proxy idx)) 0 (proxies router).

(** [config_last_success] after the first loop: the latest success any proxy
    recorded. *)
Definition config_last_success_max (router : McrouterInstanceBase) : Z :=
  foldl
    (fun config_last_success proxy =>
       max64 config_last_success
         (get_uint64 (data (stat_at (stats proxy) config_last_success_stat))))
    0 (proxies router).

(** One step of the inner aggregation loop: [stats[i] += pr->stats[i]] by the
    slot's type; [None] is [LOG(FATAL)]. *)
Definition aggregate_step (i : nat) (stat : stat_t) (pr : Proxy)
    : option stat_t :=
  let pr_data := data (stat_at (stats pr) i) in
  match type stat with
  | stat_uint64 =>
    Some (set_data stat
            (data_uint64 (add64 (get_uint64 (data stat)) (get_uint64 pr_data))))
  | stat_int64 =>
    Some (set_data stat
            (data_int64 (sadd64 (get_int64 (data stat)) (get_int64 pr_data))))
  | stat_double =>
    Some (set_data stat
            (data_dbl (Double.add (get_dbl (data stat)) (get_dbl pr_data))))
  | stat_string => None
  end.

(** The inner loop over the proxies. *)
Fixpoint aggregate_slot (i : nat) (stat : stat_t) (prs : list Proxy)
    : option stat_t :=
  match prs with
  | [] => Some stat
  | pr :: prs =>
    match aggregate_step i stat pr with
    | Some stat => aggregate_slot i stat prs
    | None => None
    end
  end.

(** The outer loop [for (i = 0; i < num_stats; i++)], over the [slots] still
    to visit. *)
Fixpoint aggregate_loop (router : McrouterInstanceBase) (slots : list nat)
    (stats : list stat_t) : option (list stat_t) :=
  match slots with
  | [] => Some stats
  | i :: slots =>
    let stat := stat_at stats i in
    if aggregate stat && (Z.land (group stat) rate_stats =? 0) then
      match aggregate_slot i stat (proxies router) with
      | Some stat => aggregate_loop router slots (<[i := stat]> stats)
      | None => None
      end
    else aggregate_loop router slots stats
  end.

(** The loop over the proxies that reads the fiber managers, the durations
    and the notify periods. *)
Definition fibers_step (stats : list stat_t) (pr : Proxy) : list stat_t :=
  let stats :=
    stat_write stats fibers_allocated_stat
      (data_uint64 (add64 (stat_get_uint64 stats fibers_allocated_stat)
                      (fibersAllocated pr))) in
  let stats :=
    stat_write stats fibers_pool_size_stat
      (data_uint64 (add64 (stat_get_uint64 stats fibers_pool_size_stat)
                      (fibersPoolSize pr))) in
  let stats :=
    stat_write stats fibers_stack_high_watermark_stat
      (data_uint64 (max64 (stat_get_uint64 stats fibers_stack_high_watermark_stat)
                      (stackHighWatermark pr))) in
  let stats :=
    stat_write stats duration_us_stat
      (data_dbl (Double.add (get_dbl (data (stat_at stats duration_us_stat)))
                   (durationUs pr))) in
  stat_write stats client_queue_notify_period_stat
    (data_dbl
       (Double.add (get_dbl (data (stat_at stats client_queue_notify_period_stat)))
          (queueNotifyPeriod pr))).

(** [prepare_stats] is one straight run of assignments to the snapshot; it is
    cut here at its blank lines into four stages, each a function of the
    snapshot so far.  First the derived ratios. *)
Definition derived_ratio_stats (router : McrouterInstanceBase)
    (stats : list stat_t) : list stat_t :=
  let destinationBatchesSum := window_sum router destination_batches_sum_stat in
  let destinationRequestsSum := window_sum router destination_requests_sum_stat in
  let outstandingGetReqsTotal :=
    window_sum router outstanding_route_get_reqs_queued_stat in
  let outstandingGetReqsHelper :=
    window_sum router outstanding_route_get_reqs_queued_helper_stat in
  let outstandingGetWaitTimeSumUs :=
    window_sum router outstanding_route_get_wait_time_sum_us_stat in
  let outstandingUpdateReqsTotal :=
    window_sum router outstanding_route_update_reqs_queued_stat in
  let outstandingUpdateReqsHelper :=
    window_sum router outstanding_route_update_reqs_queued_helper_stat in
  let outstandingUpdateWaitTimeSumUs :=
    window_sum router outstanding_route_update_wait_time_sum_us_stat in
  let retransPerKByteSum := window_sum router retrans_per_kbyte_sum_stat in
  let retransNumTotal := window_sum router retrans_num_total_stat in
  let avgBatchSize :=
    if negb (destinationBatchesSum =? 0) then
      Double.div (Double.of_Z destinationRequestsSum)
        (Double.of_Z destinationBatchesSum)
    else Double.zero in
  let stats := stat_write stats destination_batch_size_stat (data_dbl avgBatchSize) in
  let avgRetransPerKByte :=
    if negb (retransNumTotal =? 0) then
      Double.div (Double.of_Z retransPerKByteSum) (Double.of_Z retransNumTotal)
    else Double.zero in
  let stats := stat_write stats retrans_per_kbyte_avg_stat (data_dbl avgRetransPerKByte) in
  let stats :=
    stat_write stats outstanding_route_get_avg_queue_size_stat (data_dbl Double.zero) in
  let stats :=
    stat_write stats outstanding_route_get_avg_wait_time_sec_stat (data_dbl Double.zero) in
  let stats :=
    if 0 <? outstandingGetReqsTotal then
      let stats :=
        stat_write stats outstanding_route_get_avg_queue_size_stat
          (data_dbl (Double.div (Double.of_Z outstandingGetReqsHelper)
                       (Double.of_Z outstandingGetReqsTotal))) in
      stat_write stats outstanding_route_get_avg_wait_time_sec_stat
        (data_dbl (Double.div (Double.of_Z outstandingGetWaitTimeSumUs)
                     (Double.mul Double.million
                        (Double.of_Z outstandingGetReqsTotal))))
    else stats in
  let stats :=
    stat_write stats outstanding_route_update_avg_queue_size_stat (data_dbl Double.zero) in
  let stats :=
    stat_write stats outstanding_route_update_avg_wait_time_sec_stat (data_dbl Double.zero) in
  if 0 <? outstandingUpdateReqsTotal then
    let stats :=
      stat_write stats outstanding_route_update_avg_queue_size_stat
        (data_dbl (Double.div (Double.of_Z outstandingUpdateReqsHelper)
                     (Double.of_Z outstandingUpdateReqsTotal))) in
    stat_write stats outstanding_route_update_avg_wait_time_sec_stat
      (data_dbl (Double.div (Double.of_Z outstandingUpdateWaitTimeSumUs)
                   (Double.mul Double.million
                      (Double.of_Z outstandingUpdateReqsTotal))))
  else stats.

(** The command line, the clock, the configuration times, the process ids
    and [getrusage]. *)
Definition process_wide_stats (router : McrouterInstanceBase) (env : host_env)
    (stats : list stat_t) : list stat_t :=
  let config_last_success := config_last_success_max router in
  let stats := stat_write stats commandargs_stat (data_string (gStandaloneArgs env)) in
  let now := wrap64 (time_now env) in
  let stats := stat_write stats time_stat (data_uint64 now) in
  let start_time := startTime router in
  let stats := stat_write stats start_time_stat (data_uint64 start_time) in
  let stats := stat_write stats uptime_stat (data_uint64 (sub64 now start_time)) in
  let stats :=
    stat_write stats config_age_stat (data_uint64 (sub64 now config_last_success)) in
  let stats :=
    stat_write stats config_last_success_stat (data_uint64 config_last_success) in
  let stats :=
    stat_write stats config_last_attempt_stat (data_uint64 (lastConfigAttempt router)) in
  let stats :=
    stat_write stats config_failures_stat (data_uint64 (configFailures router)) in
  let stats := stat_write stats pid_stat (data_int64 (host_pid env)) in
  let stats := stat_write stats parent_pid_stat (data_int64 (host_ppid env)) in
  let stats :=
    stat_write stats rusage_user_stat
      (data_dbl (Double.add (Double.of_Z (ru_utime_tv_sec env))
                   (Double.div (Double.of_Z (ru_utime_tv_usec env))
                      Double.million))) in
  stat_write stats rusage_system_stat
    (data_dbl (Double.add (Double.of_Z (ru_stime_tv_sec env))
                 (Double.div (Double.of_Z (ru_stime_tv_usec env))
                    Double.million))).

(** [get_proc_stat], whose return code is not looked at, and the six slots
    copied from [ps_data]. *)
Definition proc_stat_stats (env : host_env) (stats : list stat_t)
    : list stat_t :=
  let ps_data := (get_proc_stat env).2 in
  let stats :=
    stat_write stats ps_num_minor_faults_stat (data_uint64 (num_minor_faults ps_data)) in
  let stats :=
    stat_write stats ps_num_major_faults_stat (data_uint64 (num_major_faults ps_data)) in
  let stats :=
    stat_write stats ps_user_time_sec_stat (data_dbl (user_time_sec ps_data)) in
  let stats :=
    stat_write stats ps_system_time_sec_stat (data_dbl (system_time_sec ps_data)) in
  let stats := stat_write stats ps_rss_stat (data_uint64 (rss ps_data)) in
  stat_write stats ps_vsize_stat (data_uint64 (vsize ps_data)).

(** The fiber managers, and the durations and notify periods averaged over
    the proxies. *)
Definition fiber_stats (router : McrouterInstanceBase) (stats : list stat_t)
    : list stat_t :=
  let stats := stat_write stats fibers_allocated_stat (data_uint64 0) in
  let stats := stat_write stats fibers_pool_size_stat (data_uint64 0) in
  let stats := stat_write stats fibers_stack_high_watermark_stat (data_uint64 0) in
  let stats := foldl fibers_step stats (proxies router) in
  if (0 <? num_proxies router)%nat then
    let n := Double.of_Z (Z.of_nat (num_proxies router)) in
    let stats :=
      stat_write stats duration_us_stat
        (data_dbl (Double.div (get_dbl (data (stat_at stats duration_us_stat))) n)) in
    stat_write stats client_queue_notify_period_stat
      (data_dbl
         (Double.div
            (get_dbl (data (stat_at stats client_queue_notify_period_stat))) n))
  else stats.

(** The part of [prepare_stats] between the call of [stat_set_uint64] and the
    aggregation loop. *)
Definition prepare_process_stats (router : McrouterInstanceBase)
    (env : host_env) (stats : list stat_t) : list stat_t :=
  let stats := derived_ratio_stats router stats in
  let stats := process_wide_stats router env stats in
  let stats := proc_stat_stats env stats in
  fiber_stats router stats.

(** [prepare_stats]: the snapshot, or [None] where the process aborts (the
    [assert] of [stat_set_uint64], [LOG(FATAL)] in the aggregation loop). *)
Definition prepare_stats (router : McrouterInstanceBase) (env : host_env)
    : option (list stat_t) :=
  let stats := init_stats in
  match stat_set_uint64 stats num_suspect_servers_stat
          (suspectServersCount router) with
  | None => None
  | Some stats =>
    let stats := prepare_process_stats router env stats in
    aggregate_loop router (seq 0 num_stats) stats
  end.

End Snapshot.

(** ** Per-destination statistics, [stats.cpp] *)

(** [ServerStat]. *)
Record ServerStat : Type := {
  results : list Z;
  states : list Z;
  isHardTko : bool;
  isSoftTko : bool;
  sumLatencies : double;
  cntLatencies : Z;
  pendingRequestsCount : Z;
  inflightRequestsCount : Z;
  sumRetransPerKByte : double;
  cntRetransPerKByte : Z;
  maxRetransPerKByte : double;
  minRetransPerKByte : double;
}.

(** [a[i] += d] on an array of [uint64_t] or [size_t]. *)
Definition array_add (a : list Z) (i : nat) (d : Z) : list Z :=
  <[i := add64 (default 0 (a !! i)) d]> a.

Section Destinations.
Context `{mc_res_h}.

(** The member initialisers of [ServerStat]. *)
Definition ServerStat_init : ServerStat :=
  {| results := replicate mc_nres 0;
     states := replicate kNumStates 0;
     isHardTko := false;
     isSoftTko := false;
     sumLatencies := Double.zero;
     cntLatencies := 0;
     pendingRequestsCount := 0;
     inflightRequestsCount := 0;
     sumRetransPerKByte := Double.zero;
     cntRetransPerKByte := 0;
     maxRetransPerKByte := Double.zero;
     minRetransPerKByte := Double.infinity |}.

(** [for (j = 0; j < mc_nres; ++j) stat.results[j] += src[j]]. *)
Definition add_results (acc src : list Z) : list Z :=
  foldl (fun acc j => array_add acc j (default 0 (src !! j))) acc (seq 0 mc_nres).

(** The lambda handed to [foreachDestinationSynced]: [serverStats[key]] is
    created from the initialisers when absent, then updated from [pdstn]. *)
Definition visit_destination (serverStats : gmap string ServerStat)
    (key : string) (pdstn : ProxyDestination) : gmap string ServerStat :=
  let stat := default ServerStat_init (serverStats !! key) in
  let with_latency := pd_avgLatency pdstn in
  let val := pd_retransPerKByte pdstn in
  let with_retrans := Double.leb Double.zero val in
  <[key :=
     {| isHardTko := tracker_isHardTko pdstn;
        isSoftTko := tracker_isSoftTko pdstn;
        results :=
          match pd_results pdstn with
          | Some src => add_results (results stat) src
          | None => results stat
          end;
        states := array_add (states stat) (state_index (pd_state pdstn)) 1;
        sumLatencies :=
          match with_latency with
          | Some l => Double.add (sumLatencies stat) l
          | None => sumLatencies stat
          end;
        cntLatencies :=
          match with_latency with
          | Some _ => add64 (cntLatencies stat) 1
          | None => cntLatencies stat
          end;
        sumRetransPerKByte :=
          if with_retrans then Double.add (sumRetransPerKByte stat) val
          else sumRetransPerKByte stat;
        maxRetransPerKByte :=
          if with_retrans then Double.max (maxRetransPerKByte stat) val
          else maxRetransPerKByte stat;
        minRetransPerKByte :=
          if with_retrans then Double.min (minRetransPerKByte stat) val
          else minRetransPerKByte stat;
        cntRetransPerKByte :=
          if with_retrans then add64 (cntRetransPerKByte stat) 1
          else cntRetransPerKByte stat;
        pendingRequestsCount :=
          add64 (pendingRequestsCount stat) (pd_pendingRequestCount pdstn);
        inflightRequestsCount :=
          add64 (inflightRequestsCount stat) (pd_inflightRequestCount pdstn) |}]>
    serverStats.

(** [foreachDestinationSynced] on one proxy's destination map. *)
Definition visit_proxy (serverStats : gmap string ServerStat) (proxy : Proxy)
    : gmap string ServerStat :=
  foldl (fun serverStats kd => visit_destination serverStats kd.1 kd.2)
    serverStats (destinationMap proxy).

(** The loop over the proxies that fills [serverStats]. *)
Definition collect_server_stats (router : McrouterInstanceBase)
    : gmap string ServerStat :=
  foldl visit_proxy ∅ (proxies router).

End Destinations.

(** ** The query surface, [stats.cpp] *)

(** The value of a reply line before it is printed: a string as it is, an
    integer through [folly::to<std::string>], a double through ["%g"], a
    [ServerStat] through [toString], a suspect server through
    ["status:{} num_failures:{}"]. *)
Inductive stat_text : Type :=
  | text_string (s : string)
  | text_uint64 (z : Z)
  | text_int64 (z : Z)
  | text_g (d : double)
  | text_server (s : ServerStat)
  | text_suspect (status : string) (num_failures : Z).

(** [McStatsReply]: the result code, the message and the name/value pairs in
    the order [addStat] appended them. *)
Record McStatsReply : Type := {
  result : mc_res_t;
  message : string;
  reply_stats : list (string * stat_text);
}.

(** What a statistics query did: how many snapshots it prepared, and the
    reply ([None] where the process aborts). *)
Record stats_query : Type := {
  snapshots_prepared : nat;
  reply : option McStatsReply;
}.

Section Query.
Context `{mc_res_h} `{stats_h} `{stat_list_h}.

Definition rate_stat_to_str (router : McrouterInstanceBase) (proxy : Proxy)
    (idx : nat) : stat_text :=
  text_g (stats_rate_value router proxy idx).1.

Definition max_stat_to_str (router : McrouterInstanceBase) (idx : nat)
    : stat_text :=
  text_uint64 (stats_max_value router idx).

Definition max_max_stat_to_str (router : McrouterInstanceBase) (idx : nat)
    : stat_text :=
  text_uint64 (stats_aggregate_max_max_value router idx).

Definition stat_to_str (stat : stat_t) : stat_text :=
  match type stat with
  | stat_string => text_string (default "" (get_string (data stat)))
  | stat_uint64 => text_uint64 (get_uint64 (data stat))
  | stat_int64 => text_int64 (get_int64 (data stat))
  | stat_double => text_g (get_dbl (data stat))
  end.

Definition stat_parse_group_str (str : string) : stat_group_t :=
  if decide (str = "all") then all_stats
  else if decide (str = "detailed") then detailed_stats
  else if decide (str = "cmd") then cmd_all_stats
  else if decide (str = "cmd-in") then cmd_in_stats
  else if decide (str = "cmd-out") then cmd_out_stats
  else if decide (str = "cmd-error") then cmd_error_stats
  else if decide (str = "ods") then ods_stats
  else if decide (str = "servers") then server_stats
  else if decide (str = "suspect_servers") then suspect_server_stats
  else if decide (str = "count") then count_stats
  else if decide (str = "outlier") then outlier_stats
  else if decide (str = "") then mcproxy_stats
  else unknown_stats.

(** Modelled from the spec: [StatsReply] is declared in
    [mcrouter/lib/StatsReply.h], which is not among the sources; by the spec
    a query that is not an error returns the ordered sequence of name/value
    pairs, here the pairs [addStat] collected, under [mc_res_ok]. *)
Definition getReply (lines : list (string * stat_text)) : McStatsReply :=
  {| result := mc_res_ok; message := ""; reply_stats := lines |}.

(** The line of slot [ii], if its group intersects the requested ones. *)
Definition stat_line (router : McrouterInstanceBase) (proxy : Proxy)
    (groups : stat_group_t) (stats : list stat_t) (ii : nat)
    : list (string * stat_text) :=
  let stat := stat_at stats ii in
  if negb (Z.land (group stat) groups =? 0) then
    if negb (Z.land (group stat) rate_stats =? 0) then
      [(name stat, rate_stat_to_str router proxy ii)]
    else if negb (Z.land (group stat) max_stats =? 0) then
      [(name stat, max_stat_to_str router ii)]
    else if negb (Z.land (group stat) max_max_stats =? 0) then
      [(name stat, max_max_stat_to_str router ii)]
    else [(name stat, stat_to_str stat)]
  else [].

Definition server_lines (router : McrouterInstanceBase)
    : list (string * stat_text) :=
  (fun kv : string * ServerStat => (kv.1, text_server kv.2)) <$>
    map_to_list (collect_server_stats router).

Definition suspect_lines (router : McrouterInstanceBase)
    : list (string * stat_text) :=
  (fun it : string * (bool * Z) =>
     (it.1, text_suspect (if it.2.1 then "tko" else "down") it.2.2)) <$>
    suspectServers router.

(** [stats_reply], for the proxy [proxy] of [router].  The guard on
    [proxy->stats_lock], held from entry to return, is left out. *)
Definition stats_reply (router : McrouterInstanceBase) (env : host_env)
    (proxy : Proxy) (group_str : string) : stats_query :=
  if decide (group_str = "version") then
    {| snapshots_prepared := 0;
       reply := Some (getReply [("mcrouter-version", text_string MCROUTER_PACKAGE_STRING)]) |}
  else
    let groups := stat_parse_group_str group_str in
    if groups =? unknown_stats then
      {| snapshots_prepared := 0;
         reply := Some {| result := mc_res_client_error;
                          message := "bad stats command";
                          reply_stats := [] |} |}
    else
      {| snapshots_prepared := 1;
         reply :=
           match prepare_stats router env with
           | None => None
           | Some stats =>
             let lines :=
               concat (stat_line router proxy groups stats <$> seq 0 num_stats) in
             let lines :=
               if negb (Z.land groups server_stats =? 0)
               then lines ++ server_lines router else lines in
             let lines :=
               if negb (Z.land groups suspect_server_stats =? 0)
               then lines ++ suspect_lines router else lines in
             Some (getReply lines)
           end |}.

End Query.

(** ** The request context, [ProxyRequestContext-inl.h] *)

(** [mcrouter/lib/McKey.h]: key validation. *)
Class mc_key_h : Type := {
  mc_req_err_t : Type;
  mc_req_err_valid : mc_req_err_t;
  mc_req_err_eq_dec :: EqDecision mc_req_err_t;
  isKeyValid : string -> mc_req_err_t;
  mc_req_err_to_string : mc_req_err_t -> string;
}.

(** The request types [precheckRequest] is overloaded on; every other
    request type takes the template, which checks the key. *)
Inductive request_type : Type :=
  | McStatsRequest
  | McVersionRequest
  | McShutdownRequest
  | McFlushReRequest
  | McFlushAllRequest
  | McKeyedRequest.

Record Request : Type := {
  req_type : request_type;
  fullKey : string;
}.

(** [ReplyT<Request>]: the result code and the message. *)
Record Reply : Type := {
  reply_result : mc_res_t;
  reply_message : string;
}.

(** [ReplyT<Request> (result)]. *)
Definition Reply_of (r : mc_res_t) : Reply :=
  {| reply_result := r; reply_message := "" |}.

(** [ProxyRequestContextTyped<Request>]: the recording flag, the reply guard
    and the stored request. *)
Record ProxyRequestContextTyped : Type := {
  recording : bool;
  replied_ : bool;
  req_ : option Request;
}.

(** What a context does to the outside, in order: the completion callback
    [f_] on the stored request and the reply, a line of the error log, the hand-over to
    [Proxy::dispatchRequest], and the deletion of the context when
    [startProcessing] returns still owning it. *)
Inductive event : Type :=
  | ev_callback (req : option Request) (reply : Reply)
  | ev_log_error (msg : string)
  | ev_dispatch (req : Request)
  | ev_delete.

(** A context together with its proxy and the events so far. *)
Record world : Type := {
  ctx : ProxyRequestContextTyped;
  proxy : Proxy;
  trace : list event;
}.

Definition set_stats (p : Proxy) (s : list stat_t) : Proxy :=
  {| stats := s;
     stats_bin := stats_bin p;
     stats_num_within_window := stats_num_within_window p;
     num_bins_used := num_bins_used p;
     destinationMap := destinationMap p;
     fibersAllocated := fibersAllocated p;
     fibersPoolSize := fibersPoolSize p;
     stackHighWatermark := stackHighWatermark p;
     durationUs := durationUs p;
     queueNotifyPeriod := queueNotifyPeriod p;
     being_destroyed := being_destroyed p;
     enable_flush_cmd := enable_flush_cmd p |}.

(** Modelled from the spec: [stat_incr] is declared in [stats.h], which is
    not among the sources; the spec's [increment (slot, delta)] adds [delta]
    to the slot's unsigned value. *)
Definition stat_incr (stats : list stat_t) (stat_num : nat) (amount : Z)
    : list stat_t :=
  stat_write stats stat_num
    (data_uint64 (add64 (stat_get_uint64 stats stat_num) amount)).

Definition is_callback (e : event) : bool :=
  match e with ev_callback _ _ => true | _ => false end.

Definition is_dispatch (e : event) : bool :=
  match e with ev_dispatch _ => true | _ => false end.

(** The replies delivered to the completion callback, oldest first. *)
Definition replies_of (t : list event) : list Reply :=
  omap (fun e => match e with ev_callback _ r => Some r | _ => None end) t.

Definition kCommandNotSupportedStr : string := "Command not supported".

Section RequestContext.
Context `{mc_res_h} `{stat_list_h} `{mc_key_h}.

(** [sendReplyImpl] of [ProxyRequestContextTypedWithCallback]. *)
Definition sendReplyImpl (w : world) (reply : Reply) : world :=
  let req := req_ (ctx w) in
  {| ctx := ctx w; proxy := proxy w;
     trace := trace w ++ [ev_callback req reply] |}.

Definition sendReply (w : world) (reply : Reply) : world :=
  if recording (ctx w) then w
  else if replied_ (ctx w) then w
  else
    let w :=
      {| ctx := {| recording := recording (ctx w); replied_ := true;
                   req_ := req_ (ctx w) |};
         proxy := proxy w; trace := trace w |} in
    let result := reply_result reply in
    let w := sendReplyImpl w reply in
    let w :=
      {| ctx := {| recording := recording (ctx w); replied_ := replied_ (ctx w);
                   req_ := None |};
         proxy := proxy w; trace := trace w |} in
    let stats := stats (proxy w) in
    let stats := stat_incr stats request_replied_stat 1 in
    let stats := stat_incr stats request_replied_count_stat 1 in
    let stats :=
      if mc_res_is_err result then
        let stats := stat_incr stats request_error_stat 1 in
        stat_incr stats request_error_count_stat 1
      else
        let stats := stat_incr stats request_success_stat 1 in
        stat_incr stats request_success_count_stat 1 in
    {| ctx := ctx w; proxy := set_stats (proxy w) stats; trace := trace w |}.

(** [detail::precheckKey]: whether the key is valid, and the world after the
    error reply when it is not. *)
Definition precheckKey (w : world) (req : Request) : bool * world :=
  let key := fullKey req in
  let err := isKeyValid key in
  if decide (err = mc_req_err_valid) then (true, w)
  else
    let reply :=
      {| reply_result := mc_res_local_error;
         reply_message := mc_req_err_to_string err |} in
    (false, sendReply w reply).

(** [detail::precheckRequest], by request type. *)
Definition precheckRequest (w : world) (req : Request) : bool * world :=
  match req_type req with
  | McStatsRequest => (true, w)
  | McVersionRequest => (true, w)
  | McShutdownRequest => (false, sendReply w (Reply_of mc_res_bad_command))
  | McFlushReRequest =>
    (false,
     sendReply w {| reply_result := mc_res_local_error;
                    reply_message := kCommandNotSupportedStr |})
  | McFlushAllRequest =>
    if negb (enable_flush_cmd (proxy w)) then
      (false,
       sendReply w {| reply_result := mc_res_local_error;
                      reply_message := "Command disabled" |})
    else (true, w)
  | McKeyedRequest => precheckKey w req
  end.

Definition log_error (w : world) (msg : string) : world :=
  {| ctx := ctx w; proxy := proxy w; trace := trace w ++ [ev_log_error msg] |}.

(** [self] goes out of scope owning the context. *)
Definition delete_self (w : world) : world :=
  {| ctx := ctx w; proxy := proxy w; trace := trace w ++ [ev_delete] |}.

Definition dispatchRequest (w : world) (req : Request) : world :=
  {| ctx := ctx w; proxy := proxy w; trace := trace w ++ [ev_dispatch req] |}.

(** [startProcessing], on a context that holds its request [req]. *)
Definition startProcessing (w : world) (req : Request) : world :=
  let '(ok, w) := precheckRequest w req in
  if negb ok then delete_self w
  else if being_destroyed (proxy w) then
    let w :=
      log_error w "Outstanding request on a proxy that's being destroyed" in
    let w := sendReply w (Reply_of mc_res_unknown) in
    delete_self w
  else dispatchRequest w req.

End RequestContext.

(** ** The vocabulary of the properties *)

(** The sum of a list of integers. *)
Definition Zsum (l : list Z) : Z := foldr Z.add 0 l.

(** The group tokens [stat_parse_group_str] recognises; the empty token is
    the default group. *)
Definition recognized_groups : list string :=
  ["all"; "detailed"; "cmd"; "cmd-in"; "cmd-out"; "cmd-error"; "ods";
   "servers"; "suspect_servers"; "count"; "outlier"; ""].

(** The destinations in the order the loops of [stats_reply] visit them:
    proxy by proxy, each destination map in its own order. *)
Definition visits (router : McrouterInstanceBase)
    : list (string * ProxyDestination) :=
  proxies router ≫= destinationMap.

(** The views of the destination [key], one per visit, in visiting order. *)
Definition shard_views (router : McrouterInstanceBase) (key : string)
    : list ProxyDestination :=
  (filter (fun kd => kd.1 = key) (visits router)).*2.

(** The spec's reading: a flag OR-reduced over the views. *)
Definition or_reduced (flag : ProxyDestination -> bool)
    (views : list ProxyDestination) : bool :=
  existsb flag views.

(** The claim's reading of the max policy: a shard's largest retained bin,
    and the largest of those over the shards. *)
Definition maxBinValue (proxy : Proxy) (idx : nat) : Z :=
  foldl (fun max j => max64 max (bin_at proxy idx j)) 0
    (seq 0 (Z.to_nat (num_bins_used proxy))).

Definition maxOfShardMaxes (router : McrouterInstanceBase) (idx : nat) : Z :=
  foldl (fun max proxy => max64 max (maxBinValue proxy idx)) 0 (proxies router).

(** What [init_stats] fixes of a slot and no later assignment changes. *)
Definition meta (s : stat_t) : string * stat_group_t * stat_type_t * bool :=
  (name s, group s, type s, aggregate s).

(** [after] has the slots of [before], with the same names, groups, types
    and aggregation flags. *)
Definition same_layout (before after : list stat_t) : Prop :=
  length after = length before
  ∧ ∀ j, meta (stat_at after j) = meta (stat_at before j).

(** [after] differs from [before] at most at the slots [written]. *)
Definition untouched (written : list nat) (before after : list stat_t) : Prop :=
  ∀ j, j ∉ written -> stat_at after j = stat_at before j.

(** [stat_incr (proxy S's stats, slot, k)]: the router after shard [S]
    incremented [slot] by [k]. *)
Definition stat_incr_on (router : McrouterInstanceBase) (S slot : nat) (k : Z)
    : McrouterInstanceBase :=
  {| proxies :=
       alter (fun proxy => set_stats proxy (stat_incr (stats proxy) slot k)) S
         (proxies router);
     suspectServersCount := suspectServersCount router;
     suspectServers := suspectServers router;
     startTime := startTime router;
     lastConfigAttempt := lastConfigAttempt router;
     configFailures := configFailures router |}.

(** The values [fscanf] stored: at most six, none when the file did not
    open. *)
Definition scanned_fields (env : host_env) : list Z :=
  take 6 (default [] (proc_stat_scan env)).

(** [get_proc_stat] fails: the file does not open, or fewer than six fields
    are converted. *)
Definition proc_stat_unreadable (env : host_env) : Prop :=
  proc_stat_scan env = None
  ∨ ∃ conv, proc_stat_scan env = Some conv ∧ (length conv < 6)%nat.

Section Vocabulary.
Context `{mc_res_h} `{stats_h} `{stat_list_h}.

(** The six outcome counters [sendReply] increments. *)
Definition request_slots : list nat :=
  [request_replied_stat; request_replied_count_stat;
   request_error_stat; request_error_count_stat;
   request_success_stat; request_success_count_stat].

(** A run of visits, starting from [serverStats]. *)
Definition fold_visits (serverStats : gmap string ServerStat)
    (l : list (string * ProxyDestination)) : gmap string ServerStat :=
  foldl (fun serverStats kd => visit_destination serverStats kd.1 kd.2)
    serverStats l.

(** The slots each stage of [prepare_stats] assigns. *)
Definition derived_slots : list nat :=
  [destination_batch_size_stat; retrans_per_kbyte_avg_stat;
   outstanding_route_get_avg_queue_size_stat;
   outstanding_route_get_avg_wait_time_sec_stat;
   outstanding_route_update_avg_queue_size_stat;
   outstanding_route_update_avg_wait_time_sec_stat].

Definition process_slots : list nat :=
  [commandargs_stat; time_stat; start_time_stat; uptime_stat; config_age_stat;
   config_last_success_stat; config_last_attempt_stat; config_failures_stat;
   pid_stat; parent_pid_stat; rusage_user_stat; rusage_system_stat].

Definition ps_slots : list nat :=
  [ps_num_minor_faults_stat; ps_num_major_faults_stat; ps_user_time_sec_stat;
   ps_system_time_sec_stat; ps_rss_stat; ps_vsize_stat].

Definition fiber_slots : list nat :=
  [fibers_allocated_stat; fibers_pool_size_stat;
   fibers_stack_high_watermark_stat; duration_us_stat;
   client_queue_notify_period_stat].

(** Every slot [prepare_stats] assigns before its aggregation loop. *)
Definition assigned_slots : list nat :=
  num_suspect_servers_stat
  :: derived_slots ++ process_slots ++ ps_slots ++ fiber_slots.

(** Whether the loop aggregates a slot: [aggregate && !(group & rate_stats)]. *)
Definition sum_policy (stat : stat_t) : bool :=
  aggregate stat && (Z.land (group stat) rate_stats =? 0).

(** The table lets [prepare_stats] run to its end: the suspect-servers slot
    is unsigned (the [assert] of [stat_set_uint64]) and no string slot is
    aggregated ([LOG(FATAL)]). *)
Definition stat_list_ok : Prop :=
  type (stat_at stat_list num_suspect_servers_stat) = stat_uint64
  ∧ Forall (fun stat => sum_policy stat = true -> type stat ≠ stat_string)
      stat_list.

(** No slot that [prepare_stats] assigns itself is under the sum policy. *)
Definition assigned_not_summed : Prop :=
  Forall (fun slot => sum_policy (stat_at stat_list slot) = false) assigned_slots.

(** The snapshot before the aggregation loop. *)
Definition before_aggregation (router : McrouterInstanceBase) (env : host_env)
    : list stat_t :=
  prepare_process_stats router env
    (stat_write init_stats num_suspect_servers_stat
       (data_uint64 (suspectServersCount router))).

(** The unsigned value of [slot] in the snapshot. *)
Definition snapshot_uint64 (router : McrouterInstanceBase) (env : host_env)
    (slot : nat) : option Z :=
  (fun snapshot => stat_get_uint64 snapshot slot) <$> prepare_stats router env.

(** Its signed value, and its value as a double. *)
Definition snapshot_int64 (router : McrouterInstanceBase) (env : host_env)
    (slot : nat) : option Z :=
  (fun snapshot => stat_get_int64 snapshot slot) <$> prepare_stats router env.

Definition snapshot_dbl (router : McrouterInstanceBase) (env : host_env)
    (slot : nat) : option double :=
  (fun snapshot => stat_get_dbl snapshot slot) <$> prepare_stats router env.

End Vocabulary.

(** ** The vocabulary of the further properties *)

Section FurtherVocabulary.
Context `{mc_res_h} `{stats_h} `{stat_list_h}.

(** The replies counted as replied but neither as success nor as error
    (modulo 2^64): in the cumulative counters, and in the counters of the
    rate window. *)
Definition unclassified_count (stats : list stat_t) : Z :=
  wrap64 (stat_get_uint64 stats request_replied_count_stat
          - stat_get_uint64 stats request_success_count_stat
          - stat_get_uint64 stats request_error_count_stat).

Definition unclassified_rate (stats : list stat_t) : Z :=
  wrap64 (stat_get_uint64 stats request_replied_stat
          - stat_get_uint64 stats request_success_stat
          - stat_get_uint64 stats request_error_stat).

End FurtherVocabulary.

Section StageVocabulary.
Context `{stats_h} `{stat_list_h}.

(** The snapshot after each stage of [prepare_stats], up to the aggregation
    loop. *)
Definition after_suspect (router : McrouterInstanceBase) : list stat_t :=
  stat_write init_stats num_suspect_servers_stat
    (data_uint64 (suspectServersCount router)).

Definition after_ratios (router : McrouterInstanceBase) : list stat_t :=
  derived_ratio_stats router (after_suspect router).

Definition after_process (router : McrouterInstanceBase) (env : host_env)
    : list stat_t :=
  process_wide_stats router env (after_ratios router).

Definition after_proc_stat (router : McrouterInstanceBase) (env : host_env)
    : list stat_t :=
  proc_stat_stats env (after_process router env).

(** The enumerators of the slots [prepare_stats] assigns are distinct
    positions of the table, and the table puts none of them under the sum
    policy. *)
Definition assigned_slots_ok : Prop :=
  NoDup assigned_slots
  ∧ Forall (fun slot => (slot < num_stats)%nat) assigned_slots
  ∧ assigned_not_summed.

End StageVocabulary.

Section QueryVocabulary.
Context `{mc_res_h} `{stats_h} `{stat_list_h}.



(** The entry of a destination in [serverStats], as [serverStats[key]] would
    create it when absent. *)
Definition server_stat_of (serverStats : gmap string ServerStat) (key : string)
    : ServerStat :=
  default ServerStat_init (serverStats !! key).

End QueryVocabulary.

#[global] Instance State_eq_dec : EqDecision State.
Proof. solve_decision. Defined.

(** What the views of one destination contribute to its [ServerStat]: the
    average latencies that have a value, the retransmission ratios that pass
    [retransPerKByte >= 0.0], and the count a view reports for a result. *)
Definition latencies (views : list ProxyDestination) : list double :=
  omap pd_avgLatency views.

Definition retrans_ratios (views : list ProxyDestination) : list double :=
  omap (fun view =>
          if Double.leb Double.zero (pd_retransPerKByte view)
          then Some (pd_retransPerKByte view) else None) views.

Definition result_count (j : nat) (view : ProxyDestination) : Z :=
  match pd_results view with
  | Some src => default 0 (src !! j)
  | None => 0
  end.

Definition in_state (s : State) (views : list ProxyDestination)
    : list ProxyDestination :=
  filter (fun view => pd_state view = s) views.

(** ** Thread-safe counters, [stats.cpp] *)

(** [stat_incr_safe] and [stat_decr_safe]: [__sync_fetch_and_add] of [1] and
    of [-1] on the slot's [uint64_t]. *)
Definition stat_incr_safe (stats : list stat_t) (stat_name : nat)
    : list stat_t :=
  stat_write stats stat_name
    (data_uint64 (add64 (stat_get_uint64 stats stat_name) 1)).

Definition stat_decr_safe (stats : list stat_t) (stat_name : nat)
    : list stat_t :=
  stat_write stats stat_name
    (data_uint64 (add64 (stat_get_uint64 stats stat_name) (wrap64 (-1)))).

(** ** A small instance of the headers

    A table of the slots the two files name, with the masks of [stats.h];
    the concrete inputs of the examples below are built over it. *)

Module Sample.

Definition res : mc_res_h :=
  {| mc_nres := 6%nat;
     mc_res_unknown := 0%nat;
     mc_res_ok := 1%nat;
     mc_res_bad_command := 2%nat;
     mc_res_client_error := 3%nat;
     mc_res_local_error := 4%nat;
     mc_res_is_err := fun r => negb (r =? 1)%nat |}.

Definition masks : stats_h :=
  {| mcproxy_stats := 0x1;
     detailed_stats := 0x2;
     cmd_all_stats := 0x4;
     cmd_in_stats := 0x8;
     cmd_out_stats := 0x10;
     cmd_error_stats := 0x20;
     ods_stats := 0x40;
     rate_stats := 0x100;
     count_stats := 0x200;
     outlier_stats := 0x400;
     max_stats := 0x800;
     max_max_stats := 0x1000;
     all_stats := 0xffff;
     server_stats := 0x10000;
     suspect_server_stats := 0x40000;
     unknown_stats := 0x10000000;
     MOVING_AVERAGE_BIN_SIZE_IN_SECOND := 1;
     MCROUTER_PACKAGE_STRING := "mcrouter 1.0" |}.

Definition counter (n : string) (g : stat_group_t) (agg : bool) : stat_t :=
  {| name := n; group := g; type := stat_uint64; aggregate := agg;
     data := data_uint64 0 |}.

Definition gauge_dbl (n : string) (g : stat_group_t) : stat_t :=
  {| name := n; group := g; type := stat_double; aggregate := false;
     data := data_dbl Double.zero |}.

Definition gauge_int (n : string) (g : stat_group_t) : stat_t :=
  {| name := n; group := g; type := stat_int64; aggregate := false;
     data := data_int64 0 |}.

Definition text (n : string) (g : stat_group_t) : stat_t :=
  {| name := n; group := g; type := stat_string; aggregate := false;
     data := data_string None |}.

Definition table : list stat_t :=
  [ counter "request_replied" 0x140 true;
    counter "request_replied_count" 0x240 true;
    counter "request_error" 0x140 true;
    counter "request_error_count" 0x240 true;
    counter "request_success" 0x140 true;
    counter "request_success_count" 0x240 true;
    counter "destination_batches_sum" 0x2 true;
    counter "destination_requests_sum" 0x2 true;
    counter "outstanding_route_get_reqs_queued" 0x2 true;
    counter "outstanding_route_get_reqs_queued_helper" 0x2 true;
    counter "outstanding_route_get_wait_time_sum_us" 0x2 true;
    counter "outstanding_route_update_reqs_queued" 0x2 true;
    counter "outstanding_route_update_reqs_queued_helper" 0x2 true;
    counter "outstanding_route_update_wait_time_sum_us" 0x2 true;
    counter "retrans_per_kbyte_sum" 0x2 true;
    counter "retrans_num_total" 0x2 true;
    counter "num_suspect_servers" 0x1 false;
    gauge_dbl "destination_batch_size" 0x2;
    gauge_dbl "retrans_per_kbyte_avg" 0x2;
    gauge_dbl "outstanding_route_get_avg_queue_size" 0x2;
    gauge_dbl "outstanding_route_get_avg_wait_time_sec" 0x2;
    gauge_dbl "outstanding_route_update_avg_queue_size" 0x2;
    gauge_dbl "outstanding_route_update_avg_wait_time_sec" 0x2;
    text "commandargs" 0x1;
    counter "time" 0x1 false;
    counter "start_time" 0x1 false;
    counter "uptime" 0x1 false;
    counter "config_age" 0x1 false;
    counter "config_last_success" 0x1 false;
    counter "config_last_attempt" 0x1 false;
    counter "config_failures" 0x1 false;
    gauge_int "pid" 0x1;
    gauge_int "parent_pid" 0x1;
    gauge_dbl "rusage_user" 0x2;
    gauge_dbl "rusage_system" 0x2;
    counter "ps_num_minor_faults" 0x1 false;
    counter "ps_num_major_faults" 0x1 false;
    gauge_dbl "ps_user_time_sec" 0x2;
    gauge_dbl "ps_system_time_sec" 0x2;
    counter "ps_rss" 0x1 false;
    counter "ps_vsize" 0x1 false;
    counter "fibers_allocated" 0x1 false;
    counter "fibers_pool_size" 0x1 false;
    counter "fibers_stack_high_watermark" 0x1 false;
    gauge_dbl "duration_us" 0x2;
    gauge_dbl "client_queue_notify_period" 0x2 ].

Definition slots : stat_list_h :=
  {| stat_list := table;
     request_replied_stat := 0%nat;
     request_replied_count_stat := 1%nat;
     request_error_stat := 2%nat;
     request_error_count_stat := 3%nat;
     request_success_stat := 4%nat;
     request_success_count_stat := 5%nat;
     destination_batches_sum_stat := 6%nat;
     destination_requests_sum_stat := 7%nat;
     outstanding_route_get_reqs_queued_stat := 8%nat;
     outstanding_route_get_reqs_queued_helper_stat := 9%nat;
     outstanding_route_get_wait_time_sum_us_stat := 10%nat;
     outstanding_route_update_reqs_queued_stat := 11%nat;
     outstanding_route_update_reqs_queued_helper_stat := 12%nat;
     outstanding_route_update_wait_time_sum_us_stat := 13%nat;
     retrans_per_kbyte_sum_stat := 14%nat;
     retrans_num_total_stat := 15%nat;
     num_suspect_servers_stat := 16%nat;
     destination_batch_size_stat := 17%nat;
     retrans_per_kbyte_avg_stat := 18%nat;
     outstanding_route_get_avg_queue_size_stat := 19%nat;
     outstanding_route_get_avg_wait_time_sec_stat := 20%nat;
     outstanding_route_update_avg_queue_size_stat := 21%nat;
     outstanding_route_update_avg_wait_time_sec_stat := 22%nat;
     commandargs_stat := 23%nat;
     time_stat := 24%nat;
     start_time_stat := 25%nat;
     uptime_stat := 26%nat;
     config_age_stat := 27%nat;
     config_last_success_stat := 28%nat;
     config_last_attempt_stat := 29%nat;
     config_failures_stat := 30%nat;
     pid_stat := 31%nat;
     parent_pid_stat := 32%nat;
     rusage_user_stat := 33%nat;
     rusage_system_stat := 34%nat;
     ps_num_minor_faults_stat := 35%nat;
     ps_num_major_faults_stat := 36%nat;
     ps_user_time_sec_stat := 37%nat;
     ps_system_time_sec_stat := 38%nat;
     ps_rss_stat := 39%nat;
     ps_vsize_stat := 40%nat;
     fibers_allocated_stat := 41%nat;
     fibers_pool_size_stat := 42%nat;
     fibers_stack_high_watermark_stat := 43%nat;
     duration_us_stat := 44%nat;
     client_queue_notify_period_stat := 45%nat |}.

Definition keys : mc_key_h :=
  {| mc_req_err_t := nat;
     mc_req_err_valid := 0%nat;
     isKeyValid := fun k => if decide (k = "") then 1%nat else 0%nat;
     mc_req_err_to_string := fun e => "Invalid key" |}.

(** A proxy with the given counters, bins and destinations. *)
Definition a_proxy (counters : list stat_t) (bins : list (list Z))
    (within_window : list Z) (used : Z)
    (dests : list (string * ProxyDestination)) (tearing_down : bool) : Proxy :=
  {| stats := counters;
     stats_bin := bins;
     stats_num_within_window := within_window;
     num_bins_used := used;
     destinationMap := dests;
     fibersAllocated := 0;
     fibersPoolSize := 0;
     stackHighWatermark := 0;
     durationUs := Double.zero;
     queueNotifyPeriod := Double.zero;
     being_destroyed := tearing_down;
     enable_flush_cmd := false |}.

Definition a_router (prs : list Proxy) : McrouterInstanceBase :=
  {| proxies := prs;
     suspectServersCount := 0;
     suspectServers := [];
     startTime := 1000;
     lastConfigAttempt := 1000;
     configFailures := 0 |}.

(** A host whose [/proc/<pid>/stat] gives [scan]. *)
Definition a_host (scan : option (list Z)) : host_env :=
  {| time_now := 2000;
     host_pid := 42;
     host_ppid := 1;
     ru_utime_tv_sec := 3;
     ru_utime_tv_usec := 500000;
     ru_stime_tv_sec := 1;
     ru_stime_tv_usec := 250000;
     sysconf_SC_CLK_TCK := 100;
     sysconf_SC_PAGESIZE := 4096;
     gStandaloneArgs := Some "mcrouter -p 5000";
     proc_stat_scan := scan |}.

(** A fresh proxy: the table's counters, no bin rotated yet. *)
Definition fresh_proxy : Proxy := a_proxy table [] [] 0 [] false.

(** A context that holds a get request for key ["k"]. *)
Definition a_request : Request := {| req_type := McKeyedRequest; fullKey := "k" |}.

Definition a_world (rec : bool) (pr : Proxy) : world :=
  {| ctx := {| recording := rec; replied_ := false; req_ := Some a_request |};
     proxy := pr;
     trace := [] |}.

(** A proxy that is being destroyed. *)
Definition closing_proxy : Proxy := a_proxy table [] [] 0 [] true.

Definition ok_reply : Reply := {| reply_result := 1%nat; reply_message := "" |}.
Definition error_reply : Reply := {| reply_result := 4%nat; reply_message := "" |}.

(** Two shards with one used bin each, holding 3 and 5 for slot 0: both
    records fall into the same bin. *)
Definition same_bin_router : McrouterInstanceBase :=
  a_router [a_proxy table [[3]] [] 1 [] false; a_proxy table [[5]] [] 1 [] false].

(** Two shards with two used bins, 3 in bin 0 of the first and 5 in bin 1 of
    the second. *)
Definition two_bin_router : McrouterInstanceBase :=
  a_router [a_proxy table [[3; 0]] [] 2 [] false;
            a_proxy table [[0; 5]] [] 2 [] false].

(** A destination as one shard sees it, with the given knockout flags. *)
Definition a_destination (hard soft : bool) : ProxyDestination :=
  {| tracker_isHardTko := hard;
     tracker_isSoftTko := soft;
     pd_results := None;
     pd_state := kUp;
     pd_avgLatency := None;
     pd_retransPerKByte := Double.zero;
     pd_pendingRequestCount := 0;
     pd_inflightRequestCount := 0 |}.

(** Two shards that both hold destination ["d"]: the first sees it knocked
    out, the second does not. *)
Definition split_view_router : McrouterInstanceBase :=
  a_router [a_proxy table [] [] 0 [("d", a_destination true true)] false;
            a_proxy table [] [] 0 [("d", a_destination false false)] false].

(** Two shards that agree that ["d"] is hard knocked out. *)
Definition agreed_view_router : McrouterInstanceBase :=
  a_router [a_proxy table [] [] 0 [("d", a_destination true false)] false;
            a_proxy table [] [] 0 [("d", a_destination true false)] false].

(** Two fresh shards. *)
Definition fresh_router : McrouterInstanceBase :=
  a_router [fresh_proxy; fresh_proxy].

(** A host where [fopen] fails, and one where [fscanf] converts the two
    page-fault counts and then stops. *)
Definition host_without_proc : host_env := a_host None.
Definition host_with_short_proc : host_env := a_host (Some [7; 3]).

(** A keyed request without a key, and the commands [precheckRequest]
    answers itself or lets through on an option. *)
Definition keyless_request : Request :=
  {| req_type := McKeyedRequest; fullKey := "" |}.
Definition shutdown_request : Request :=
  {| req_type := McShutdownRequest; fullKey := "" |}.
Definition flush_re_request : Request :=
  {| req_type := McFlushReRequest; fullKey := "" |}.
Definition flush_all_request : Request :=
  {| req_type := McFlushAllRequest; fullKey := "" |}.

(** A fresh context that holds [req], on the proxy [pr]. *)
Definition a_world_of (req : Request) (pr : Proxy) : world :=
  {| ctx := {| recording := false; replied_ := false; req_ := Some req |};
     proxy := pr;
     trace := [] |}.

(** A fresh proxy of a router started with [enable_flush_cmd]. *)
Definition flushing_proxy : Proxy :=
  {| stats := table;
     stats_bin := [];
     stats_num_within_window := [];
     num_bins_used := 0;
     destinationMap := [];
     fibersAllocated := 0;
     fibersPoolSize := 0;
     stackHighWatermark := 0;
     durationUs := Double.zero;
     queueNotifyPeriod := Double.zero;
     being_destroyed := false;
     enable_flush_cmd := true |}.

(** A shard that has replied twice, once with an error. *)
Definition replied_proxy : Proxy :=
  a_proxy
    (stat_incr (stat_incr (stat_incr table 1 2) 3 1) 5 1) [] [] 0 [] false.

(** A destination that is down with traffic on it, and one that is up and
    reports neither latency nor result counters, with a negative
    retransmission ratio. *)
Definition a_busy_destination : ProxyDestination :=
  {| tracker_isHardTko := false;
     tracker_isSoftTko := false;
     pd_results := Some [0; 4; 0; 0; 1; 0];
     pd_state := kDown;
     pd_avgLatency := Some (Double.of_Z 250);
     pd_retransPerKByte := Double.of_Z 2;
     pd_pendingRequestCount := 2;
     pd_inflightRequestCount := 1 |}.

Definition an_idle_destination : ProxyDestination :=
  {| tracker_isHardTko := false;
     tracker_isSoftTko := false;
     pd_results := None;
     pd_state := kUp;
     pd_avgLatency := None;
     pd_retransPerKByte := Double.of_Z (-1);
     pd_pendingRequestCount := 3;
     pd_inflightRequestCount := 0 |}.

(** Three shards: ["d"] is busy on the first and the third and idle on the
    second, which also holds ["e"]. *)
Definition busy_view_router : McrouterInstanceBase :=
  a_router
    [a_proxy table [] [] 0 [("d", a_busy_destination)] false;
     a_proxy table [] [] 0
       [("d", an_idle_destination); ("e", a_busy_destination)] false;
     a_proxy table [] [] 0 [("d", a_busy_destination)] false].

(** A router without shards. *)
Definition empty_router : McrouterInstanceBase := a_router [].

(** Two shards with fibers, 40 on the first and 2 on the second. *)
Definition a_fiber_proxy (allocated pool watermark : Z) (duration : double)
    : Proxy :=
  {| stats := table;
     stats_bin := [];
     stats_num_within_window := [];
     num_bins_used := 0;
     destinationMap := [];
     fibersAllocated := allocated;
     fibersPoolSize := pool;
     stackHighWatermark := watermark;
     durationUs := duration;
     queueNotifyPeriod := Double.zero;
     being_destroyed := false;
     enable_flush_cmd := false |}.

Definition fiber_router : McrouterInstanceBase :=
  a_router [a_fiber_proxy 40 64 4096 (Double.of_Z 3);
            a_fiber_proxy 2 64 8192 (Double.of_Z 5)].

(** Two shards with one used bin and window counts for the batch slots: 3
    batches of 12 requests in all. *)
Definition batching_router : McrouterInstanceBase :=
  a_router [a_proxy table [] [0; 0; 0; 0; 0; 0; 1; 4] 1 [] false;
            a_proxy table [] [0; 0; 0; 0; 0; 0; 2; 8] 1 [] false].

(** A host whose status file yields the six fields and more. *)
Definition host_with_proc : host_env :=
  a_host (Some [7; 3; 250; 125; 1048576; 10; 99]).

(** The table with [num_suspect_servers] declared as a string, and with
    [commandargs] declared as aggregated. *)
Definition suspect_text_table : list stat_t :=
  <[16%nat := text "num_suspect_servers" 0x1]> table.

Definition summed_text_table : list stat_t :=
  <[23%nat := {| name := "commandargs"; group := 0x1; type := stat_string;
                 aggregate := true; data := data_string None |}]> table.

(** The enumerators of [slots] over another table. *)
Definition slots_over (t : list stat_t) : stat_list_h :=
  {| stat_list := t;
     request_replied_stat := 0%nat;
     request_replied_count_stat := 1%nat;
     request_error_stat := 2%nat;
     request_error_count_stat := 3%nat;
     request_success_stat := 4%nat;
     request_success_count_stat := 5%nat;
     destination_batches_sum_stat := 6%nat;
     destination_requests_sum_stat := 7%nat;
     outstanding_route_get_reqs_queued_stat := 8%nat;
     outstanding_route_get_reqs_queued_helper_stat := 9%nat;
     outstanding_route_get_wait_time_sum_us_stat := 10%nat;
     outstanding_route_update_reqs_queued_stat := 11%nat;
     outstanding_route_update_reqs_queued_helper_stat := 12%nat;
     outstanding_route_update_wait_time_sum_us_stat := 13%nat;
     retrans_per_kbyte_sum_stat := 14%nat;
     retrans_num_total_stat := 15%nat;
     num_suspect_servers_stat := 16%nat;
     destination_batch_size_stat := 17%nat;
     retrans_per_kbyte_avg_stat := 18%nat;
     outstanding_route_get_avg_queue_size_stat := 19%nat;
     outstanding_route_get_avg_wait_time_sec_stat := 20%nat;
     outstanding_route_update_avg_queue_size_stat := 21%nat;
     outstanding_route_update_avg_wait_time_sec_stat := 22%nat;
     commandargs_stat := 23%nat;
     time_stat := 24%nat;
     start_time_stat := 25%nat;
     uptime_stat := 26%nat;
     config_age_stat := 27%nat;
     config_last_success_stat := 28%nat;
     config_last_attempt_stat := 29%nat;
     config_failures_stat := 30%nat;
     pid_stat := 31%nat;
     parent_pid_stat := 32%nat;
     rusage_user_stat := 33%nat;
     rusage_system_stat := 34%nat;
     ps_num_minor_faults_stat := 35%nat;
     ps_num_major_faults_stat := 36%nat;
     ps_user_time_sec_stat := 37%nat;
     ps_system_time_sec_stat := 38%nat;
     ps_rss_stat := 39%nat;
     ps_vsize_stat := 40%nat;
     fibers_allocated_stat := 41%nat;
     fibers_pool_size_stat := 42%nat;
     fibers_stack_high_watermark_stat := 43%nat;
     duration_us_stat := 44%nat;
     client_queue_notify_period_stat := 45%nat |}.

End Sample.

(** * Properties *)

(** ** Reading and writing slots *)

Lemma stat_write_length stats idx d :
  length (stat_write stats idx d) = length stats.
Proof. unfold stat_write. apply length_insert. Qed.

Lemma stat_at_write_eq stats idx d :
  (idx < length stats)%nat ->
  stat_at (stat_write stats idx d) idx = set_data (stat_at stats idx) d.
Proof.
  intros Hlt. unfold stat_at at 1, stat_write.
  by rewrite list_lookup_insert_eq.
Qed.

Lemma stat_at_write_ne stats idx j d :
  idx ≠ j -> stat_at (stat_write stats idx d) j = stat_at stats j.
Proof.
  intros Hne. unfold stat_at, stat_write.
  by rewrite list_lookup_insert_ne.
Qed.

Lemma stat_incr_length stats idx a :
  length (stat_incr stats idx a) = length stats.
Proof. apply stat_write_length. Qed.

Lemma stat_incr_get_eq stats idx a :
  (idx < length stats)%nat ->
  stat_get_uint64 (stat_incr stats idx a) idx
  = add64 (stat_get_uint64 stats idx) a.
Proof.
  intros Hlt. unfold stat_get_uint64 at 1, stat_incr.
  by rewrite stat_at_write_eq.
Qed.

Lemma stat_incr_at_ne stats idx j a :
  idx ≠ j -> stat_at (stat_incr stats idx a) j = stat_at stats j.
Proof. apply stat_at_write_ne. Qed.

Lemma stat_incr_get_ne stats idx j a :
  idx ≠ j -> stat_get_uint64 (stat_incr stats idx a) j = stat_get_uint64 stats j.
Proof. intros Hne. unfold stat_get_uint64. by rewrite stat_incr_at_ne. Qed.

(** ** The reply guard *)

Section RequestContextFacts.
Context `{mc_res_h} `{stat_list_h} `{mc_key_h}.

Lemma sendReply_recording w reply :
  recording (ctx w) = true -> sendReply w reply = w.
Proof. intros Hrec. unfold sendReply. by rewrite Hrec. Qed.

Lemma sendReply_replied w reply :
  replied_ (ctx w) = true -> sendReply w reply = w.
Proof.
  intros Hrep. unfold sendReply. rewrite Hrep. by destruct (recording (ctx w)).
Qed.

(** After [sendReply] the context is recording or has replied. *)
Lemma sendReply_closes w reply :
  recording (ctx (sendReply w reply)) = true
  ∨ replied_ (ctx (sendReply w reply)) = true.
Proof.
  unfold sendReply.
  destruct (recording (ctx w)) eqn:Hrec; [by left |].
  destruct (replied_ (ctx w)) eqn:Hrep; [by right |].
  right. reflexivity.
Qed.

Lemma sendReply_again w reply reply' :
  sendReply (sendReply w reply) reply' = sendReply w reply.
Proof.
  destruct (sendReply_closes w reply) as [Hrec | Hrep].
  - by apply sendReply_recording.
  - by apply sendReply_replied.
Qed.

Lemma sendReply_many w reply rest :
  foldl sendReply (sendReply w reply) rest = sendReply w reply.
Proof.
  induction rest as [| reply' rest IH]; [done |].
  simpl. by rewrite sendReply_again.
Qed.

(** The first effective [sendReply]: what it leaves behind. *)
Lemma sendReply_first w reply :
  recording (ctx w) = false ->
  replied_ (ctx w) = false ->
  let w' := sendReply w reply in
  ctx w' = {| recording := false; replied_ := true; req_ := None |}
  ∧ trace w' = trace w ++ [ev_callback (req_ (ctx w)) reply].
Proof.
  intros Hrec Hrep. unfold sendReply. rewrite Hrec, Hrep. by simpl.
Qed.

Lemma replies_of_app t1 t2 :
  replies_of (t1 ++ t2) = replies_of t1 ++ replies_of t2.
Proof. unfold replies_of. apply omap_app. Qed.

End RequestContextFacts.

(** ** The request context: single reply, outcome counters, teardown *)

Section RequestContextClaims.
Context `{mc_res_h} `{stat_list_h} `{mc_key_h}.

(** C3.  Whatever sequence of replies is sent on a context, [sendReply] acts
    at most once: the whole sequence leaves the world where its first
    invocation left it (callback, counters, stored request), a sequence
    started on a context that is recording or has already replied changes
    nothing at all, and the completion callback has been run at most once
    more than before. *)
Theorem sendReply_at_most_once (w : world) (replies : list Reply) :
  let w' := foldl sendReply w replies in
  (∀ reply rest, replies = reply :: rest -> w' = sendReply w reply)
  ∧ (recording (ctx w) = true ∨ replied_ (ctx w) = true -> w' = w)
  ∧ (length (replies_of (trace w')) ≤ S (length (replies_of (trace w))))%nat.
Proof.
  intros w'. subst w'.
  assert (Hfirst : ∀ reply rest,
             foldl sendReply w (reply :: rest) = sendReply w reply).
  { intros reply rest. simpl. apply sendReply_many. }
  split; [| split].
  - intros reply rest ->. apply Hfirst.
  - intros Hclosed. destruct replies as [| reply rest]; [done |].
    rewrite Hfirst.
    destruct Hclosed; [by apply sendReply_recording | by apply sendReply_replied].
  - destruct replies as [| reply rest]; [simpl; lia |].
    rewrite Hfirst.
    destruct (recording (ctx w)) eqn:Hrec.
    { rewrite sendReply_recording by done. lia. }
    destruct (replied_ (ctx w)) eqn:Hrep.
    { rewrite sendReply_replied by done. lia. }
    destruct (sendReply_first w reply Hrec Hrep) as [_ ->].
    rewrite replies_of_app, length_app. simpl. lia.
Qed.

(** C4.  The first effective [sendReply] with result code [r] adds one to the
    total-replied counter and to the replied-for-rate-window counter, and to
    exactly one pair of the other four: the error pair when
    [mc_res_is_err r], the success pair otherwise; the other pair and every
    other slot keep their values. *)
Theorem sendReply_counts_outcome (w : world) (reply : Reply) :
  recording (ctx w) = false ->
  replied_ (ctx w) = false ->
  NoDup request_slots ->
  Forall (fun slot => (slot < length (stats (proxy w)))%nat) request_slots ->
  let before := stat_get_uint64 (stats (proxy w)) in
  let after := stat_get_uint64 (stats (proxy (sendReply w reply))) in
  after request_replied_stat = add64 (before request_replied_stat) 1
  ∧ after request_replied_count_stat = add64 (before request_replied_count_stat) 1
  ∧ (if mc_res_is_err (reply_result reply) then
       after request_error_stat = add64 (before request_error_stat) 1
       ∧ after request_error_count_stat = add64 (before request_error_count_stat) 1
       ∧ after request_success_stat = before request_success_stat
       ∧ after request_success_count_stat = before request_success_count_stat
     else
       after request_success_stat = add64 (before request_success_stat) 1
       ∧ after request_success_count_stat = add64 (before request_success_count_stat) 1
       ∧ after request_error_stat = before request_error_stat
       ∧ after request_error_count_stat = before request_error_count_stat)
  ∧ (∀ slot, slot ∉ request_slots ->
       stat_at (stats (proxy (sendReply w reply))) slot
       = stat_at (stats (proxy w)) slot).
Proof.
  intros Hrec Hrep Hnd Hin before after. subst before after.
  unfold request_slots in *.
  repeat (apply NoDup_cons in Hnd as [? Hnd]).
  repeat match goal with
         | Hni : _ ∉ _ :: _ |- _ => apply not_elem_of_cons in Hni as [? Hni]
         end.
  repeat (apply Forall_cons in Hin as [? Hin]).
  unfold sendReply. rewrite Hrec, Hrep. cbn [proxy ctx trace sendReplyImpl].
  unfold set_stats; cbn [stats].
  set (is_err := mc_res_is_err (reply_result reply)).
  split; [| split; [| split]].
  - destruct is_err;
      rewrite !stat_incr_get_ne by done;
      rewrite stat_incr_get_eq by done; done.
  - destruct is_err;
      rewrite !stat_incr_get_ne by done;
      rewrite stat_incr_get_eq by (by rewrite !stat_incr_length);
      rewrite !stat_incr_get_ne by done; done.
  - destruct is_err; repeat split;
      rewrite ?stat_incr_get_ne by done;
      try (rewrite stat_incr_get_eq by (by rewrite !stat_incr_length));
      rewrite ?stat_incr_get_ne by done; done.
  - intros slot Hslot.
    repeat (apply not_elem_of_cons in Hslot as [? Hslot]).
    destruct is_err; rewrite !stat_incr_at_ne by done; done.
Qed.

End RequestContextClaims.

Section Teardown.
Context `{mc_res_h} `{stat_list_h} `{mc_key_h}.

(** A precheck that succeeds has not touched the context. *)
Lemma precheckRequest_ok w req :
  (precheckRequest w req).1 = true -> (precheckRequest w req).2 = w.
Proof.
  unfold precheckRequest, precheckKey.
  destruct (req_type req); simpl; try done.
  - by destruct (enable_flush_cmd (proxy w)).
  - by case_decide.
Qed.

Lemma precheckRequest_pair w req :
  (precheckRequest w req).1 = true -> precheckRequest w req = (true, w).
Proof.
  intros Hok. pose proof (precheckRequest_ok w req Hok) as Hw.
  destruct (precheckRequest w req) as [ok w1]. simpl in *. by subst.
Qed.

Lemma sendReply_no_dispatch w reply :
  filter is_dispatch (trace (sendReply w reply)) = filter is_dispatch (trace w).
Proof.
  unfold sendReply.
  destruct (recording (ctx w)); [done |].
  destruct (replied_ (ctx w)); [done |].
  simpl. rewrite filter_app. simpl. by rewrite app_nil_r.
Qed.

(** C8, as the code has it.  When validation succeeds while the proxy is
    being destroyed, the request is never handed to [dispatchRequest]; a
    context that is neither recording nor already replied then delivers
    exactly one reply, with the result [mc_res_unknown], and its reply guard
    is set. *)
Theorem startProcessing_teardown (w : world) (req : Request) :
  req_ (ctx w) = Some req ->
  (precheckRequest w req).1 = true ->
  being_destroyed (proxy w) = true ->
  let w' := startProcessing w req in
  filter is_dispatch (trace w') = filter is_dispatch (trace w)
  ∧ (recording (ctx w) = false -> replied_ (ctx w) = false ->
     trace w'
     = trace w
       ++ [ev_log_error "Outstanding request on a proxy that's being destroyed";
           ev_callback (Some req) (Reply_of mc_res_unknown);
           ev_delete]
     ∧ replies_of (trace w') = replies_of (trace w) ++ [Reply_of mc_res_unknown]
     ∧ replied_ (ctx w') = true).
Proof.
  intros Hreq Hok Hdown w'. subst w'.
  unfold startProcessing. rewrite (precheckRequest_pair w req Hok).
  simpl. rewrite Hdown.
  split.
  - unfold delete_self. cbn [trace]. rewrite filter_app.
    rewrite sendReply_no_dispatch. unfold log_error. cbn [trace].
    rewrite filter_app. simpl. by rewrite !app_nil_r.
  - intros Hrec Hrep.
    set (w1 := log_error w _).
    assert (Hrec1 : recording (ctx w1) = false) by done.
    assert (Hrep1 : replied_ (ctx w1) = false) by done.
    destruct (sendReply_first w1 (Reply_of mc_res_unknown) Hrec1 Hrep1)
      as [Hctx Htrace].
    unfold delete_self. cbn [trace ctx]. rewrite Htrace, Hctx.
    subst w1. unfold log_error. cbn [trace ctx]. rewrite Hreq.
    split; [by rewrite <- !app_assoc |].
    split; [| done].
    rewrite !replies_of_app. simpl. by rewrite !app_nil_r.
Qed.

End Teardown.

(** ** The query surface: version and unknown categories *)

Section QueryClaims.
Context `{mc_res_h} `{stats_h} `{stat_list_h}.

Lemma stat_parse_group_str_unknown (str : string) :
  str ∉ recognized_groups -> stat_parse_group_str str = unknown_stats.
Proof.
  unfold recognized_groups. intros Hstr.
  repeat (apply not_elem_of_cons in Hstr as [? Hstr]).
  unfold stat_parse_group_str.
  repeat (case_decide; [done |]). done.
Qed.

(** C5.  A token that is neither ["version"] nor a recognised group gets the
    client error ["bad stats command"] with no line, whatever the router,
    the proxy and the host hold, and no snapshot is prepared. *)
Theorem stats_reply_unknown_group (router : McrouterInstanceBase)
    (env : host_env) (proxy : Proxy) (group_str : string) :
  group_str ≠ "version" ->
  group_str ∉ recognized_groups ->
  stats_reply router env proxy group_str
  = {| snapshots_prepared := 0;
       reply := Some {| result := mc_res_client_error;
                        message := "bad stats command";
                        reply_stats := [] |} |}.
Proof.
  intros Hversion Hgroup. unfold stats_reply.
  rewrite decide_False by done.
  rewrite stat_parse_group_str_unknown by done.
  by rewrite Z.eqb_refl.
Qed.

(** C9.  The token ["version"] gets exactly one line, ["mcrouter-version"]
    with the package string, whatever the router, the proxy and the host
    hold, and no snapshot is prepared. *)
Theorem stats_reply_version (router : McrouterInstanceBase) (env : host_env)
    (proxy : Proxy) :
  stats_reply router env proxy "version"
  = {| snapshots_prepared := 0;
       reply := Some {| result := mc_res_ok;
                        message := "";
                        reply_stats :=
                          [("mcrouter-version",
                            text_string MCROUTER_PACKAGE_STRING)] |} |}.
Proof. reflexivity. Qed.

End QueryClaims.

(** ** Rates before the first bin rotation *)

Section RateClaims.
Context `{mc_res_h} `{stats_h} `{stat_list_h}.

(** C6.  With no bin used yet the rate is exactly [+0.0] and no division is
    performed: for the rate of a proxy when that proxy's [num_bins_used] is
    zero, for the aggregated rate when [get_num_bins_used] is zero, and for
    the rate of an aggregated slot asked of a proxy in either case. *)
Theorem stats_rate_value_no_bins (router : McrouterInstanceBase)
    (proxy : Proxy) (idx : nat) :
  (num_bins_used proxy = 0 ->
   stats_rate_value router proxy idx = (Double.zero, [])
   ∧ rate_stat_to_str router proxy idx = text_g Double.zero)
  ∧ (get_num_bins_used router = 0 ->
     stats_aggregate_rate_value router idx = (Double.zero, []))
  ∧ (get_num_bins_used router = 0 ->
     aggregate (stat_at (stats proxy) idx) = true ->
     stats_rate_value router proxy idx = (Double.zero, [])
     ∧ rate_stat_to_str router proxy idx = text_g Double.zero).
Proof.
  assert (Hagg : get_num_bins_used router = 0 ->
                 stats_aggregate_rate_value router idx = (Double.zero, [])).
  { intros Hbins. unfold stats_aggregate_rate_value. by rewrite Hbins. }
  split; [| split].
  - intros Hbins. unfold rate_stat_to_str, stats_rate_value. by rewrite Hbins.
  - exact Hagg.
  - intros Hbins Haggregate.
    unfold rate_stat_to_str, stats_rate_value. rewrite Haggregate.
    destruct (num_bins_used proxy =? 0); [done |].
    by rewrite Hagg.
Qed.

End RateClaims.

(** ** Sums and maxima of unsigned counters *)

Lemma two64_pos : 0 < two64.
Proof. done. Qed.

Lemma wrap64_range z : 0 ≤ wrap64 z < two64.
Proof. unfold wrap64, two64. apply Z.mod_pos_bound. lia. Qed.

Lemma wrap64_small z : 0 ≤ z < two64 -> wrap64 z = z.
Proof. intros Hz. unfold wrap64. by apply Z.mod_small. Qed.

Lemma wrap64_add_l a b : wrap64 (wrap64 a + b) = wrap64 (a + b).
Proof. unfold wrap64, two64. by rewrite Zplus_mod_idemp_l. Qed.

Lemma max64_max a b : max64 a b = Z.max a b.
Proof. unfold max64. destruct (Z.ltb_spec a b); lia. Qed.

(** A loop [acc += x] over unsigned values computes the sum modulo 2^64. *)
Lemma foldl_add64 {A} (f : A -> Z) (l : list A) (acc : Z) :
  0 ≤ acc < two64 ->
  foldl (fun acc x => add64 acc (f x)) acc l = wrap64 (acc + Zsum (f <$> l)).
Proof.
  revert acc. induction l as [| x l IH]; intros acc Hacc; cbn [foldl].
  - cbn. rewrite Z.add_0_r. by rewrite wrap64_small.
  - rewrite IH by apply wrap64_range.
    unfold add64. rewrite wrap64_add_l. f_equal.
    change (Zsum (f <$> x :: l)) with (f x + Zsum (f <$> l)). lia.
Qed.

Lemma swrap64_small z : - 2 ^ 63 ≤ z < 2 ^ 63 -> swrap64 z = z.
Proof.
  intros Hz. unfold swrap64, two64. rewrite Z.mod_small by lia. lia.
Qed.

Lemma swrap64_range z : - 2 ^ 63 ≤ swrap64 z < 2 ^ 63.
Proof.
  unfold swrap64, two64.
  pose proof (Z.mod_pos_bound (z + 2 ^ 63) (2 ^ 64)). lia.
Qed.

Lemma swrap64_add_l a b : swrap64 (swrap64 a + b) = swrap64 (a + b).
Proof.
  unfold swrap64, two64.
  replace ((a + 2 ^ 63) mod 2 ^ 64 - 2 ^ 63 + b + 2 ^ 63)
    with ((a + 2 ^ 63) mod 2 ^ 64 + b) by lia.
  rewrite Zplus_mod_idemp_l. do 2 f_equal. lia.
Qed.

(** The same loop on signed values. *)
Lemma foldl_sadd64 {A} (f : A -> Z) (l : list A) (acc : Z) :
  - 2 ^ 63 ≤ acc < 2 ^ 63 ->
  foldl (fun acc x => sadd64 acc (f x)) acc l = swrap64 (acc + Zsum (f <$> l)).
Proof.
  revert acc. induction l as [| x l IH]; intros acc Hacc; cbn [foldl].
  - cbn. rewrite Z.add_0_r. by rewrite swrap64_small.
  - rewrite IH by apply swrap64_range.
    unfold sadd64. rewrite swrap64_add_l. f_equal.
    change (Zsum (f <$> x :: l)) with (f x + Zsum (f <$> l)). lia.
Qed.

(** A loop [m = std::max (m, x)] computes a maximum. *)
Lemma foldl_max64 {A} (f : A -> Z) (l : list A) (m0 : Z) :
  let m := foldl (fun m x => max64 m (f x)) m0 l in
  m0 ≤ m
  ∧ (∀ x, x ∈ l -> f x ≤ m)
  ∧ (m = m0 ∨ ∃ x, x ∈ l ∧ m = f x).
Proof.
  revert m0. induction l as [| y l IH]; intros m0; cbv zeta; simpl.
  - split; [lia |]. split; [| by left]. intros x Hx. by apply elem_of_nil in Hx.
  - destruct (IH (max64 m0 (f y))) as (Hge & Hall & Hex).
    set (m := foldl _ _ l) in *.
    rewrite max64_max in Hge, Hex.
    split; [lia |]. split.
    + intros x [-> | Hx]%elem_of_cons; [lia | by apply Hall].
    + destruct Hex as [-> | (x & Hx & ->)].
      * destruct (Z.max_spec m0 (f y)) as [[_ ->] | [_ ->]].
        -- right. exists y. split; [apply list_elem_of_here | done].
        -- by left.
      * right. exists x. split; [by apply list_elem_of_further | done].
Qed.

(** The sum of a list that is zero except for [a] at position [S]. *)
Lemma Zsum_single (n S : nat) (a : Z) :
  Zsum ((fun p => if decide (p = S) then a else 0) <$> seq 0 n)
  = if decide (S < n)%nat then a else 0.
Proof.
  assert (Hgen : ∀ k, Zsum ((fun p => if decide (p = S) then a else 0) <$> seq k n)
                      = if decide (k ≤ S < k + n)%nat then a else 0).
  { induction n as [| n IH]; intros k; simpl.
    - rewrite decide_False by lia. done.
    - rewrite IH.
      repeat case_decide; lia. }
  rewrite Hgen. repeat case_decide; lia.
Qed.

Lemma Zsum_add {A} (f g : A -> Z) (l : list A) :
  Zsum ((fun x => f x + g x) <$> l) = Zsum (f <$> l) + Zsum (g <$> l).
Proof.
  unfold Zsum. induction l as [| x l IH]; [done |].
  rewrite !fmap_cons. cbn [foldr]. rewrite IH. lia.
Qed.

(** A list read by position. *)
Lemma fmap_by_position {A B} (d : A) (f : A -> B) (l : list A) :
  f <$> l = (fun p => f (default d (l !! p))) <$> seq 0 (length l).
Proof.
  apply list_eq. intros i. rewrite !list_lookup_fmap.
  destruct (l !! i) as [x |] eqn:Hi; simpl.
  - rewrite lookup_seq_lt by (by eapply lookup_lt_Some). simpl. by rewrite Hi.
  - rewrite lookup_seq_ge; [done |]. by apply lookup_ge_None.
Qed.

(** ** The max policy *)

Section MaxClaims.
Context `{stats_h}.

Lemma binSum_sum (router : McrouterInstanceBase) (idx j : nat) :
  binSum router idx j
  = wrap64 (Zsum ((fun proxy => bin_at proxy idx j) <$> proxies router)).
Proof.
  unfold binSum. rewrite (foldl_add64 (fun proxy => bin_at proxy idx j)).
  - done.
  - unfold two64. lia.
Qed.

(** The bin sums when one shard holds [a] in bin [j1], one holds [b] in bin
    [j2], and every other bin of every shard is empty. *)
Lemma binSum_two_records (router : McrouterInstanceBase) (idx : nat)
    (S T j1 j2 : nat) (a b : Z) (j : nat) :
  (S < num_proxies router)%nat ->
  (T < num_proxies router)%nat ->
  j ∈ used_bins router ->
  (∀ p proxy j, proxies router !! p = Some proxy -> j ∈ used_bins router ->
     bin_at proxy idx j
     = (if decide (p = S ∧ j = j1) then a else 0)
       + (if decide (p = T ∧ j = j2) then b else 0)) ->
  binSum router idx j
  = wrap64 ((if decide (j = j1) then a else 0) + (if decide (j = j2) then b else 0)).
Proof.
  intros HS HT Hj Hbins. rewrite binSum_sum. f_equal.
  destruct (lookup_lt_is_Some_2 (proxies router) S HS) as [d _].
  rewrite (fmap_by_position d).
  fold (num_proxies router).
  transitivity
    (Zsum ((fun p => (if decide (p = S ∧ j = j1) then a else 0)
                     + (if decide (p = T ∧ j = j2) then b else 0))
             <$> seq 0 (num_proxies router))).
  { f_equal. apply Forall_fmap_ext, Forall_forall. intros p Hp.
    apply elem_of_seq in Hp.
    destruct (lookup_lt_is_Some_2 (proxies router) p) as [proxy Hproxy];
      [unfold num_proxies in Hp; lia |].
    rewrite Hproxy. simpl. by apply Hbins. }
  rewrite (Zsum_add (fun p => if decide (p = S ∧ j = j1) then a else 0)
             (fun p => if decide (p = T ∧ j = j2) then b else 0)).
  f_equal.
  - destruct (decide (j = j1)) as [-> | Hne].
    + transitivity (Zsum ((fun p => if decide (p = S) then a else 0)
                            <$> seq 0 (num_proxies router))).
      { f_equal. apply Forall_fmap_ext, Forall_forall. intros p _.
        repeat case_decide; (done || tauto). }
      rewrite Zsum_single. by rewrite decide_True.
    + transitivity (Zsum ((fun p => if decide (p = S) then 0 else 0)
                            <$> seq 0 (num_proxies router))).
      { f_equal. apply Forall_fmap_ext, Forall_forall. intros p _.
        repeat case_decide; (done || tauto). }
      rewrite Zsum_single. by case_decide.
  - destruct (decide (j = j2)) as [-> | Hne].
    + transitivity (Zsum ((fun p => if decide (p = T) then b else 0)
                            <$> seq 0 (num_proxies router))).
      { f_equal. apply Forall_fmap_ext, Forall_forall. intros p _.
        repeat case_decide; (done || tauto). }
      rewrite Zsum_single. by rewrite decide_True.
    + transitivity (Zsum ((fun p => if decide (p = T) then 0 else 0)
                            <$> seq 0 (num_proxies router))).
      { f_equal. apply Forall_fmap_ext, Forall_forall. intros p _.
        repeat case_decide; (done || tauto). }
      rewrite Zsum_single. by case_decide.
Qed.

(** C2, as the code has it.  The aggregated max of a slot is the largest,
    over the used bins, of the bin's total across the shards (modulo 2^64):
    it bounds every bin total and is one of them, or zero.  With [a] recorded
    in bin [j1] of one shard, [b > a] in bin [j2] of another and nothing
    else, it is [b] when the two bins differ and [a + b] when they are the
    same bin. *)
Theorem stats_aggregate_max_value_bin_sums (router : McrouterInstanceBase)
    (idx : nat) :
  let m := stats_aggregate_max_value router idx in
  (∀ j, j ∈ used_bins router -> binSum router idx j ≤ m)
  ∧ (m = 0 ∨ ∃ j, j ∈ used_bins router ∧ m = binSum router idx j)
  ∧ (∀ j, binSum router idx j
          = wrap64 (Zsum ((fun proxy => bin_at proxy idx j) <$> proxies router)))
  ∧ (∀ (S T j1 j2 : nat) (a b : Z),
       (S < num_proxies router)%nat ->
       (T < num_proxies router)%nat ->
       j1 ∈ used_bins router ->
       j2 ∈ used_bins router ->
       0 ≤ a < b ->
       b < two64 ->
       (∀ p proxy j, proxies router !! p = Some proxy -> j ∈ used_bins router ->
          bin_at proxy idx j
          = (if decide (p = S ∧ j = j1) then a else 0)
            + (if decide (p = T ∧ j = j2) then b else 0)) ->
       m = if decide (j1 = j2) then wrap64 (a + b) else b).
Proof.
  intros m.
  destruct (foldl_max64 (binSum router idx) (used_bins router) 0)
    as (Hge & Hall & Hex).
  fold (stats_aggregate_max_value router idx) in Hge, Hall, Hex.
  fold m in Hge, Hall, Hex.
  split; [exact Hall |]. split; [exact Hex |]. split; [apply binSum_sum |].
  intros S T j1 j2 a b HS HT Hj1 Hj2 Hab Hb Hbins.
  assert (Hsum : ∀ j, j ∈ used_bins router ->
            binSum router idx j
            = wrap64 ((if decide (j = j1) then a else 0)
                      + (if decide (j = j2) then b else 0))).
  { intros j Hj. by apply binSum_two_records with S T. }
  pose proof (Hall j2 Hj2) as Hlow. rewrite (Hsum j2 Hj2) in Hlow.
  destruct (decide (j1 = j2)) as [-> | Hne].
  - rewrite !decide_True in Hlow by done.
    pose proof (wrap64_range (a + b)) as Hrange.
    destruct Hex as [Hm | (j & Hj & Hm)]; [lia |].
    rewrite (Hsum j Hj) in Hm.
    destruct (decide (j = j2)) as [-> | Hj'].
    + by rewrite Hm.
    + rewrite wrap64_small in Hm by (pose proof two64_pos; lia). lia.
  - rewrite decide_False, decide_True in Hlow by done.
    rewrite wrap64_small in Hlow by lia.
    destruct Hex as [Hm | (j & Hj & Hm)]; [lia |].
    rewrite (Hsum j Hj) in Hm.
    destruct (decide (j = j1)) as [Hj1' | Hj1'];
      destruct (decide (j = j2)) as [Hj2' | Hj2'];
      try congruence;
      rewrite wrap64_small in Hm by (pose proof two64_pos; lia); lia.
Qed.

End MaxClaims.

(** ** Knockout flags of a destination seen from several shards *)

Section KnockoutClaims.
Context `{mc_res_h}.

Lemma collect_server_stats_visits (router : McrouterInstanceBase) :
  collect_server_stats router = fold_visits ∅ (visits router).
Proof.
  unfold collect_server_stats, visits, fold_visits.
  generalize (∅ : gmap string ServerStat).
  induction (proxies router) as [| proxy prs IH]; intros m; [done |].
  rewrite bind_cons, foldl_app. simpl. by rewrite IH.
Qed.

Lemma visit_destination_same serverStats key pdstn :
  ∃ stat, visit_destination serverStats key pdstn !! key = Some stat
          ∧ isHardTko stat = tracker_isHardTko pdstn
          ∧ isSoftTko stat = tracker_isSoftTko pdstn.
Proof.
  unfold visit_destination. rewrite lookup_insert_eq. by eexists.
Qed.

Lemma visit_destination_other serverStats key key' pdstn :
  key ≠ key' ->
  visit_destination serverStats key pdstn !! key' = serverStats !! key'.
Proof. intros Hne. unfold visit_destination. by rewrite lookup_insert_ne. Qed.

(** After a run of visits an entry carries the flags of the last visit of
    its key. *)
Lemma fold_visits_last serverStats l key pdstn :
  last (filter (fun kd => kd.1 = key) l).*2 = Some pdstn ->
  ∃ stat, fold_visits serverStats l !! key = Some stat
          ∧ isHardTko stat = tracker_isHardTko pdstn
          ∧ isSoftTko stat = tracker_isSoftTko pdstn.
Proof.
  induction l as [| [key' pdstn'] l IH] using rev_ind; [done |].
  unfold fold_visits. rewrite foldl_app. simpl.
  fold (fold_visits serverStats l).
  rewrite filter_app, fmap_app.
  destruct (decide (key' = key)) as [-> | Hne].
  - rewrite filter_cons_True by done. simpl.
    rewrite last_snoc. intros [= ->]. apply visit_destination_same.
  - rewrite filter_cons_False by done. simpl. rewrite app_nil_r.
    intros Hlast. rewrite visit_destination_other by done. by apply IH.
Qed.

Lemma or_reduced_last (flag : ProxyDestination -> bool) views pdstn :
  last views = Some pdstn ->
  flag pdstn = or_reduced flag views
  ↔ flag pdstn = true ∨ or_reduced flag views = false.
Proof.
  intros Hlast. unfold or_reduced.
  assert (Hin : flag pdstn = true -> existsb flag views = true).
  { intros Hflag. apply existsb_exists. exists pdstn. split; [| done].
    apply list_elem_of_In. by apply last_Some_elem_of. }
  destruct (flag pdstn).
  - rewrite Hin by done. split; [by left | done].
  - split; [intros Heq; by right |].
    intros [Hf | Hex]; [done | by rewrite Hex].
Qed.

(** C1, as the code has it.  For a destination some shard holds, the
    aggregated entry exists and each knockout flag is the view of the last
    shard visited (the flags are assigned, not accumulated); so a flag
    equals the OR of the shards' views exactly when that last view is set or
    no view is set, in particular whenever the shards agree. *)
Theorem server_stats_knockout_flags (router : McrouterInstanceBase)
    (key : string) (pdstn : ProxyDestination) :
  let views := shard_views router key in
  last views = Some pdstn ->
  ∃ stat,
    collect_server_stats router !! key = Some stat
    ∧ isHardTko stat = tracker_isHardTko pdstn
    ∧ isSoftTko stat = tracker_isSoftTko pdstn
    ∧ (isHardTko stat = or_reduced tracker_isHardTko views
       ↔ tracker_isHardTko pdstn = true
         ∨ or_reduced tracker_isHardTko views = false)
    ∧ (isSoftTko stat = or_reduced tracker_isSoftTko views
       ↔ tracker_isSoftTko pdstn = true
         ∨ or_reduced tracker_isSoftTko views = false)
    ∧ (Forall (fun v => tracker_isHardTko v = tracker_isHardTko pdstn) views ->
       isHardTko stat = or_reduced tracker_isHardTko views)
    ∧ (Forall (fun v => tracker_isSoftTko v = tracker_isSoftTko pdstn) views ->
       isSoftTko stat = or_reduced tracker_isSoftTko views).
Proof.
  intros views Hlast.
  destruct (fold_visits_last ∅ (visits router) key pdstn Hlast)
    as (stat & Hstat & Hhard & Hsoft).
  exists stat. rewrite collect_server_stats_visits.
  split; [done |]. split; [done |]. split; [done |].
  rewrite Hhard, Hsoft.
  assert (Hagree : ∀ flag : ProxyDestination -> bool,
            Forall (fun v => flag v = flag pdstn) views ->
            flag pdstn = or_reduced flag views).
  { intros flag Hall. apply or_reduced_last; [done |].
    destruct (flag pdstn) eqn:Hflag; [by left | right].
    unfold or_reduced. apply not_true_is_false. intros Hex.
    apply existsb_exists in Hex as (v & Hv & Hset).
    apply list_elem_of_In in Hv.
    rewrite Forall_forall in Hall. specialize (Hall v Hv). congruence. }
  split; [by apply or_reduced_last |].
  split; [by apply or_reduced_last |].
  split; [apply Hagree | apply Hagree].
Qed.

End KnockoutClaims.

(** ** The snapshot: which slots each stage writes *)

Lemma same_layout_refl stats : same_layout stats stats.
Proof. by split. Qed.

Lemma stat_write_meta stats idx d j :
  meta (stat_at (stat_write stats idx d) j) = meta (stat_at stats j).
Proof.
  destruct (decide (idx = j)) as [-> | Hne].
  - destruct (decide (j < length stats)%nat) as [Hlt | Hge].
    + by rewrite stat_at_write_eq.
    + unfold stat_write. rewrite list_insert_ge by lia. done.
  - by rewrite stat_at_write_ne.
Qed.

Lemma same_layout_write before after idx d :
  same_layout before after -> same_layout before (stat_write after idx d).
Proof.
  intros [Hlen Hmeta]. split.
  - by rewrite stat_write_length.
  - intros j. by rewrite stat_write_meta.
Qed.

Lemma untouched_refl written stats : untouched written stats stats.
Proof. by intros j _. Qed.

Lemma untouched_write written before after idx d :
  untouched written before after ->
  idx ∈ written ->
  untouched written before (stat_write after idx d).
Proof.
  intros Hun Hidx j Hj. rewrite stat_at_write_ne; [by apply Hun |].
  intros ->. contradiction.
Qed.

Lemma untouched_more written written' before after :
  untouched written before after ->
  written ⊆ written' ->
  untouched written' before after.
Proof. intros Hun Hsub j Hj. apply Hun. intros Hin. by apply Hj, Hsub. Qed.

Lemma untouched_trans written s1 s2 s3 :
  untouched written s1 s2 -> untouched written s2 s3 -> untouched written s1 s3.
Proof. intros H12 H23 j Hj. rewrite H23 by done. by apply H12. Qed.

Lemma same_layout_trans s1 s2 s3 :
  same_layout s1 s2 -> same_layout s2 s3 -> same_layout s1 s3.
Proof.
  intros [Hl12 Hm12] [Hl23 Hm23]. split; [congruence |].
  intros j. by rewrite Hm23.
Qed.

(** Membership in an explicit list of slots. *)
Ltac slot_listed := repeat first [apply list_elem_of_here | apply list_elem_of_further].

(** A stage built from assignments keeps the layout, and leaves alone the
    slots it does not name. *)
Ltac layout_of_writes :=
  repeat first [apply same_layout_write | apply same_layout_refl].

Ltac untouched_by_writes :=
  repeat first
    [ apply untouched_refl
    | apply untouched_write; [| slot_listed] ].

Section Stages.
Context `{stats_h} `{stat_list_h}.

Lemma derived_ratio_stats_layout router stats :
  same_layout stats (derived_ratio_stats router stats).
Proof.
  unfold derived_ratio_stats. cbv zeta.
  repeat match goal with |- context [if ?c then _ else _] => destruct c end;
    layout_of_writes.
Qed.

Lemma derived_ratio_stats_untouched router stats :
  untouched derived_slots stats (derived_ratio_stats router stats).
Proof.
  unfold derived_ratio_stats, derived_slots. cbv zeta.
  repeat match goal with |- context [if ?c then _ else _] => destruct c end;
    untouched_by_writes.
Qed.

Lemma process_wide_stats_layout router env stats :
  same_layout stats (process_wide_stats router env stats).
Proof. unfold process_wide_stats. cbv zeta. layout_of_writes. Qed.

Lemma process_wide_stats_untouched router env stats :
  untouched process_slots stats (process_wide_stats router env stats).
Proof.
  unfold process_wide_stats, process_slots. cbv zeta. untouched_by_writes.
Qed.

Lemma proc_stat_stats_layout env stats :
  same_layout stats (proc_stat_stats env stats).
Proof. unfold proc_stat_stats. cbv zeta. layout_of_writes. Qed.

Lemma proc_stat_stats_untouched env stats :
  untouched ps_slots stats (proc_stat_stats env stats).
Proof. unfold proc_stat_stats, ps_slots. cbv zeta. untouched_by_writes. Qed.

Lemma fibers_step_layout stats pr : same_layout stats (fibers_step stats pr).
Proof. unfold fibers_step. cbv zeta. layout_of_writes. Qed.

Lemma fibers_step_untouched stats pr :
  untouched fiber_slots stats (fibers_step stats pr).
Proof. unfold fibers_step, fiber_slots. cbv zeta. untouched_by_writes. Qed.

Lemma fibers_loop_layout stats prs :
  same_layout stats (foldl fibers_step stats prs).
Proof.
  revert stats. induction prs as [| pr prs IH]; intros stats; simpl.
  - apply same_layout_refl.
  - eapply same_layout_trans; [apply fibers_step_layout | apply IH].
Qed.

Lemma fibers_loop_untouched stats prs :
  untouched fiber_slots stats (foldl fibers_step stats prs).
Proof.
  revert stats. induction prs as [| pr prs IH]; intros stats; simpl.
  - apply untouched_refl.
  - eapply untouched_trans; [apply fibers_step_untouched | apply IH].
Qed.

Lemma fiber_stats_layout router stats :
  same_layout stats (fiber_stats router stats).
Proof.
  unfold fiber_stats. cbv zeta.
  destruct (0 <? num_proxies router)%nat.
  - do 2 apply same_layout_write.
    eapply same_layout_trans; [| apply fibers_loop_layout]. layout_of_writes.
  - eapply same_layout_trans; [| apply fibers_loop_layout]. layout_of_writes.
Qed.

Lemma fiber_stats_untouched router stats :
  untouched fiber_slots stats (fiber_stats router stats).
Proof.
  unfold fiber_stats. cbv zeta.
  assert (Hloop : ∀ s, untouched fiber_slots stats s ->
                       untouched fiber_slots stats
                         (foldl fibers_step s (proxies router))).
  { intros s Hs. eapply untouched_trans; [exact Hs | apply fibers_loop_untouched]. }
  destruct (0 <? num_proxies router)%nat.
  - apply untouched_write; [| unfold fiber_slots; slot_listed].
    apply untouched_write; [| unfold fiber_slots; slot_listed].
    apply Hloop. unfold fiber_slots. untouched_by_writes.
  - apply Hloop. unfold fiber_slots. untouched_by_writes.
Qed.

Lemma prepare_process_stats_layout router env stats :
  same_layout stats (prepare_process_stats router env stats).
Proof.
  unfold prepare_process_stats. cbv zeta.
  eapply same_layout_trans; [apply derived_ratio_stats_layout |].
  eapply same_layout_trans; [apply process_wide_stats_layout |].
  eapply same_layout_trans; [apply proc_stat_stats_layout |].
  apply fiber_stats_layout.
Qed.

Lemma prepare_process_stats_untouched router env stats :
  untouched (derived_slots ++ process_slots ++ ps_slots ++ fiber_slots)
    stats (prepare_process_stats router env stats).
Proof.
  unfold prepare_process_stats. cbv zeta.
  eapply untouched_trans.
  { eapply untouched_more; [apply derived_ratio_stats_untouched |].
    intros j Hj. rewrite !elem_of_app. tauto. }
  eapply untouched_trans.
  { eapply untouched_more; [apply process_wide_stats_untouched |].
    intros j Hj. rewrite !elem_of_app. tauto. }
  eapply untouched_trans.
  { eapply untouched_more; [apply proc_stat_stats_untouched |].
    intros j Hj. rewrite !elem_of_app. tauto. }
  eapply untouched_more; [apply fiber_stats_untouched |].
  intros j Hj. rewrite !elem_of_app. tauto.
Qed.

End Stages.

(** ** The aggregation loop *)

Section Aggregation.
Context `{stats_h} `{stat_list_h}.

Lemma sum_policy_meta stat stat' :
  meta stat' = meta stat -> sum_policy stat' = sum_policy stat.
Proof. unfold meta, sum_policy. by intros [= _ -> _ ->]. Qed.

(** The inner loop runs to its end on a numeric slot, and keeps the slot's
    metadata. *)
Lemma aggregate_slot_total i stat prs :
  type stat ≠ stat_string ->
  ∃ stat', aggregate_slot i stat prs = Some stat' ∧ meta stat' = meta stat.
Proof.
  revert stat. induction prs as [| pr prs IH]; intros stat Htype; simpl.
  - by exists stat.
  - unfold aggregate_step.
    destruct (type stat) eqn:Hty; [done | | |];
      (edestruct IH as (stat' & -> & Hmeta);
       [ by (simpl; rewrite Hty)
       | exists stat'; split; [done |];
         rewrite Hmeta; unfold meta; simpl; done ]).
Qed.

(** On an unsigned slot the inner loop adds the proxies' values. *)
Lemma aggregate_slot_uint64 i stat prs :
  type stat = stat_uint64 ->
  ∃ stat', aggregate_slot i stat prs = Some stat'
    ∧ get_uint64 (data stat')
      = foldl (fun acc pr => add64 acc (stat_get_uint64 (stats pr) i))
          (get_uint64 (data stat)) prs.
Proof.
  revert stat. induction prs as [| pr prs IH]; intros stat Htype; simpl.
  - by exists stat.
  - unfold aggregate_step. rewrite Htype.
    edestruct IH as (stat' & -> & Hval); [by simpl |].
    exists stat'. split; [done |]. by rewrite Hval.
Qed.

(** On a signed slot it adds them as [int64_t], on a double slot as
    [double], shard after shard. *)
Lemma aggregate_slot_int64 i stat prs :
  type stat = stat_int64 ->
  ∃ stat', aggregate_slot i stat prs = Some stat'
    ∧ get_int64 (data stat')
      = foldl (fun acc pr => sadd64 acc (stat_get_int64 (stats pr) i))
          (get_int64 (data stat)) prs.
Proof.
  revert stat. induction prs as [| pr prs IH]; intros stat Htype; simpl.
  - by exists stat.
  - unfold aggregate_step. rewrite Htype.
    edestruct IH as (stat' & -> & Hval); [by simpl |].
    exists stat'. split; [done |]. by rewrite Hval.
Qed.

Lemma aggregate_slot_double i stat prs :
  type stat = stat_double ->
  ∃ stat', aggregate_slot i stat prs = Some stat'
    ∧ get_dbl (data stat')
      = foldl (fun acc pr => Double.add acc (stat_get_dbl (stats pr) i))
          (get_dbl (data stat)) prs.
Proof.
  revert stat. induction prs as [| pr prs IH]; intros stat Htype; simpl.
  - by exists stat.
  - unfold aggregate_step. rewrite Htype.
    edestruct IH as (stat' & -> & Hval); [by simpl |].
    exists stat'. split; [done |]. by rewrite Hval.
Qed.

(** The loop over the slots: it runs to its end when every slot it
    aggregates is numeric; the slots keep their layout, a slot outside
    [slots] keeps its value, and a slot of [slots] ends as the inner loop
    leaves it. *)
Lemma aggregate_loop_spec router slots stats :
  NoDup slots ->
  (∀ i, i ∈ slots -> sum_policy (stat_at stats i) = true ->
        type (stat_at stats i) ≠ stat_string) ->
  ∃ stats',
    aggregate_loop router slots stats = Some stats'
    ∧ same_layout stats stats'
    ∧ (∀ j, j ∉ slots -> stat_at stats' j = stat_at stats j)
    ∧ (∀ i, i ∈ slots -> (i < length stats)%nat ->
         if sum_policy (stat_at stats i)
         then aggregate_slot i (stat_at stats i) (proxies router)
              = Some (stat_at stats' i)
         else stat_at stats' i = stat_at stats i).
Proof.
  revert stats. induction slots as [| i slots IH]; intros stats Hnd Hnum.
  { exists stats. split; [done |]. split; [apply same_layout_refl |].
    split; [done |]. intros i Hi. by apply elem_of_nil in Hi. }
  apply NoDup_cons in Hnd as [Hi Hnd].
  simpl. fold (sum_policy (stat_at stats i)).
  destruct (sum_policy (stat_at stats i)) eqn:Hpol.
  - destruct (aggregate_slot_total i (stat_at stats i) (proxies router))
      as (stat' & Hagg & Hmeta).
    { apply Hnum; [apply list_elem_of_here | done]. }
    rewrite Hagg.
    assert (Hlayout : same_layout stats (<[i := stat']> stats)).
    { split; [apply length_insert |]. intros j. unfold stat_at.
      destruct (decide (i = j)) as [<- | Hne].
      - destruct (decide (i < length stats)%nat).
        + by rewrite list_lookup_insert_eq.
        + by rewrite list_insert_ge by lia.
      - by rewrite list_lookup_insert_ne. }
    destruct (IH (<[i := stat']> stats) Hnd) as (stats' & Hloop & Hlay & Hout & Hin).
    { intros j Hj Hpolj.
      destruct Hlayout as [_ Hm]. specialize (Hm j).
      rewrite (sum_policy_meta _ _ Hm) in Hpolj.
      injection Hm as _ _ -> _. apply Hnum; [by apply list_elem_of_further | done]. }
    exists stats'. split; [done |].
    split; [by eapply same_layout_trans |].
    split.
    + intros j [Hji Hj]%not_elem_of_cons. rewrite Hout by done.
      unfold stat_at. by rewrite list_lookup_insert_ne.
    + intros j [-> | Hj]%elem_of_cons Hlt.
      * rewrite Hpol, Hout by done. rewrite Hagg. f_equal.
        unfold stat_at. by rewrite list_lookup_insert_eq.
      * assert (i ≠ j) by (intros ->; contradiction).
        specialize (Hin j Hj). rewrite length_insert in Hin.
        specialize (Hin Hlt).
        assert (Hsame : stat_at (<[i := stat']> stats) j = stat_at stats j).
        { unfold stat_at. by rewrite list_lookup_insert_ne. }
        by rewrite Hsame in Hin.
  - destruct (IH stats Hnd) as (stats' & Hloop & Hlay & Hout & Hin).
    { intros j Hj. apply Hnum. by apply list_elem_of_further. }
    exists stats'. split; [done |]. split; [done |].
    split.
    + intros j [Hji Hj]%not_elem_of_cons. by apply Hout.
    + intros j [-> | Hj]%elem_of_cons Hlt.
      * rewrite Hpol. by apply Hout.
      * by apply Hin.
Qed.

End Aggregation.

(** ** The sum policy *)

Lemma Zsum_alter_add64 {A} (f : A -> Z) (g : A -> A) (k : Z) (l : list A)
    (S : nat) (c : Z) :
  (S < length l)%nat ->
  (∀ x, l !! S = Some x -> f (g x) = add64 (f x) k) ->
  wrap64 (c + Zsum (f <$> alter g S l)) = wrap64 (c + Zsum (f <$> l) + k).
Proof.
  revert S c. induction l as [| x l IH]; intros S c Hlt Hfg; simpl in Hlt; [lia |].
  destruct S as [| S].
  - change (alter g 0%nat (x :: l)) with (g x :: l).
    rewrite !fmap_cons.
    change (Zsum (f (g x) :: (f <$> l))) with (f (g x) + Zsum (f <$> l)).
    change (Zsum (f x :: (f <$> l))) with (f x + Zsum (f <$> l)).
    rewrite (Hfg x) by done. unfold add64.
    replace (c + (wrap64 (f x + k) + Zsum (f <$> l)))
      with (wrap64 (f x + k) + (c + Zsum (f <$> l))) by lia.
    rewrite wrap64_add_l. f_equal. lia.
  - change (alter g (Datatypes.S S) (x :: l)) with (x :: alter g S l).
    rewrite !fmap_cons.
    change (Zsum (f x :: (f <$> alter g S l))) with (f x + Zsum (f <$> alter g S l)).
    change (Zsum (f x :: (f <$> l))) with (f x + Zsum (f <$> l)).
    replace (c + (f x + Zsum (f <$> alter g S l)))
      with ((c + f x) + Zsum (f <$> alter g S l)) by lia.
    rewrite IH; [f_equal; lia | lia |].
    intros y Hy. by apply Hfg.
Qed.

Section SumClaims.
Context `{stats_h} `{stat_list_h}.

Lemma before_aggregation_layout router env :
  same_layout stat_list (before_aggregation router env).
Proof.
  unfold before_aggregation, init_stats.
  eapply same_layout_trans; [| apply prepare_process_stats_layout].
  apply same_layout_write, same_layout_refl.
Qed.

Lemma before_aggregation_untouched router env :
  untouched assigned_slots stat_list (before_aggregation router env).
Proof.
  unfold before_aggregation, init_stats, assigned_slots.
  eapply untouched_trans.
  - apply untouched_write; [apply untouched_refl | apply list_elem_of_here].
  - eapply untouched_more; [apply prepare_process_stats_untouched |].
    intros j Hj. by apply list_elem_of_further.
Qed.

(** With a table that is in order, [prepare_stats] produces a snapshot: the
    result of the aggregation loop on [before_aggregation]. *)
Lemma prepare_stats_total router env :
  stat_list_ok ->
  ∃ snapshot,
    prepare_stats router env = Some snapshot
    ∧ same_layout stat_list snapshot
    ∧ ∀ i, (i < num_stats)%nat ->
        if sum_policy (stat_at stat_list i)
        then aggregate_slot i (stat_at (before_aggregation router env) i)
               (proxies router)
             = Some (stat_at snapshot i)
        else stat_at snapshot i = stat_at (before_aggregation router env) i.
Proof.
  intros [Hsuspect Hnumeric].
  pose proof (before_aggregation_layout router env) as [Hlen Hmeta].
  assert (Hpol : ∀ i, sum_policy (stat_at (before_aggregation router env) i)
                      = sum_policy (stat_at stat_list i)).
  { intros i. apply sum_policy_meta, Hmeta. }
  destruct (aggregate_loop_spec router (seq 0 num_stats)
              (before_aggregation router env))
    as (snapshot & Hloop & Hlay & _ & Hin).
  { apply NoDup_seq. }
  { intros i Hi Hsum. rewrite Hpol in Hsum. apply elem_of_seq in Hi.
    specialize (Hmeta i). injection Hmeta as _ _ -> _.
    destruct (lookup_lt_is_Some_2 stat_list i) as [stat Hstat];
      [unfold num_stats in Hi; lia |].
    rewrite Forall_lookup in Hnumeric. specialize (Hnumeric i stat Hstat).
    unfold stat_at in Hsum |- *. rewrite Hstat in Hsum |- *. by apply Hnumeric. }
  exists snapshot. split; [| split].
  - unfold prepare_stats, stat_set_uint64, init_stats.
    rewrite decide_True by done. exact Hloop.
  - eapply same_layout_trans; [| exact Hlay]. by split.
  - intros i Hi. rewrite <- Hpol. apply Hin.
    + apply elem_of_seq. lia.
    + rewrite Hlen. exact Hi.
Qed.

Lemma snapshot_uint64_sum router env slot :
  stat_list_ok ->
  (slot < num_stats)%nat ->
  sum_policy (stat_at stat_list slot) = true ->
  type (stat_at stat_list slot) = stat_uint64 ->
  0 ≤ stat_get_uint64 stat_list slot < two64 ->
  slot ∉ assigned_slots ->
  snapshot_uint64 router env slot
  = Some (wrap64 (stat_get_uint64 stat_list slot
                  + Zsum ((fun proxy => stat_get_uint64 (stats proxy) slot)
                            <$> proxies router))).
Proof.
  intros Hok Hslot Hpol Htype Hrange Hfree.
  destruct (prepare_stats_total router env Hok) as (snapshot & Hsnap & _ & Hin).
  specialize (Hin slot Hslot). rewrite Hpol in Hin.
  rewrite (before_aggregation_untouched router env slot Hfree) in Hin.
  destruct (aggregate_slot_uint64 slot (stat_at stat_list slot) (proxies router)
              Htype) as (stat' & Hagg & Hval).
  rewrite Hagg in Hin. injection Hin as ->.
  unfold snapshot_uint64. rewrite Hsnap. simpl. f_equal.
  unfold stat_get_uint64 at 1. rewrite Hval.
  by rewrite (foldl_add64 (fun proxy => stat_get_uint64 (stats proxy) slot)).
Qed.

Lemma snapshot_int64_sum router env slot :
  stat_list_ok ->
  (slot < num_stats)%nat ->
  sum_policy (stat_at stat_list slot) = true ->
  type (stat_at stat_list slot) = stat_int64 ->
  - 2 ^ 63 ≤ stat_get_int64 stat_list slot < 2 ^ 63 ->
  slot ∉ assigned_slots ->
  snapshot_int64 router env slot
  = Some (swrap64 (stat_get_int64 stat_list slot
                   + Zsum ((fun proxy => stat_get_int64 (stats proxy) slot)
                             <$> proxies router))).
Proof.
  intros Hok Hslot Hpol Htype Hrange Hfree.
  destruct (prepare_stats_total router env Hok) as (snapshot & Hsnap & _ & Hin).
  specialize (Hin slot Hslot). rewrite Hpol in Hin.
  rewrite (before_aggregation_untouched router env slot Hfree) in Hin.
  destruct (aggregate_slot_int64 slot (stat_at stat_list slot) (proxies router)
              Htype) as (stat' & Hagg & Hval).
  rewrite Hagg in Hin. injection Hin as ->.
  unfold snapshot_int64. rewrite Hsnap. simpl. f_equal.
  unfold stat_get_int64 at 1. rewrite Hval.
  by rewrite (foldl_sadd64 (fun proxy => stat_get_int64 (stats proxy) slot)).
Qed.

Lemma snapshot_dbl_sum router env slot :
  stat_list_ok ->
  (slot < num_stats)%nat ->
  sum_policy (stat_at stat_list slot) = true ->
  type (stat_at stat_list slot) = stat_double ->
  slot ∉ assigned_slots ->
  snapshot_dbl router env slot
  = Some (foldl (fun sum proxy => Double.add sum (stat_get_dbl (stats proxy) slot))
            (stat_get_dbl stat_list slot) (proxies router)).
Proof.
  intros Hok Hslot Hpol Htype Hfree.
  destruct (prepare_stats_total router env Hok) as (snapshot & Hsnap & _ & Hin).
  specialize (Hin slot Hslot). rewrite Hpol in Hin.
  rewrite (before_aggregation_untouched router env slot Hfree) in Hin.
  destruct (aggregate_slot_double slot (stat_at stat_list slot) (proxies router)
              Htype) as (stat' & Hagg & Hval).
  rewrite Hagg in Hin. injection Hin as ->.
  unfold snapshot_dbl. rewrite Hsnap. simpl. f_equal.
  unfold stat_get_dbl at 1. by rewrite Hval.
Qed.

(** C7.  With a table that lets [prepare_stats] run and puts none of the
    slots [prepare_stats] assigns itself under the sum policy, the snapshot
    of every slot under the sum policy holds the table's initial value plus
    the sum of the slot over the shards: modulo 2^64 for an unsigned slot,
    in two's complement for a signed one, as a chain of [double] additions
    in shard order for a double one.  For a counter (an unsigned slot),
    after shard [S] incremented it by [k] and shard [T] by [m] the snapshot
    holds [k + m] more. *)
Theorem prepare_stats_sum_policy (router : McrouterInstanceBase)
    (env : host_env) (slot : nat) :
  stat_list_ok ->
  assigned_not_summed ->
  (slot < num_stats)%nat ->
  sum_policy (stat_at stat_list slot) = true ->
  (type (stat_at stat_list slot) = stat_uint64 ->
   0 ≤ stat_get_uint64 stat_list slot < two64 ->
   let total :=
     stat_get_uint64 stat_list slot
     + Zsum ((fun proxy => stat_get_uint64 (stats proxy) slot)
               <$> proxies router) in
   snapshot_uint64 router env slot = Some (wrap64 total)
   ∧ ∀ (S T : nat) (k m : Z),
       (S < num_proxies router)%nat ->
       (T < num_proxies router)%nat ->
       Forall (fun proxy => (slot < length (stats proxy))%nat) (proxies router) ->
       snapshot_uint64 (stat_incr_on (stat_incr_on router S slot k) T slot m)
         env slot
       = Some (wrap64 (total + (k + m))))
  ∧ (type (stat_at stat_list slot) = stat_int64 ->
     - 2 ^ 63 ≤ stat_get_int64 stat_list slot < 2 ^ 63 ->
     snapshot_int64 router env slot
     = Some (swrap64 (stat_get_int64 stat_list slot
                      + Zsum ((fun proxy => stat_get_int64 (stats proxy) slot)
                                <$> proxies router))))
  ∧ (type (stat_at stat_list slot) = stat_double ->
     snapshot_dbl router env slot
     = Some (foldl
               (fun sum proxy => Double.add sum (stat_get_dbl (stats proxy) slot))
               (stat_get_dbl stat_list slot) (proxies router))).
Proof.
  intros Hok Hassigned Hslot Hpol.
  assert (Hfree : slot ∉ assigned_slots).
  { intros Hin. unfold assigned_not_summed in Hassigned.
    rewrite Forall_forall in Hassigned. specialize (Hassigned slot Hin).
    congruence. }
  split; [| split];
    [| intros; by apply snapshot_int64_sum | intros; by apply snapshot_dbl_sum].
  intros Htype Hrange total.
  split; [by apply snapshot_uint64_sum |].
  intros S T k m HS HT Hlen.
  rewrite snapshot_uint64_sum by done. f_equal.
  set (f := fun proxy => stat_get_uint64 (stats proxy) slot).
  set (g := fun a proxy => set_stats proxy (stat_incr (stats proxy) slot a)).
  assert (Hfg : ∀ a proxy, (slot < length (stats proxy))%nat ->
                  f (g a proxy) = add64 (f proxy) a).
  { intros a proxy Hp. unfold f, g. simpl. by apply stat_incr_get_eq. }
  change (proxies (stat_incr_on (stat_incr_on router S slot k) T slot m))
    with (alter (g m) T (alter (g k) S (proxies router))).
  rewrite (Zsum_alter_add64 f (g m) m).
  - rewrite <- wrap64_add_l. rewrite (Zsum_alter_add64 f (g k) k).
    + rewrite wrap64_add_l. subst total. f_equal. fold f. lia.
    + exact HS.
    + intros proxy Hproxy. apply Hfg.
      rewrite Forall_forall in Hlen. apply Hlen.
      by eapply list_elem_of_lookup_2.
  - by rewrite length_alter.
  - intros proxy Hproxy. apply Hfg.
    destruct (decide (S = T)) as [-> | Hne].
    + rewrite list_lookup_alter_eq in Hproxy.
      destruct (proxies router !! T) as [proxy0 |] eqn:HT0; [| done].
      injection Hproxy as <-. unfold g. simpl. rewrite stat_incr_length.
      rewrite Forall_forall in Hlen. apply Hlen.
      by eapply list_elem_of_lookup_2.
    + rewrite list_lookup_alter_ne in Hproxy by done.
      rewrite Forall_forall in Hlen. apply Hlen.
      by eapply list_elem_of_lookup_2.
Qed.

End SumClaims.

(** ** The process statistics when [/proc] cannot be read *)

Lemma get_proc_stat_failure (env : host_env) :
  proc_stat_unreadable env ->
  get_proc_stat env
  = (-1,
     {| num_minor_faults := scanned (scanned_fields env) 0 0;
        num_major_faults := scanned (scanned_fields env) 1 0;
        user_time_sec := Double.zero;
        system_time_sec := Double.zero;
        vsize := scanned (scanned_fields env) 4 0;
        rss := 0 |}).
Proof.
  unfold proc_stat_unreadable, get_proc_stat, scanned_fields.
  intros [-> | (conv & -> & Hlen)]; [done |]. simpl.
  assert (Hcount : (Z.of_nat (length (take 6 conv)) =? 6) = false).
  { rewrite length_take. apply Z.eqb_neq. lia. }
  by rewrite Hcount.
Qed.

Section ProcStatClaims.
Context `{stats_h} `{stat_list_h}.

Lemma proc_stat_stats_data env stats :
  NoDup ps_slots ->
  Forall (fun slot => (slot < length stats)%nat) ps_slots ->
  let ps_data := (get_proc_stat env).2 in
  let after := proc_stat_stats env stats in
  data (stat_at after ps_num_minor_faults_stat)
  = data_uint64 (num_minor_faults ps_data)
  ∧ data (stat_at after ps_num_major_faults_stat)
    = data_uint64 (num_major_faults ps_data)
  ∧ data (stat_at after ps_user_time_sec_stat) = data_dbl (user_time_sec ps_data)
  ∧ data (stat_at after ps_system_time_sec_stat)
    = data_dbl (system_time_sec ps_data)
  ∧ data (stat_at after ps_rss_stat) = data_uint64 (rss ps_data)
  ∧ data (stat_at after ps_vsize_stat) = data_uint64 (vsize ps_data).
Proof.
  unfold ps_slots. intros Hnd Hin.
  repeat (apply NoDup_cons in Hnd as [? Hnd]).
  repeat match goal with
         | Hni : _ ∉ _ :: _ |- _ => apply not_elem_of_cons in Hni as [? Hni]
         end.
  repeat (apply Forall_cons in Hin as [? Hin]).
  cbv zeta. unfold proc_stat_stats. cbv zeta.
  repeat split;
    rewrite ?stat_at_write_ne by done;
    rewrite stat_at_write_eq by (by rewrite ?stat_write_length);
    done.
Qed.

(** C10, as the code has it.  When [/proc/<pid>/stat] cannot be read,
    [get_proc_stat] reports failure, [prepare_stats] still produces a
    snapshot, and in it the two CPU times and the resident size are exactly
    zero; the two page-fault counts and the virtual size are what [fscanf]
    stored before it stopped, zero where it did not get that far, hence all
    zero when the file did not open or no field was converted. *)
Theorem prepare_stats_proc_stat_unreadable (router : McrouterInstanceBase)
    (env : host_env) :
  stat_list_ok ->
  NoDup (ps_slots ++ fiber_slots) ->
  Forall (fun slot => (slot < num_stats)%nat
                      ∧ aggregate (stat_at stat_list slot) = false) ps_slots ->
  proc_stat_unreadable env ->
  (get_proc_stat env).1 = -1
  ∧ ∃ snapshot,
      prepare_stats router env = Some snapshot
      ∧ data (stat_at snapshot ps_user_time_sec_stat) = data_dbl Double.zero
      ∧ data (stat_at snapshot ps_system_time_sec_stat) = data_dbl Double.zero
      ∧ data (stat_at snapshot ps_rss_stat) = data_uint64 0
      ∧ data (stat_at snapshot ps_num_minor_faults_stat)
        = data_uint64 (scanned (scanned_fields env) 0 0)
      ∧ data (stat_at snapshot ps_num_major_faults_stat)
        = data_uint64 (scanned (scanned_fields env) 1 0)
      ∧ data (stat_at snapshot ps_vsize_stat)
        = data_uint64 (scanned (scanned_fields env) 4 0)
      ∧ (scanned_fields env = [] ->
         data (stat_at snapshot ps_num_minor_faults_stat) = data_uint64 0
         ∧ data (stat_at snapshot ps_num_major_faults_stat) = data_uint64 0
         ∧ data (stat_at snapshot ps_vsize_stat) = data_uint64 0).
Proof.
  intros Hok Hnd Hps Hfail.
  pose proof (get_proc_stat_failure env Hfail) as Hget.
  split; [by rewrite Hget |].
  destruct (prepare_stats_total router env Hok) as (snapshot & Hsnap & _ & Hin).
  exists snapshot. split; [done |].
  (* the six slots are not aggregated, and the fiber stage leaves them alone *)
  assert (Hkeep : ∀ slot, slot ∈ ps_slots ->
            stat_at snapshot slot
            = stat_at (proc_stat_stats env
                         (process_wide_stats router env
                            (derived_ratio_stats router
                               (stat_write init_stats num_suspect_servers_stat
                                  (data_uint64 (suspectServersCount router))))))
                slot).
  { intros slot Hslot.
    rewrite Forall_forall in Hps. destruct (Hps slot Hslot) as [Hlt Hagg].
    specialize (Hin slot Hlt).
    unfold sum_policy in Hin. rewrite Hagg in Hin. simpl in Hin.
    rewrite Hin. unfold before_aggregation, prepare_process_stats. cbv zeta.
    apply fiber_stats_untouched.
    apply NoDup_app in Hnd as (_ & Hdisjoint & _). by apply Hdisjoint. }
  set (stats0 := process_wide_stats _ _ _) in Hkeep.
  assert (Hlen : length stats0 = num_stats).
  { subst stats0.
    destruct (process_wide_stats_layout router env
                (derived_ratio_stats router
                   (stat_write init_stats num_suspect_servers_stat
                      (data_uint64 (suspectServersCount router))))) as [-> _].
    destruct (derived_ratio_stats_layout router
                (stat_write init_stats num_suspect_servers_stat
                   (data_uint64 (suspectServersCount router)))) as [-> _].
    by rewrite stat_write_length. }
  destruct (proc_stat_stats_data env stats0)
    as (Hminor & Hmajor & Huser & Hsystem & Hrss & Hvsize).
  { by apply NoDup_app in Hnd as (? & _ & _). }
  { rewrite Hlen. eapply Forall_impl; [exact Hps |]. by intros slot [? _]. }
  rewrite Hget in Hminor, Hmajor, Huser, Hsystem, Hrss, Hvsize.
  simpl in Hminor, Hmajor, Huser, Hsystem, Hrss, Hvsize.
  rewrite !Hkeep by (unfold ps_slots; slot_listed).
  repeat (split; [done |]).
  intros Hnone. rewrite Hminor, Hmajor, Hvsize, Hnone. done.
Qed.

End ProcStatClaims.

(** * Further properties *)

(** ** The request context: validation and dispatch *)

Section StartProcessingFacts.
Context `{mc_res_h} `{stat_list_h} `{mc_key_h}.

(** What one [sendReply] adds to the trace: nothing, or the callback. *)
Lemma sendReply_trace w reply :
  trace (sendReply w reply) = trace w
  ∨ (recording (ctx w) = false ∧ replied_ (ctx w) = false
     ∧ trace (sendReply w reply)
       = trace w ++ [ev_callback (req_ (ctx w)) reply]).
Proof.
  destruct (recording (ctx w)) eqn:Hrec.
  { left. by rewrite sendReply_recording. }
  destruct (replied_ (ctx w)) eqn:Hrep.
  { left. by rewrite sendReply_replied. }
  right. by destruct (sendReply_first w reply Hrec Hrep) as [_ ->].
Qed.

(** [precheckRequest] either accepts and leaves the world alone, or rejects
    after one [sendReply]. *)
Lemma precheckRequest_cases w req :
  precheckRequest w req = (true, w)
  ∨ ∃ reply, precheckRequest w req = (false, sendReply w reply).
Proof.
  unfold precheckRequest, precheckKey.
  destruct (req_type req); try (by left); try (right; by eexists).
  - destruct (enable_flush_cmd (proxy w)); simpl; [by left |].
    right. by eexists.
  - case_decide; [by left |]. right. by eexists.
Qed.

(** X1.  A request that passes validation on a proxy that is not being
    destroyed is handed to [dispatchRequest] and nothing else happens: no
    reply, no counter, no deletion, the context unchanged. *)
Theorem startProcessing_dispatches (w : world) (req : Request) :
  (precheckRequest w req).1 = true ->
  being_destroyed (proxy w) = false ->
  startProcessing w req
  = {| ctx := ctx w; proxy := proxy w; trace := trace w ++ [ev_dispatch req] |}.
Proof.
  intros Hok Hup. unfold startProcessing.
  rewrite (precheckRequest_pair w req Hok). simpl. by rewrite Hup.
Qed.

(** X2.  Whatever the request and the state, [startProcessing] either
    dispatches the request, leaving the context and the proxy as they were,
    or it dispatches nothing, delivers at most one reply and ends by
    deleting the context; never both. *)
Theorem startProcessing_dispatch_or_delete (w : world) (req : Request) :
  let w' := startProcessing w req in
  ∃ evs,
    trace w' = trace w ++ evs
    ∧ ((evs = [ev_dispatch req] ∧ ctx w' = ctx w ∧ proxy w' = proxy w)
       ∨ (filter is_dispatch evs = []
          ∧ last evs = Some ev_delete
          ∧ (length (replies_of evs) ≤ 1)%nat)).
Proof.
  intros w'. subst w'. unfold startProcessing.
  destruct (precheckRequest_cases w req) as [-> | (reply & ->)]; simpl.
  - destruct (being_destroyed (proxy w)) eqn:Hdown.
    + set (w1 := log_error w _).
      destruct (sendReply_trace w1 (Reply_of mc_res_unknown))
        as [Htr | (_ & _ & Htr)];
        unfold delete_self; cbn [trace]; rewrite Htr;
        subst w1; unfold log_error; cbn [trace ctx];
        rewrite <- !app_assoc; simpl;
        eexists; (split; [reflexivity |]); right;
        (split; [reflexivity |]); (split; [reflexivity |]); simpl; lia.
    + exists [ev_dispatch req]. split; [done |]. by left.
  - destruct (sendReply_trace w reply) as [Htr | (_ & _ & Htr)];
      unfold delete_self; cbn [trace]; rewrite Htr;
      rewrite <- ?app_assoc; simpl;
      eexists; (split; [reflexivity |]); right;
      (split; [reflexivity |]); (split; [reflexivity |]); simpl; lia.
Qed.

(** X3.  A keyed request whose key is not valid is answered, on a context
    that is neither recording nor replied, by exactly one reply
    [mc_res_local_error] carrying the message of the key error; it is not
    dispatched and the context is deleted, whether or not the proxy is being
    destroyed. *)
Theorem startProcessing_invalid_key (w : world) (req : Request) :
  req_type req = McKeyedRequest ->
  isKeyValid (fullKey req) ≠ mc_req_err_valid ->
  req_ (ctx w) = Some req ->
  recording (ctx w) = false ->
  replied_ (ctx w) = false ->
  let w' := startProcessing w req in
  trace w'
  = trace w
    ++ [ev_callback (Some req)
          {| reply_result := mc_res_local_error;
             reply_message := mc_req_err_to_string (isKeyValid (fullKey req)) |};
        ev_delete]
  ∧ replied_ (ctx w') = true
  ∧ req_ (ctx w') = None.
Proof.
  intros Htype Hkey Hreq Hrec Hrep w'. subst w'.
  unfold startProcessing, precheckRequest, precheckKey. rewrite Htype.
  rewrite decide_False by done. simpl.
  set (reply := {| reply_result := _; reply_message := _ |}).
  destruct (sendReply_first w reply Hrec Hrep) as [Hctx Htrace].
  unfold delete_self. cbn [trace ctx]. rewrite Htrace, Hctx, Hreq.
  split; [by rewrite <- app_assoc |]. done.
Qed.

(** X4.  The two commands this process does not serve are never dispatched:
    a shutdown request is answered [mc_res_bad_command], a flush-regex
    request [mc_res_local_error] with ["Command not supported"], each exactly
    once on a context that is neither recording nor replied. *)
Theorem startProcessing_unsupported (w : world) (req : Request) :
  req_ (ctx w) = Some req ->
  recording (ctx w) = false ->
  replied_ (ctx w) = false ->
  (req_type req = McShutdownRequest ->
   trace (startProcessing w req)
   = trace w ++ [ev_callback (Some req) (Reply_of mc_res_bad_command); ev_delete])
  ∧ (req_type req = McFlushReRequest ->
     trace (startProcessing w req)
     = trace w
       ++ [ev_callback (Some req)
             {| reply_result := mc_res_local_error;
                reply_message := "Command not supported" |};
           ev_delete]).
Proof.
  intros Hreq Hrec Hrep.
  split; intros Htype; unfold startProcessing, precheckRequest;
    rewrite Htype; simpl;
    match goal with
    | |- context [sendReply w ?r] =>
      destruct (sendReply_first w r Hrec Hrep) as [_ Htrace]
    end;
    unfold delete_self; cbn [trace]; rewrite Htrace, Hreq;
    by rewrite <- app_assoc.
Qed.

(** X5.  A flush-all request is served only where the router option
    [enable_flush_cmd] is set: without it the request is answered
    [mc_res_local_error] with ["Command disabled"] and not dispatched; with
    it, on a proxy that is not being destroyed, it is dispatched. *)
Theorem startProcessing_flush_all (w : world) (req : Request) :
  req_type req = McFlushAllRequest ->
  (enable_flush_cmd (proxy w) = false ->
   req_ (ctx w) = Some req ->
   recording (ctx w) = false ->
   replied_ (ctx w) = false ->
   trace (startProcessing w req)
   = trace w
     ++ [ev_callback (Some req)
           {| reply_result := mc_res_local_error;
              reply_message := "Command disabled" |};
         ev_delete])
  ∧ (enable_flush_cmd (proxy w) = true ->
     being_destroyed (proxy w) = false ->
     trace (startProcessing w req) = trace w ++ [ev_dispatch req]).
Proof.
  intros Htype. split.
  - intros Hoff Hreq Hrec Hrep.
    unfold startProcessing, precheckRequest. rewrite Htype, Hoff. simpl.
    match goal with
    | |- context [sendReply w ?r] =>
      destruct (sendReply_first w r Hrec Hrep) as [_ Htrace]
    end.
    unfold delete_self. cbn [trace]. rewrite Htrace, Hreq.
    by rewrite <- app_assoc.
  - intros Hon Hup.
    unfold startProcessing, precheckRequest. rewrite Htype, Hon. simpl.
    by rewrite Hup.
Qed.

End StartProcessingFacts.

(** ** The outcome counters stay balanced *)

Lemma wrap64_shift a k : wrap64 (a + k * two64) = wrap64 a.
Proof. unfold wrap64. apply Z_mod_plus_full. Qed.

(** Adding one to the minuend and to one subtrahend, each modulo 2^64, does
    not change a difference modulo 2^64. *)
Lemma wrap64_balance a b c :
  wrap64 (add64 a 1 - add64 b 1 - c) = wrap64 (a - b - c)
  ∧ wrap64 (add64 a 1 - b - add64 c 1) = wrap64 (a - b - c).
Proof.
  unfold add64, wrap64, two64.
  rewrite (Z.mod_eq (a + 1)), (Z.mod_eq (b + 1)), (Z.mod_eq (c + 1)) by lia.
  split.
  - replace (a + 1 - 2 ^ 64 * ((a + 1) / 2 ^ 64)
             - (b + 1 - 2 ^ 64 * ((b + 1) / 2 ^ 64)) - c)
      with (a - b - c + ((b + 1) / 2 ^ 64 - (a + 1) / 2 ^ 64) * 2 ^ 64) by lia.
    apply Z_mod_plus_full.
  - replace (a + 1 - 2 ^ 64 * ((a + 1) / 2 ^ 64) - b
             - (c + 1 - 2 ^ 64 * ((c + 1) / 2 ^ 64)))
      with (a - b - c + ((c + 1) / 2 ^ 64 - (a + 1) / 2 ^ 64) * 2 ^ 64) by lia.
    apply Z_mod_plus_full.
Qed.

Section BalanceFacts.
Context `{mc_res_h} `{stats_h} `{stat_list_h} `{mc_key_h}.

(** The counters after an effective [sendReply]. *)
Lemma sendReply_stats w reply :
  stats (proxy (sendReply w reply)) = stats (proxy w)
  ∨ stats (proxy (sendReply w reply))
    = (let stats := stat_incr (stats (proxy w)) request_replied_stat 1 in
       let stats := stat_incr stats request_replied_count_stat 1 in
       if mc_res_is_err (reply_result reply) then
         stat_incr (stat_incr stats request_error_stat 1)
           request_error_count_stat 1
       else
         stat_incr (stat_incr stats request_success_stat 1)
           request_success_count_stat 1).
Proof.
  unfold sendReply.
  destruct (recording (ctx w)); [by left |].
  destruct (replied_ (ctx w)); [by left |].
  right. reflexivity.
Qed.

Lemma sendReply_unclassified w reply :
  NoDup request_slots ->
  Forall (fun slot => (slot < length (stats (proxy w)))%nat) request_slots ->
  unclassified_count (stats (proxy (sendReply w reply)))
  = unclassified_count (stats (proxy w))
  ∧ unclassified_rate (stats (proxy (sendReply w reply)))
    = unclassified_rate (stats (proxy w)).
Proof.
  intros Hnd Hin. unfold request_slots in *.
  repeat (apply NoDup_cons in Hnd as [? Hnd]).
  repeat match goal with
         | Hni : _ ∉ _ :: _ |- _ => apply not_elem_of_cons in Hni as [? Hni]
         end.
  repeat (apply Forall_cons in Hin as [? Hin]).
  destruct (sendReply_stats w reply) as [-> | ->]; [done |].
  cbv zeta. unfold unclassified_count, unclassified_rate.
  destruct (mc_res_is_err (reply_result reply));
    repeat (first
      [ rewrite stat_incr_get_ne by done
      | rewrite stat_incr_get_eq by (by rewrite ?stat_incr_length) ]);
    split; apply wrap64_balance.
Qed.

(** X6.  [sendReply] and [startProcessing] keep the outcome counters
    balanced: the replies counted as replied but neither as success nor as
    error, modulo 2^64, are as many after the call as before, in the
    cumulative counters and in those of the rate window. *)
Theorem request_counters_balanced (w : world) (reply : Reply) (req : Request) :
  NoDup request_slots ->
  Forall (fun slot => (slot < length (stats (proxy w)))%nat) request_slots ->
  let kept w' :=
    unclassified_count (stats (proxy w')) = unclassified_count (stats (proxy w))
    ∧ unclassified_rate (stats (proxy w')) = unclassified_rate (stats (proxy w)) in
  kept (sendReply w reply) ∧ kept (startProcessing w req).
Proof.
  intros Hnd Hin kept. subst kept. cbv beta.
  split; [by apply sendReply_unclassified |].
  unfold startProcessing.
  destruct (precheckRequest_cases w req) as [-> | (reply' & ->)]; simpl.
  - destruct (being_destroyed (proxy w)); [| done].
    unfold delete_self. cbn [proxy].
    by apply (sendReply_unclassified (log_error w _)).
  - unfold delete_self. cbn [proxy]. by apply sendReply_unclassified.
Qed.

End BalanceFacts.

(** ** Rates and maxima over the window *)

(** Two nested loops are one loop over the pairs. *)
Lemma foldl_nested {A B C} (g : A -> B -> C -> A) (js : list B) (ps : list C)
    (a : A) :
  foldl (fun a j => foldl (fun a p => g a j p) a ps) a js
  = foldl (fun a jp => g a jp.1 jp.2) a (js ≫= fun j => pair j <$> ps).
Proof.
  revert a. induction js as [| j js IH]; intros a; [done |].
  rewrite bind_cons, foldl_app. cbn [foldl]. rewrite IH. f_equal.
  by rewrite foldl_fmap.
Qed.

(** A maximum taken from zero is determined by what it bounds. *)
Lemma max_from_zero_unique {A} (P : A -> Prop) (f : A -> Z) (m1 m2 : Z) :
  0 ≤ m1 -> 0 ≤ m2 ->
  (∀ x, P x -> f x ≤ m1) -> (m1 = 0 ∨ ∃ x, P x ∧ m1 = f x) ->
  (∀ x, P x -> f x ≤ m2) -> (m2 = 0 ∨ ∃ x, P x ∧ m2 = f x) ->
  m1 = m2.
Proof.
  intros H1 H2 Hb1 Ha1 Hb2 Ha2.
  assert (m1 ≤ m2).
  { destruct Ha1 as [-> | (x & Hx & ->)]; [done | by apply Hb2]. }
  assert (m2 ≤ m1).
  { destruct Ha2 as [-> | (x & Hx & ->)]; [done | by apply Hb1]. }
  lia.
Qed.

(** A sum of non-negative integers is non-negative and at least each term. *)
Lemma Zsum_nonneg {A} (f : A -> Z) (l : list A) :
  (∀ y, y ∈ l -> 0 ≤ f y) -> 0 ≤ Zsum (f <$> l).
Proof.
  induction l as [| y l IH]; intros Hpos; [done |].
  change (Zsum (f <$> y :: l)) with (f y + Zsum (f <$> l)).
  pose proof (Hpos y (list_elem_of_here _ _)).
  assert (0 ≤ Zsum (f <$> l)); [| lia].
  apply IH. intros y' Hy'. by apply Hpos, list_elem_of_further.
Qed.

Lemma Zsum_term_le {A} (f : A -> Z) (l : list A) (x : A) :
  (∀ y, y ∈ l -> 0 ≤ f y) -> x ∈ l -> 0 ≤ Zsum (f <$> l) ∧ f x ≤ Zsum (f <$> l).
Proof.
  intros Hpos Hx. split; [by apply Zsum_nonneg |].
  induction l as [| y l IH]; [by apply elem_of_nil in Hx |].
  change (Zsum (f <$> y :: l)) with (f y + Zsum (f <$> l)).
  assert (Hrest : ∀ y', y' ∈ l -> 0 ≤ f y').
  { intros y' Hy'. by apply Hpos, list_elem_of_further. }
  pose proof (Zsum_nonneg f l Hrest).
  pose proof (Hpos y (list_elem_of_here _ _)).
  apply elem_of_cons in Hx as [-> | Hx]; [lia |].
  specialize (IH Hrest Hx). lia.
Qed.

Section WindowFacts.
Context `{stats_h}.


(** The max-of-max loop, bin by bin and shard by shard. *)
Lemma stats_aggregate_max_max_value_bins (router : McrouterInstanceBase)
    (idx : nat) :
  let m := stats_aggregate_max_max_value router idx in
  0 ≤ m
  ∧ (∀ jp, jp.1 ∈ used_bins router ∧ jp.2 ∈ proxies router ->
           bin_at jp.2 idx jp.1 ≤ m)
  ∧ (m = 0 ∨ ∃ jp, (jp.1 ∈ used_bins router ∧ jp.2 ∈ proxies router)
                   ∧ m = bin_at jp.2 idx jp.1).
Proof.
  intros m. subst m. unfold stats_aggregate_max_max_value.
  rewrite (foldl_nested (fun max j proxy => max64 max (bin_at proxy idx j))).
  set (pairs := used_bins router ≫= _).
  assert (Hpairs : ∀ jp : nat * Proxy,
            jp ∈ pairs ↔ jp.1 ∈ used_bins router ∧ jp.2 ∈ proxies router).
  { intros [j proxy]. subst pairs. rewrite list_elem_of_bind. simpl. split.
    - intros (j' & Hin & Hj'). apply list_elem_of_fmap in Hin as (p & [= -> ->] & Hp).
      done.
    - intros [Hj Hp]. exists j. split; [| done].
      apply list_elem_of_fmap. by exists proxy. }
  destruct (foldl_max64 (fun jp : nat * Proxy => bin_at jp.2 idx jp.1) pairs 0)
    as (Hge & Hall & Hex).
  split; [exact Hge |]. split.
  - intros jp Hjp. apply Hall. by apply Hpairs.
  - destruct Hex as [-> | (jp & Hjp & ->)]; [by left |].
    right. exists jp. split; [by apply Hpairs | done].
Qed.

(** X8.  The max-of-max value is the largest single bin: it is at least the
    value of every used bin of every shard, and it is the value of one of
    them, or zero when there is none or all are zero. *)
Theorem stats_aggregate_max_max_value_largest_bin
    (router : McrouterInstanceBase) (idx : nat) :
  let m := stats_aggregate_max_max_value router idx in
  (∀ j proxy, j ∈ used_bins router -> proxy ∈ proxies router ->
              bin_at proxy idx j ≤ m)
  ∧ (m = 0 ∨ ∃ j proxy, j ∈ used_bins router ∧ proxy ∈ proxies router
                        ∧ m = bin_at proxy idx j).
Proof.
  intros m. subst m.
  destruct (stats_aggregate_max_max_value_bins router idx) as (_ & Hall & Hex).
  split.
  - intros j proxy Hj Hp. by apply (Hall (j, proxy)).
  - destruct Hex as [-> | ([j proxy] & [Hj Hp] & ->)]; [by left |].
    right. by exists j, proxy.
Qed.

(** The same for the reading shard by shard. *)
Lemma maxOfShardMaxes_bins (router : McrouterInstanceBase) (idx : nat) :
  Forall (fun proxy => num_bins_used proxy = get_num_bins_used router)
    (proxies router) ->
  let m := maxOfShardMaxes router idx in
  0 ≤ m
  ∧ (∀ jp, jp.1 ∈ used_bins router ∧ jp.2 ∈ proxies router ->
           bin_at jp.2 idx jp.1 ≤ m)
  ∧ (m = 0 ∨ ∃ jp, (jp.1 ∈ used_bins router ∧ jp.2 ∈ proxies router)
                   ∧ m = bin_at jp.2 idx jp.1).
Proof.
  intros Hsame m. subst m. unfold maxOfShardMaxes.
  rewrite Forall_forall in Hsame.
  destruct (foldl_max64 (fun proxy => maxBinValue proxy idx) (proxies router) 0)
    as (Hge & Hall & Hex).
  assert (Hshard : ∀ proxy, proxy ∈ proxies router ->
            0 ≤ maxBinValue proxy idx
            ∧ (∀ j, j ∈ used_bins router -> bin_at proxy idx j ≤ maxBinValue proxy idx)
            ∧ (maxBinValue proxy idx = 0
               ∨ ∃ j, j ∈ used_bins router
                      ∧ maxBinValue proxy idx = bin_at proxy idx j)).
  { intros proxy Hp. unfold maxBinValue, used_bins. rewrite (Hsame proxy Hp).
    apply (foldl_max64 (fun j => bin_at proxy idx j)). }
  split; [exact Hge |]. split.
  - intros [j proxy] [Hj Hp]. simpl in *.
    destruct (Hshard proxy Hp) as (_ & Hb & _).
    specialize (Hb j Hj). specialize (Hall proxy Hp). simpl in Hall. lia.
  - destruct Hex as [-> | (proxy & Hp & ->)]; [by left |].
    destruct (Hshard proxy Hp) as (_ & _ & [-> | (j & Hj & ->)]); [by left |].
    right. by exists (j, proxy).
Qed.

(** X9.  Where the shards have used as many bins as the first one, the
    max-of-max value is the maximum across shards of each shard's largest
    retained bin. *)
Theorem stats_aggregate_max_max_value_shard_maxes
    (router : McrouterInstanceBase) (idx : nat) :
  Forall (fun proxy => num_bins_used proxy = get_num_bins_used router)
    (proxies router) ->
  stats_aggregate_max_max_value router idx = maxOfShardMaxes router idx.
Proof.
  intros Hsame.
  destruct (stats_aggregate_max_max_value_bins router idx) as (H1 & Hb1 & Ha1).
  destruct (maxOfShardMaxes_bins router idx Hsame) as (H2 & Hb2 & Ha2).
  by apply (max_from_zero_unique
              (fun jp : nat * Proxy =>
                 jp.1 ∈ used_bins router ∧ jp.2 ∈ proxies router)
              (fun jp => bin_at jp.2 idx jp.1)).
Qed.

(** X10.  Where the used bins hold non-negative values and no bin total
    overflows, the max-of-max value never exceeds the max value: a single
    shard's bin is at most the bin's total over the shards. *)
Theorem stats_aggregate_max_max_value_le_max (router : McrouterInstanceBase)
    (idx : nat) :
  (∀ j proxy, j ∈ used_bins router -> proxy ∈ proxies router ->
              0 ≤ bin_at proxy idx j) ->
  (∀ j, j ∈ used_bins router ->
        Zsum ((fun proxy => bin_at proxy idx j) <$> proxies router) < two64) ->
  stats_aggregate_max_max_value router idx ≤ stats_aggregate_max_value router idx.
Proof.
  intros Hpos Hsmall.
  destruct (stats_aggregate_max_max_value_bins router idx) as (_ & _ & Hex).
  destruct (foldl_max64 (binSum router idx) (used_bins router) 0)
    as (Hge & Hall & _).
  fold (stats_aggregate_max_value router idx) in Hge, Hall.
  destruct Hex as [-> | ([j proxy] & [Hj Hp] & ->)]; [exact Hge |]. simpl in *.
  destruct (Zsum_term_le (fun proxy => bin_at proxy idx j) (proxies router) proxy)
    as [Hsum Hterm]; [by intros y Hy; apply Hpos | done |].
  specialize (Hall j Hj). unfold binSum in Hall.
  rewrite (foldl_add64 (fun proxy => bin_at proxy idx j)) in Hall
    by (pose proof two64_pos; lia).
  rewrite Z.add_0_l, wrap64_small in Hall by (split; [done | by apply Hsmall]).
  lia.
Qed.

End WindowFacts.

(** ** The snapshot: layout, aborts, slots left alone *)

Section SnapshotFacts.
Context `{stats_h} `{stat_list_h}.

Lemma prepare_stats_unfold router env :
  prepare_stats router env
  = if decide (type (stat_at stat_list num_suspect_servers_stat) = stat_uint64)
    then aggregate_loop router (seq 0 num_stats) (before_aggregation router env)
    else None.
Proof.
  unfold prepare_stats, stat_set_uint64, before_aggregation, init_stats.
  by case_decide.
Qed.

Lemma aggregate_step_meta i stat pr stat' :
  aggregate_step i stat pr = Some stat' -> meta stat' = meta stat.
Proof.
  unfold aggregate_step. destruct (type stat) eqn:Hty; [done | | |];
    intros [= <-]; unfold meta; simpl; by rewrite Hty.
Qed.

Lemma aggregate_slot_meta i stat prs stat' :
  aggregate_slot i stat prs = Some stat' -> meta stat' = meta stat.
Proof.
  revert stat. induction prs as [| pr prs IH]; intros stat; simpl.
  - by intros [= ->].
  - destruct (aggregate_step i stat pr) as [stat1 |] eqn:Hstep; [| done].
    intros Hrest. rewrite (IH _ Hrest). by eapply aggregate_step_meta.
Qed.

Lemma insert_layout (stats : list stat_t) i stat' :
  meta stat' = meta (stat_at stats i) -> same_layout stats (<[i := stat']> stats).
Proof.
  intros Hmeta. split; [apply length_insert |]. intros j. unfold stat_at in *.
  destruct (decide (i = j)) as [<- | Hne].
  - destruct (decide (i < length stats)%nat).
    + by rewrite list_lookup_insert_eq.
    + by rewrite list_insert_ge by lia.
  - by rewrite list_lookup_insert_ne.
Qed.

(** However the loop ends, it keeps the layout and leaves alone the slots
    that are not under the sum policy. *)
Lemma aggregate_loop_some router slots stats stats' :
  aggregate_loop router slots stats = Some stats' ->
  same_layout stats stats'
  ∧ ∀ j, sum_policy (stat_at stats j) = false -> stat_at stats' j = stat_at stats j.
Proof.
  revert stats. induction slots as [| i slots IH]; intros stats; simpl.
  { intros [= ->]. split; [apply same_layout_refl | done]. }
  fold (sum_policy (stat_at stats i)).
  destruct (sum_policy (stat_at stats i)) eqn:Hpol; [| apply IH].
  destruct (aggregate_slot i (stat_at stats i) (proxies router))
    as [stat' |] eqn:Hagg; [| done].
  intros Hloop. destruct (IH _ Hloop) as [Hlay Hkeep].
  pose proof (insert_layout stats i stat' (aggregate_slot_meta _ _ _ _ Hagg))
    as Hins.
  split; [by eapply same_layout_trans |].
  intros j Hj.
  assert (i ≠ j) by (intros ->; congruence).
  assert (Hsame : stat_at (<[i := stat']> stats) j = stat_at stats j).
  { unfold stat_at. by rewrite list_lookup_insert_ne. }
  rewrite Hkeep by (by rewrite Hsame). exact Hsame.
Qed.

(** With no proxy the loop changes nothing. *)
Lemma aggregate_loop_no_proxies router slots stats :
  proxies router = [] -> aggregate_loop router slots stats = Some stats.
Proof.
  intros Hnone. revert stats.
  induction slots as [| i slots IH]; intros stats; simpl; [done |].
  rewrite Hnone. simpl.
  destruct (aggregate (stat_at stats i) && _); [| apply IH].
  assert (Hid : <[i := stat_at stats i]> stats = stats).
  { apply list_insert_id'. intros Hlt. unfold stat_at.
    by destruct (lookup_lt_is_Some_2 stats i Hlt) as [x ->]. }
  rewrite Hid. apply IH.
Qed.

(** A string slot under the sum policy stops the loop as soon as there is a
    proxy. *)
Lemma aggregate_loop_fatal router slots stats i :
  i ∈ slots ->
  sum_policy (stat_at stats i) = true ->
  type (stat_at stats i) = stat_string ->
  proxies router ≠ [] ->
  aggregate_loop router slots stats = None.
Proof.
  intros Hin Hpol Htype Hprs. revert stats Hpol Htype.
  induction slots as [| h slots IH]; intros stats Hpol Htype;
    [by apply elem_of_nil in Hin |].
  simpl. fold (sum_policy (stat_at stats h)).
  destruct (decide (h = i)) as [-> | Hne].
  - rewrite Hpol.
    destruct (proxies router) as [| pr prs]; [done |].
    simpl. unfold aggregate_step. by rewrite Htype.
  - apply elem_of_cons in Hin as [-> | Hin]; [done |].
    destruct (sum_policy (stat_at stats h)); [| by apply IH].
    destruct (aggregate_slot h (stat_at stats h) (proxies router))
      as [stat' |]; [| done].
    assert (Hsame : stat_at (<[h := stat']> stats) i = stat_at stats i).
    { unfold stat_at. by rewrite list_lookup_insert_ne. }
    apply IH; [done | by rewrite Hsame | by rewrite Hsame].
Qed.

(** X11.  Whenever [prepare_stats] produces a snapshot, the snapshot has the
    [num_stats] slots of the table, each with the table's name, group, type
    and aggregation flag: only values change. *)
Theorem prepare_stats_keeps_layout (router : McrouterInstanceBase)
    (env : host_env) (snapshot : list stat_t) :
  prepare_stats router env = Some snapshot ->
  length snapshot = num_stats
  ∧ ∀ slot,
      name (stat_at snapshot slot) = name (stat_at stat_list slot)
      ∧ group (stat_at snapshot slot) = group (stat_at stat_list slot)
      ∧ type (stat_at snapshot slot) = type (stat_at stat_list slot)
      ∧ aggregate (stat_at snapshot slot) = aggregate (stat_at stat_list slot).
Proof.
  rewrite prepare_stats_unfold. case_decide; [| done]. intros Hloop.
  destruct (aggregate_loop_some _ _ _ _ Hloop) as [Hlay _].
  destruct (same_layout_trans _ _ _ (before_aggregation_layout router env) Hlay)
    as [Hlen Hmeta].
  split; [exact Hlen |]. intros slot.
  specialize (Hmeta slot). by injection Hmeta as -> -> -> ->.
Qed.

(** X12.  [prepare_stats] aborts when the suspect-servers slot is not
    unsigned, and when a string slot is under the sum policy while there is
    at least one proxy; with a suspect-servers slot that is unsigned and no
    proxy at all it never aborts, and the snapshot is the one before the
    aggregation loop. *)
Theorem prepare_stats_aborts (router : McrouterInstanceBase) (env : host_env) :
  (type (stat_at stat_list num_suspect_servers_stat) ≠ stat_uint64 ->
   prepare_stats router env = None)
  ∧ (∀ slot, (slot < num_stats)%nat ->
       sum_policy (stat_at stat_list slot) = true ->
       type (stat_at stat_list slot) = stat_string ->
       proxies router ≠ [] ->
       prepare_stats router env = None)
  ∧ (type (stat_at stat_list num_suspect_servers_stat) = stat_uint64 ->
     proxies router = [] ->
     prepare_stats router env = Some (before_aggregation router env)).
Proof.
  rewrite prepare_stats_unfold. split; [| split].
  - intros Htype. by rewrite decide_False.
  - intros slot Hslot Hpol Htype Hprs. case_decide; [| done].
    destruct (before_aggregation_layout router env) as [_ Hmeta].
    specialize (Hmeta slot).
    apply (aggregate_loop_fatal router _ _ slot).
    + apply elem_of_seq. lia.
    + by rewrite (sum_policy_meta _ _ Hmeta).
    + injection Hmeta as _ _ -> _. exact Htype.
    + exact Hprs.
  - intros Htype Hnone. rewrite decide_True by done.
    by apply aggregate_loop_no_proxies.
Qed.

(** X13.  A slot that is not under the sum policy (not aggregated, or a rate
    slot) and that [prepare_stats] does not assign itself comes out of
    [prepare_stats] exactly as the table has it, whatever the shards
    hold. *)
Theorem prepare_stats_leaves_slot (router : McrouterInstanceBase)
    (env : host_env) (snapshot : list stat_t) (slot : nat) :
  prepare_stats router env = Some snapshot ->
  sum_policy (stat_at stat_list slot) = false ->
  slot ∉ assigned_slots ->
  stat_at snapshot slot = stat_at stat_list slot.
Proof.
  rewrite prepare_stats_unfold. case_decide; [| done]. intros Hloop Hpol Hfree.
  destruct (aggregate_loop_some _ _ _ _ Hloop) as [_ Hkeep].
  destruct (before_aggregation_layout router env) as [_ Hmeta].
  rewrite Hkeep.
  - by apply before_aggregation_untouched.
  - by rewrite (sum_policy_meta _ _ (Hmeta slot)).
Qed.

End SnapshotFacts.

(** ** The snapshot: what the stages leave in it *)

Lemma stat_write_data_eq stats idx d :
  (idx < length stats)%nat -> data (stat_at (stat_write stats idx d) idx) = d.
Proof. intros Hlt. by rewrite stat_at_write_eq. Qed.

Section StageFacts.
Context `{stats_h} `{stat_list_h}.

Lemma before_aggregation_stages router env :
  before_aggregation router env = fiber_stats router (after_proc_stat router env).
Proof.
  unfold before_aggregation, prepare_process_stats, after_proc_stat,
    after_process, after_ratios, after_suspect.
  reflexivity.
Qed.

Lemma after_suspect_length router : length (after_suspect router) = num_stats.
Proof. unfold after_suspect. by rewrite stat_write_length. Qed.

Lemma after_ratios_length router : length (after_ratios router) = num_stats.
Proof.
  unfold after_ratios.
  destruct (derived_ratio_stats_layout router (after_suspect router)) as [-> _].
  apply after_suspect_length.
Qed.

Lemma after_process_length router env :
  length (after_process router env) = num_stats.
Proof.
  unfold after_process.
  destruct (process_wide_stats_layout router env (after_ratios router))
    as [-> _].
  apply after_ratios_length.
Qed.

Lemma after_proc_stat_length router env :
  length (after_proc_stat router env) = num_stats.
Proof.
  unfold after_proc_stat.
  destruct (proc_stat_stats_layout env (after_process router env)) as [-> _].
  apply after_process_length.
Qed.

(** The four groups of assigned slots are separate. *)
Lemma assigned_slots_split :
  NoDup assigned_slots ->
  NoDup derived_slots ∧ NoDup process_slots ∧ NoDup ps_slots ∧ NoDup fiber_slots
  ∧ (∀ k, k ∈ derived_slots ->
          k ≠ num_suspect_servers_stat
          ∧ (k ∉ process_slots) ∧ (k ∉ ps_slots) ∧ (k ∉ fiber_slots))
  ∧ (∀ k, k ∈ process_slots ->
          k ≠ num_suspect_servers_stat
          ∧ (k ∉ derived_slots) ∧ (k ∉ ps_slots) ∧ (k ∉ fiber_slots))
  ∧ (∀ k, k ∈ fiber_slots ->
          k ≠ num_suspect_servers_stat
          ∧ (k ∉ derived_slots) ∧ (k ∉ process_slots) ∧ (k ∉ ps_slots))
  ∧ ((num_suspect_servers_stat ∉ derived_slots)
     ∧ (num_suspect_servers_stat ∉ process_slots)
     ∧ (num_suspect_servers_stat ∉ ps_slots)
     ∧ (num_suspect_servers_stat ∉ fiber_slots)).
Proof.
  unfold assigned_slots. intros Hnd.
  apply NoDup_cons in Hnd as [Hsus Hnd].
  rewrite !not_elem_of_app in Hsus. destruct Hsus as (Hs1 & Hs2 & Hs3 & Hs4).
  apply NoDup_app in Hnd as (Hd & Hd_out & Hnd).
  apply NoDup_app in Hnd as (Hp & Hp_out & Hnd).
  apply NoDup_app in Hnd as (Hps & Hps_out & Hf).
  repeat (split; [done |]).
  split; [| split; [| split; [| done]]].
  - intros k Hk. specialize (Hd_out k Hk). rewrite !not_elem_of_app in Hd_out.
    split; [by intros -> | tauto].
  - intros k Hk. specialize (Hp_out k Hk). rewrite !not_elem_of_app in Hp_out.
    split; [by intros -> |]. split; [| tauto].
    intros Hkd. specialize (Hd_out k Hkd). rewrite !not_elem_of_app in Hd_out.
    tauto.
  - intros k Hk. split; [by intros -> |].
    split; [| split].
    + intros Hkd. specialize (Hd_out k Hkd). rewrite !not_elem_of_app in Hd_out.
      tauto.
    + intros Hkp. specialize (Hp_out k Hkp). rewrite !not_elem_of_app in Hp_out.
      tauto.
    + intros Hkps. by specialize (Hps_out k Hkps).
Qed.

(** The aggregation loop leaves an assigned slot as the stages left it. *)
Lemma snapshot_assigned router env snapshot k :
  prepare_stats router env = Some snapshot ->
  assigned_not_summed ->
  k ∈ assigned_slots ->
  stat_at snapshot k = stat_at (before_aggregation router env) k.
Proof.
  rewrite prepare_stats_unfold. case_decide; [| done]. intros Hloop Hnosum Hk.
  destruct (aggregate_loop_some _ _ _ _ Hloop) as [_ Hkeep].
  apply Hkeep.
  destruct (before_aggregation_layout router env) as [_ Hmeta].
  rewrite (sum_policy_meta _ _ (Hmeta k)).
  unfold assigned_not_summed in Hnosum. rewrite Forall_forall in Hnosum.
  by apply Hnosum.
Qed.

Lemma in_assigned_slots k :
  k = num_suspect_servers_stat ∨ k ∈ derived_slots ∨ k ∈ process_slots
  ∨ k ∈ ps_slots ∨ k ∈ fiber_slots ->
  k ∈ assigned_slots.
Proof.
  unfold assigned_slots. rewrite elem_of_cons, !elem_of_app. tauto.
Qed.

Lemma snapshot_suspect router env snapshot :
  prepare_stats router env = Some snapshot ->
  assigned_slots_ok ->
  stat_at snapshot num_suspect_servers_stat
  = stat_at (after_suspect router) num_suspect_servers_stat.
Proof.
  intros Hsnap (Hnd & _ & Hnosum).
  destruct (assigned_slots_split Hnd) as (_ & _ & _ & _ & _ & _ & _ & Hsus).
  destruct Hsus as (Hs1 & Hs2 & Hs3 & Hs4).
  rewrite (snapshot_assigned router env snapshot) by (first [assumption | apply in_assigned_slots; auto 8]).
  rewrite before_aggregation_stages.
  rewrite fiber_stats_untouched by done.
  unfold after_proc_stat. rewrite proc_stat_stats_untouched by done.
  unfold after_process. rewrite process_wide_stats_untouched by done.
  unfold after_ratios. by rewrite derived_ratio_stats_untouched.
Qed.

Lemma snapshot_derived router env snapshot k :
  prepare_stats router env = Some snapshot ->
  assigned_slots_ok ->
  k ∈ derived_slots ->
  stat_at snapshot k = stat_at (after_ratios router) k.
Proof.
  intros Hsnap (Hnd & _ & Hnosum) Hk.
  destruct (assigned_slots_split Hnd) as (_ & _ & _ & _ & Hd & _).
  destruct (Hd k Hk) as (_ & Hk1 & Hk2 & Hk3).
  rewrite (snapshot_assigned router env snapshot) by (first [assumption | apply in_assigned_slots; auto 8]).
  rewrite before_aggregation_stages.
  rewrite fiber_stats_untouched by done.
  unfold after_proc_stat. rewrite proc_stat_stats_untouched by done.
  unfold after_process. by rewrite process_wide_stats_untouched.
Qed.

Lemma snapshot_process router env snapshot k :
  prepare_stats router env = Some snapshot ->
  assigned_slots_ok ->
  k ∈ process_slots ->
  stat_at snapshot k = stat_at (after_process router env) k.
Proof.
  intros Hsnap (Hnd & _ & Hnosum) Hk.
  destruct (assigned_slots_split Hnd) as (_ & _ & _ & _ & _ & Hp & _).
  destruct (Hp k Hk) as (_ & Hk1 & Hk2 & Hk3).
  rewrite (snapshot_assigned router env snapshot) by (first [assumption | apply in_assigned_slots; auto 8]).
  rewrite before_aggregation_stages.
  rewrite fiber_stats_untouched by done.
  unfold after_proc_stat. by rewrite proc_stat_stats_untouched.
Qed.

Lemma snapshot_fiber router env snapshot k :
  prepare_stats router env = Some snapshot ->
  assigned_slots_ok ->
  k ∈ fiber_slots ->
  stat_at snapshot k = stat_at (fiber_stats router (after_proc_stat router env)) k.
Proof.
  intros Hsnap (Hnd & _ & Hnosum) Hk.
  rewrite (snapshot_assigned router env snapshot)
    by (first [assumption | apply in_assigned_slots; auto 8]).
  by rewrite before_aggregation_stages.
Qed.

(** A slot of a later stage still has the table's value when that stage
    starts. *)
Lemma after_proc_stat_fiber router env k :
  NoDup assigned_slots ->
  k ∈ fiber_slots ->
  stat_at (after_proc_stat router env) k = stat_at stat_list k.
Proof.
  intros Hnd Hk.
  destruct (assigned_slots_split Hnd) as (_ & _ & _ & _ & _ & _ & Hf & _).
  destruct (Hf k Hk) as (Hk0 & Hk1 & Hk2 & Hk3).
  unfold after_proc_stat. rewrite proc_stat_stats_untouched by done.
  unfold after_process. rewrite process_wide_stats_untouched by done.
  unfold after_ratios. rewrite derived_ratio_stats_untouched by done.
  unfold after_suspect, init_stats. by rewrite stat_at_write_ne.
Qed.

End StageFacts.

(** Distinct slots, all inside the array: the pairwise inequalities and the
    bounds, in the context. *)
Ltac distinct_slots Hnd Hin :=
  repeat (apply NoDup_cons in Hnd as [? Hnd]);
  repeat match goal with
         | Hni : _ ∉ _ :: _ |- _ => apply not_elem_of_cons in Hni as [? Hni]
         end;
  repeat (apply Forall_cons in Hin as [? Hin]).

(** Read a slot through a run of assignments: skip the assignments to other
    slots, stop at the last one to this slot. *)
Ltac slots_differ := first [assumption | apply not_eq_sym; assumption].

Ltac slots_taken := first [assumption | apply not_eq_sym; assumption].

Ltac read_slot :=
  rewrite ?stat_at_write_ne by slots_differ;
  rewrite stat_write_data_eq by (rewrite ?stat_write_length; assumption).

Section StageValues.
Context `{stats_h} `{stat_list_h}.

Lemma process_wide_stats_data router env stats :
  NoDup process_slots ->
  Forall (fun slot => (slot < length stats)%nat) process_slots ->
  let now := wrap64 (time_now env) in
  let after := process_wide_stats router env stats in
  data (stat_at after commandargs_stat) = data_string (gStandaloneArgs env)
  ∧ data (stat_at after time_stat) = data_uint64 now
  ∧ data (stat_at after start_time_stat) = data_uint64 (startTime router)
  ∧ data (stat_at after uptime_stat) = data_uint64 (sub64 now (startTime router))
  ∧ data (stat_at after config_age_stat)
    = data_uint64 (sub64 now (config_last_success_max router))
  ∧ data (stat_at after config_last_success_stat)
    = data_uint64 (config_last_success_max router)
  ∧ data (stat_at after config_last_attempt_stat)
    = data_uint64 (lastConfigAttempt router)
  ∧ data (stat_at after config_failures_stat) = data_uint64 (configFailures router)
  ∧ data (stat_at after pid_stat) = data_int64 (host_pid env)
  ∧ data (stat_at after parent_pid_stat) = data_int64 (host_ppid env).
Proof.
  unfold process_slots. intros Hnd Hin. distinct_slots Hnd Hin.
  cbv zeta. unfold process_wide_stats. cbv zeta.
  repeat apply conj; read_slot; reflexivity.
Qed.

Lemma derived_ratio_stats_data router stats :
  NoDup derived_slots ->
  Forall (fun slot => (slot < length stats)%nat) derived_slots ->
  let after := derived_ratio_stats router stats in
  let ratio (num den : nat) :=
    Double.div (Double.of_Z (window_sum router num))
      (Double.of_Z (window_sum router den)) in
  let wait (sum total : nat) :=
    Double.div (Double.of_Z (window_sum router sum))
      (Double.mul Double.million (Double.of_Z (window_sum router total))) in
  data (stat_at after destination_batch_size_stat)
  = data_dbl (if window_sum router destination_batches_sum_stat =? 0
              then Double.zero
              else ratio destination_requests_sum_stat
                     destination_batches_sum_stat)
  ∧ data (stat_at after retrans_per_kbyte_avg_stat)
    = data_dbl (if window_sum router retrans_num_total_stat =? 0
                then Double.zero
                else ratio retrans_per_kbyte_sum_stat retrans_num_total_stat)
  ∧ data (stat_at after outstanding_route_get_avg_queue_size_stat)
    = data_dbl (if 0 <? window_sum router outstanding_route_get_reqs_queued_stat
                then ratio outstanding_route_get_reqs_queued_helper_stat
                       outstanding_route_get_reqs_queued_stat
                else Double.zero)
  ∧ data (stat_at after outstanding_route_get_avg_wait_time_sec_stat)
    = data_dbl (if 0 <? window_sum router outstanding_route_get_reqs_queued_stat
                then wait outstanding_route_get_wait_time_sum_us_stat
                       outstanding_route_get_reqs_queued_stat
                else Double.zero)
  ∧ data (stat_at after outstanding_route_update_avg_queue_size_stat)
    = data_dbl (if 0 <? window_sum router outstanding_route_update_reqs_queued_stat
                then ratio outstanding_route_update_reqs_queued_helper_stat
                       outstanding_route_update_reqs_queued_stat
                else Double.zero)
  ∧ data (stat_at after outstanding_route_update_avg_wait_time_sec_stat)
    = data_dbl (if 0 <? window_sum router outstanding_route_update_reqs_queued_stat
                then wait outstanding_route_update_wait_time_sum_us_stat
                       outstanding_route_update_reqs_queued_stat
                else Double.zero).
Proof.
  unfold derived_slots. intros Hnd Hin. distinct_slots Hnd Hin.
  cbv zeta. unfold derived_ratio_stats. cbv zeta.
  destruct (window_sum router destination_batches_sum_stat =? 0);
    destruct (window_sum router retrans_num_total_stat =? 0);
    destruct (0 <? window_sum router outstanding_route_get_reqs_queued_stat);
    destruct (0 <? window_sum router outstanding_route_update_reqs_queued_stat);
    simpl; repeat apply conj; read_slot; reflexivity.
Qed.

(** One proxy's contribution to the five slots of the fibers loop. *)
Lemma fibers_step_values stats pr :
  NoDup fiber_slots ->
  Forall (fun slot => (slot < length stats)%nat) fiber_slots ->
  let after := fibers_step stats pr in
  stat_get_uint64 after fibers_allocated_stat
  = add64 (stat_get_uint64 stats fibers_allocated_stat) (fibersAllocated pr)
  ∧ stat_get_uint64 after fibers_pool_size_stat
    = add64 (stat_get_uint64 stats fibers_pool_size_stat) (fibersPoolSize pr)
  ∧ stat_get_uint64 after fibers_stack_high_watermark_stat
    = max64 (stat_get_uint64 stats fibers_stack_high_watermark_stat)
        (stackHighWatermark pr)
  ∧ stat_get_dbl after duration_us_stat
    = Double.add (stat_get_dbl stats duration_us_stat) (durationUs pr)
  ∧ stat_get_dbl after client_queue_notify_period_stat
    = Double.add (stat_get_dbl stats client_queue_notify_period_stat)
        (queueNotifyPeriod pr).
Proof.
  unfold fiber_slots. intros Hnd Hin. distinct_slots Hnd Hin.
  cbv zeta. unfold fibers_step, stat_get_uint64, stat_get_dbl. cbv zeta.
  repeat apply conj; read_slot; rewrite ?stat_at_write_ne by slots_differ;
    reflexivity.
Qed.

(** The fibers loop, slot by slot. *)
Lemma fibers_loop_values stats prs :
  NoDup fiber_slots ->
  Forall (fun slot => (slot < length stats)%nat) fiber_slots ->
  let after := foldl fibers_step stats prs in
  stat_get_uint64 after fibers_allocated_stat
  = foldl (fun sum pr => add64 sum (fibersAllocated pr))
      (stat_get_uint64 stats fibers_allocated_stat) prs
  ∧ stat_get_uint64 after fibers_pool_size_stat
    = foldl (fun sum pr => add64 sum (fibersPoolSize pr))
        (stat_get_uint64 stats fibers_pool_size_stat) prs
  ∧ stat_get_uint64 after fibers_stack_high_watermark_stat
    = foldl (fun max pr => max64 max (stackHighWatermark pr))
        (stat_get_uint64 stats fibers_stack_high_watermark_stat) prs
  ∧ stat_get_dbl after duration_us_stat
    = foldl (fun sum pr => Double.add sum (durationUs pr))
        (stat_get_dbl stats duration_us_stat) prs
  ∧ stat_get_dbl after client_queue_notify_period_stat
    = foldl (fun sum pr => Double.add sum (queueNotifyPeriod pr))
        (stat_get_dbl stats client_queue_notify_period_stat) prs.
Proof.
  intros Hnd. revert stats.
  induction prs as [| pr prs IH]; intros stats Hin; [done |].
  cbv zeta. cbn [foldl].
  destruct (fibers_step_values stats pr Hnd Hin) as (Ha & Hp & Hw & Hd & Hq).
  cbv zeta in Ha, Hp, Hw, Hd, Hq. rewrite <- Ha, <- Hp, <- Hw, <- Hd, <- Hq.
  apply IH.
  destruct (fibers_step_layout stats pr) as [-> _]. exact Hin.
Qed.

End StageValues.

Section StageClaims.
Context `{stats_h} `{stat_list_h}.

Lemma assigned_in_range k :
  assigned_slots_ok -> k ∈ assigned_slots -> (k < num_stats)%nat.
Proof.
  intros (_ & Hrange & _) Hk. rewrite Forall_forall in Hrange. by apply Hrange.
Qed.

Lemma stage_slots_in_range (group_slots : list nat) (stats : list stat_t) :
  assigned_slots_ok ->
  length stats = num_stats ->
  (∀ k, k ∈ group_slots -> k ∈ assigned_slots) ->
  Forall (fun slot => (slot < length stats)%nat) group_slots.
Proof.
  intros Hok Hlen Hsub. apply Forall_forall. intros k Hk. rewrite Hlen.
  by apply assigned_in_range, Hsub.
Qed.

(** X14.  The process-wide slots of a snapshot: the suspect-servers count,
    the clock, the start time and the uptime [now - start], the latest
    configuration success over the shards (at least every shard's) and the
    configuration age [now - latest], both modulo 2^64, so that
    [stat_get_config_age] on the snapshot gives its own age slot; the last
    attempt, the failure count and the two process ids. *)
Theorem prepare_stats_process_wide (router : McrouterInstanceBase)
    (env : host_env) (snapshot : list stat_t) :
  prepare_stats router env = Some snapshot ->
  assigned_slots_ok ->
  let now := wrap64 (time_now env) in
  let latest := stat_get_uint64 snapshot config_last_success_stat in
  stat_get_uint64 snapshot num_suspect_servers_stat = suspectServersCount router
  ∧ stat_get_uint64 snapshot time_stat = now
  ∧ stat_get_uint64 snapshot start_time_stat = startTime router
  ∧ stat_get_uint64 snapshot uptime_stat = sub64 now (startTime router)
  ∧ latest = config_last_success_max router
  ∧ (∀ proxy, proxy ∈ proxies router ->
       stat_get_uint64 (stats proxy) config_last_success_stat ≤ latest)
  ∧ stat_get_uint64 snapshot config_age_stat = sub64 now latest
  ∧ stat_get_config_age snapshot now = stat_get_uint64 snapshot config_age_stat
  ∧ stat_get_uint64 snapshot config_last_attempt_stat = lastConfigAttempt router
  ∧ stat_get_uint64 snapshot config_failures_stat = configFailures router
  ∧ stat_get_int64 snapshot pid_stat = host_pid env
  ∧ stat_get_int64 snapshot parent_pid_stat = host_ppid env
  ∧ get_string (data (stat_at snapshot commandargs_stat)) = gStandaloneArgs env.
Proof.
  intros Hsnap Hok now latest. subst latest.
  destruct (process_wide_stats_data router env (after_ratios router))
    as (Hargs & Htime & Hstart & Hup & Hage & Hlast & Hattempt & Hfail & Hpid
        & Hppid).
  { destruct Hok as (Hnd & _). by destruct (assigned_slots_split Hnd) as (_ & ? & _). }
  { apply stage_slots_in_range; [done | apply after_ratios_length |].
    intros k Hk. apply in_assigned_slots. auto. }
  unfold stat_get_config_age, stat_get_uint64, stat_get_int64.
  rewrite (snapshot_suspect router env snapshot) by done.
  rewrite !(snapshot_process router env snapshot)
    by (first [assumption | unfold process_slots; slot_listed]).
  unfold after_process.
  rewrite Hargs, Htime, Hstart, Hup, Hage, Hlast, Hattempt, Hfail, Hpid, Hppid.
  assert (Hsus : data (stat_at (after_suspect router) num_suspect_servers_stat)
                 = data_uint64 (suspectServersCount router)).
  { unfold after_suspect. apply stat_write_data_eq.
    apply (assigned_in_range _ Hok). apply in_assigned_slots. auto. }
  rewrite Hsus. simpl.
  repeat (split; [reflexivity |]).
  split; [| done].
  intros proxy Hproxy. unfold config_last_success_max.
  by destruct (foldl_max64
                 (fun proxy => get_uint64 (data (stat_at (stats proxy)
                                                   config_last_success_stat)))
                 (proxies router) 0) as (_ & Hall & _);
    apply (Hall proxy).
Qed.

(** X15.  The derived ratios of a snapshot are guarded: the average batch
    size and the average retransmits are the quotient of two window sums
    over the shards, and [0.0] when the denominator is zero; the average
    queue sizes and wait times of get and update requests are [0.0] unless
    their request total is positive. *)
Theorem prepare_stats_derived_ratios (router : McrouterInstanceBase)
    (env : host_env) (snapshot : list stat_t) :
  prepare_stats router env = Some snapshot ->
  assigned_slots_ok ->
  let ratio (num den : nat) :=
    Double.div (Double.of_Z (window_sum router num))
      (Double.of_Z (window_sum router den)) in
  let wait (sum total : nat) :=
    Double.div (Double.of_Z (window_sum router sum))
      (Double.mul Double.million (Double.of_Z (window_sum router total))) in
  stat_get_dbl snapshot destination_batch_size_stat
  = (if window_sum router destination_batches_sum_stat =? 0 then Double.zero
     else ratio destination_requests_sum_stat destination_batches_sum_stat)
  ∧ stat_get_dbl snapshot retrans_per_kbyte_avg_stat
    = (if window_sum router retrans_num_total_stat =? 0 then Double.zero
       else ratio retrans_per_kbyte_sum_stat retrans_num_total_stat)
  ∧ stat_get_dbl snapshot outstanding_route_get_avg_queue_size_stat
    = (if 0 <? window_sum router outstanding_route_get_reqs_queued_stat
       then ratio outstanding_route_get_reqs_queued_helper_stat
              outstanding_route_get_reqs_queued_stat
       else Double.zero)
  ∧ stat_get_dbl snapshot outstanding_route_get_avg_wait_time_sec_stat
    = (if 0 <? window_sum router outstanding_route_get_reqs_queued_stat
       then wait outstanding_route_get_wait_time_sum_us_stat
              outstanding_route_get_reqs_queued_stat
       else Double.zero)
  ∧ stat_get_dbl snapshot outstanding_route_update_avg_queue_size_stat
    = (if 0 <? window_sum router outstanding_route_update_reqs_queued_stat
       then ratio outstanding_route_update_reqs_queued_helper_stat
              outstanding_route_update_reqs_queued_stat
       else Double.zero)
  ∧ stat_get_dbl snapshot outstanding_route_update_avg_wait_time_sec_stat
    = (if 0 <? window_sum router outstanding_route_update_reqs_queued_stat
       then wait outstanding_route_update_wait_time_sum_us_stat
              outstanding_route_update_reqs_queued_stat
       else Double.zero).
Proof.
  intros Hsnap Hok ratio wait.
  destruct (derived_ratio_stats_data router (after_suspect router))
    as (Hbatch & Hretrans & Hgq & Hgw & Huq & Huw).
  { destruct Hok as (Hnd & _). by destruct (assigned_slots_split Hnd) as (? & _). }
  { apply stage_slots_in_range; [done | apply after_suspect_length |].
    intros k Hk. apply in_assigned_slots. auto. }
  fold (after_ratios router) in Hbatch, Hretrans, Hgq, Hgw, Huq, Huw.
  unfold stat_get_dbl.
  rewrite !(snapshot_derived router env snapshot)
    by (first [assumption | unfold derived_slots; slot_listed]).
  rewrite Hbatch, Hretrans, Hgq, Hgw, Huq, Huw. by simpl.
Qed.

(** X16.  The fiber slots of a snapshot: the allocated fibers and the pool
    sizes are summed over the shards (modulo 2^64), the stack high watermark
    is the largest of the shards' (at least each, and one of them or zero);
    the duration and the notify period are the table's value plus the
    shards' values, divided by the number of shards when there is one, and
    left undivided when there is none. *)
Theorem prepare_stats_fibers (router : McrouterInstanceBase) (env : host_env)
    (snapshot : list stat_t) :
  prepare_stats router env = Some snapshot ->
  assigned_slots_ok ->
  let average (slot : nat) (value : Proxy -> double) :=
    let sum :=
      foldl (fun sum proxy => Double.add sum (value proxy))
        (stat_get_dbl stat_list slot) (proxies router) in
    if (0 <? num_proxies router)%nat
    then Double.div sum (Double.of_Z (Z.of_nat (num_proxies router)))
    else sum in
  let watermark := stat_get_uint64 snapshot fibers_stack_high_watermark_stat in
  stat_get_uint64 snapshot fibers_allocated_stat
  = wrap64 (Zsum (fibersAllocated <$> proxies router))
  ∧ stat_get_uint64 snapshot fibers_pool_size_stat
    = wrap64 (Zsum (fibersPoolSize <$> proxies router))
  ∧ (∀ proxy, proxy ∈ proxies router -> stackHighWatermark proxy ≤ watermark)
  ∧ (watermark = 0
     ∨ ∃ proxy, proxy ∈ proxies router ∧ watermark = stackHighWatermark proxy)
  ∧ stat_get_dbl snapshot duration_us_stat = average duration_us_stat durationUs
  ∧ stat_get_dbl snapshot client_queue_notify_period_stat
    = average client_queue_notify_period_stat queueNotifyPeriod.
Proof.
  intros Hsnap Hok average watermark. subst average watermark. cbv beta zeta.
  pose proof Hok as (Hnd & _).
  destruct (assigned_slots_split Hnd) as (_ & _ & _ & Hfnd & _).
  assert (Hfin : ∀ k, k ∈ fiber_slots -> k ∈ assigned_slots).
  { intros k Hk. apply in_assigned_slots. auto 8. }
  unfold fiber_slots in Hfnd.
  pose proof Hfnd as Hfnd'.
  repeat (apply NoDup_cons in Hfnd' as [? Hfnd']).
  repeat match goal with
         | Hni : _ ∉ _ :: _ |- _ => apply not_elem_of_cons in Hni as [? Hni]
         end.
  assert (Hrange : Forall (fun slot => (slot < num_stats)%nat)
                     [fibers_allocated_stat; fibers_pool_size_stat;
                      fibers_stack_high_watermark_stat; duration_us_stat;
                      client_queue_notify_period_stat]).
  { apply Forall_forall. intros k Hk. by apply assigned_in_range, Hfin. }
  repeat (apply Forall_cons in Hrange as [? Hrange]).
  set (s0 := after_proc_stat router env).
  assert (Hlen0 : length s0 = num_stats) by apply after_proc_stat_length.
  set (s1 := stat_write
               (stat_write (stat_write s0 fibers_allocated_stat (data_uint64 0))
                  fibers_pool_size_stat (data_uint64 0))
               fibers_stack_high_watermark_stat (data_uint64 0)).
  assert (Hlen1 : length s1 = num_stats).
  { subst s1. by rewrite !stat_write_length. }
  assert (Hin1 : Forall (fun slot => (slot < length s1)%nat) fiber_slots).
  { by apply stage_slots_in_range. }
  destruct (fibers_loop_values s1 (proxies router) Hfnd Hin1)
    as (Hfa & Hfp & Hfw & Hfd & Hfq).
  cbv zeta in Hfa, Hfp, Hfw, Hfd, Hfq.
  set (s2 := foldl fibers_step s1 (proxies router)) in *.
  assert (Hlen2 : length s2 = num_stats).
  { subst s2. destruct (fibers_loop_layout s1 (proxies router)) as [-> _]. done. }
  (* the values the loop starts from *)
  assert (Hs1a : stat_get_uint64 s1 fibers_allocated_stat = 0).
  { subst s1. unfold stat_get_uint64.
    rewrite !stat_at_write_ne by slots_taken.
    by rewrite stat_write_data_eq by (rewrite ?stat_write_length; lia). }
  assert (Hs1p : stat_get_uint64 s1 fibers_pool_size_stat = 0).
  { subst s1. unfold stat_get_uint64.
    rewrite !stat_at_write_ne by slots_taken.
    by rewrite stat_write_data_eq by (rewrite ?stat_write_length; lia). }
  assert (Hs1w : stat_get_uint64 s1 fibers_stack_high_watermark_stat = 0).
  { subst s1. unfold stat_get_uint64.
    by rewrite stat_write_data_eq by (rewrite ?stat_write_length; lia). }
  assert (Hs1d : stat_get_dbl s1 duration_us_stat
                 = stat_get_dbl stat_list duration_us_stat).
  { subst s1. unfold stat_get_dbl.
    rewrite !stat_at_write_ne by slots_taken.
    subst s0. rewrite after_proc_stat_fiber; [done | done |].
    unfold fiber_slots. slot_listed. }
  assert (Hs1q : stat_get_dbl s1 client_queue_notify_period_stat
                 = stat_get_dbl stat_list client_queue_notify_period_stat).
  { subst s1. unfold stat_get_dbl.
    rewrite !stat_at_write_ne by slots_taken.
    subst s0. rewrite after_proc_stat_fiber; [done | done |].
    unfold fiber_slots. slot_listed. }
  rewrite Hs1a in Hfa. rewrite Hs1p in Hfp. rewrite Hs1w in Hfw.
  rewrite Hs1d in Hfd. rewrite Hs1q in Hfq.
  (* the snapshot holds what [fiber_stats] leaves *)
  assert (Hfinal : fiber_stats router s0
                   = if (0 <? num_proxies router)%nat then
                       stat_write
                         (stat_write s2 duration_us_stat
                            (data_dbl
                               (Double.div (stat_get_dbl s2 duration_us_stat)
                                  (Double.of_Z (Z.of_nat (num_proxies router))))))
                         client_queue_notify_period_stat
                         (data_dbl
                            (Double.div
                               (get_dbl
                                  (data
                                     (stat_at
                                        (stat_write s2 duration_us_stat
                                           (data_dbl
                                              (Double.div
                                                 (stat_get_dbl s2 duration_us_stat)
                                                 (Double.of_Z
                                                    (Z.of_nat (num_proxies router))))))
                                        client_queue_notify_period_stat)))
                               (Double.of_Z (Z.of_nat (num_proxies router)))))
                     else s2).
  { reflexivity. }
  unfold stat_get_uint64, stat_get_dbl in *.
  rewrite !(snapshot_fiber router env snapshot)
    by (first [assumption | unfold fiber_slots; slot_listed]).
  fold s0. rewrite Hfinal. unfold stat_get_dbl.
  assert (Hsum : ∀ value : Proxy -> Z,
            foldl (fun sum pr => add64 sum (value pr)) 0 (proxies router)
            = wrap64 (Zsum (value <$> proxies router))).
  { intros value. rewrite (foldl_add64 value) by (pose proof two64_pos; lia).
    by rewrite Z.add_0_l. }
  rewrite Hsum in Hfa, Hfp.
  destruct (foldl_max64 stackHighWatermark (proxies router) 0)
    as (_ & Hall & Hex).
  rewrite <- Hfw in Hall, Hex.
  destruct (0 <? num_proxies router)%nat.
  - repeat match goal with
           | |- context [stat_at (stat_write ?s ?i ?d) ?j] =>
             rewrite (stat_at_write_ne s i j d) by slots_taken
           | |- context [data (stat_at (stat_write ?s ?i ?d) ?i)] =>
             rewrite (stat_write_data_eq s i d)
               by (rewrite ?stat_write_length; lia)
           end.
    simpl. rewrite Hfd, Hfq.
    repeat apply conj; try reflexivity; assumption.
  - rewrite Hfd, Hfq.
    repeat apply conj; try reflexivity; assumption.
Qed.

End StageClaims.

(** ** The query surface: recognised groups and their lines *)


Section QueryFacts.
Context `{mc_res_h} `{stats_h} `{stat_list_h}.





End QueryFacts.

(** ** Destinations: one entry per key, sums over the shards *)

Section DestinationFacts.
Context `{mc_res_h}.

Lemma fold_visits_dom (serverStats : gmap string ServerStat)
    (l : list (string * ProxyDestination)) :
  dom (fold_visits serverStats l) = dom serverStats ∪ list_to_set l.*1.
Proof.
  revert serverStats. induction l as [| [key pdstn] l IH]; intros serverStats.
  - simpl. by rewrite (right_id_L ∅ (∪)).
  - change (fold_visits serverStats ((key, pdstn) :: l))
      with (fold_visits (visit_destination serverStats key pdstn) l).
    rewrite IH. unfold visit_destination. rewrite dom_insert_L.
    rewrite fmap_cons, list_to_set_cons. simpl.
    by rewrite (comm_L (∪) {[key]} (dom serverStats)), <- (assoc_L (∪)).
Qed.

(** X19.  The destination lines of a reply are keyed by destination: there
    is one line for each key that some shard's destination map holds, no
    key twice and no other key. *)
Theorem server_lines_keys (router : McrouterInstanceBase) :
  NoDup (server_lines router).*1
  ∧ ∀ key, key ∈ (server_lines router).*1 ↔ key ∈ (visits router).*1.
Proof.
  assert (Hnames : (server_lines router).*1
                   = (map_to_list (collect_server_stats router)).*1).
  { unfold server_lines. rewrite <- list_fmap_compose.
    by apply list_fmap_ext. }
  rewrite Hnames. split; [apply NoDup_fst_map_to_list |].
  intros key.
  rewrite <- (elem_of_list_to_set (C := gset string) key (visits router).*1).
  assert (Hdom : dom (collect_server_stats router)
                 = list_to_set (visits router).*1).
  { rewrite collect_server_stats_visits, fold_visits_dom.
    by rewrite dom_empty_L, (left_id_L ∅ (∪)). }
  rewrite <- Hdom, elem_of_dom. split.
  - intros Hin. apply list_elem_of_fmap in Hin as ([k stat] & -> & Hin).
    apply elem_of_map_to_list in Hin. by eexists.
  - intros [stat Hstat]. apply list_elem_of_fmap. exists (key, stat).
    split; [done |]. by apply elem_of_map_to_list.
Qed.

End DestinationFacts.

(** ** Destinations: what an entry accumulates over the shards *)

Lemma foldl_omap {A B C} (g : A -> option B) (op : C -> B -> C)
    (l : list A) (acc : C) :
  foldl (fun acc x => match g x with Some y => op acc y | None => acc end) acc l
  = foldl op acc (omap g l).
Proof.
  revert acc. induction l as [| x l IH]; intros acc; [done |].
  cbn [foldl omap list_omap]. destruct (g x); cbn [foldl]; apply IH.
Qed.

Lemma foldl_count64 {B} (l : list B) (acc : Z) :
  0 ≤ acc < two64 ->
  foldl (fun acc _ => add64 acc 1) acc l = wrap64 (acc + Z.of_nat (length l)).
Proof.
  intros Hacc. rewrite (foldl_add64 (fun _ => 1) l acc Hacc). f_equal. f_equal.
  induction l as [| x l IH]; [done |].
  rewrite fmap_cons. change (Zsum (1 :: ((fun _ => 1) <$> l)))
    with (1 + Zsum ((fun _ : B => 1) <$> l)).
  rewrite IH. cbn [length]. lia.
Qed.

Lemma state_index_inj s s' : state_index s = state_index s' -> s = s'.
Proof. by destruct s, s'. Qed.

Lemma array_add_length a i d : length (array_add a i d) = length a.
Proof. unfold array_add. apply length_insert. Qed.

Lemma array_add_lookup a i d j :
  (i < length a)%nat ->
  default 0 (array_add a i d !! j)
  = if decide (j = i) then add64 (default 0 (a !! i)) d else default 0 (a !! j).
Proof.
  intros Hi. unfold array_add. case_decide as Hj.
  - subst j. by rewrite list_lookup_insert_eq.
  - by rewrite list_lookup_insert_ne.
Qed.

Lemma array_add_fold_length (src : list Z) (l : list nat) (acc : list Z) :
  length (foldl (fun acc j => array_add acc j (default 0 (src !! j))) acc l)
  = length acc.
Proof.
  revert acc. induction l as [| i l IH]; intros acc; [done |].
  cbn [foldl]. by rewrite IH, array_add_length.
Qed.

Lemma array_add_fold_lookup (src : list Z) (l : list nat) (acc : list Z) j :
  NoDup l ->
  Forall (fun i => (i < length acc)%nat) l ->
  default 0 (foldl (fun acc j => array_add acc j (default 0 (src !! j))) acc l !! j)
  = if decide (j ∈ l)
    then add64 (default 0 (acc !! j)) (default 0 (src !! j))
    else default 0 (acc !! j).
Proof.
  revert acc. induction l as [| i l IH]; intros acc Hnd Hall.
  - by rewrite decide_False by apply not_elem_of_nil.
  - apply NoDup_cons in Hnd as [Hi Hnd]. apply Forall_cons in Hall as [Hlt Hall].
    cbn [foldl]. rewrite IH; [| done |].
    2: { rewrite array_add_length. done. }
    rewrite !array_add_lookup by done.
    destruct (decide (j = i)) as [-> | Hne].
    + rewrite decide_False by done.
      by rewrite decide_True by apply list_elem_of_here.
    + destruct (decide (j ∈ l)) as [Hin | Hout].
      * by rewrite decide_True by (by apply list_elem_of_further).
      * rewrite decide_False; [done |].
        intros Hin. apply elem_of_cons in Hin as [? | ?]; contradiction.
Qed.

Section AccumulationFacts.
Context `{mc_res_h}.

Lemma add_results_length acc src : length (add_results acc src) = length acc.
Proof. apply array_add_fold_length. Qed.

Lemma add_results_lookup acc src j :
  length acc = mc_nres ->
  (j < mc_nres)%nat ->
  default 0 (add_results acc src !! j)
  = add64 (default 0 (acc !! j)) (default 0 (src !! j)).
Proof.
  intros Hlen Hj. unfold add_results.
  rewrite array_add_fold_lookup.
  - rewrite decide_True; [done |]. apply elem_of_seq. lia.
  - apply NoDup_seq.
  - apply Forall_forall. intros i Hi. apply elem_of_seq in Hi. lia.
Qed.

(** What a run of visits makes of a field of the entry of [key], for a field
    each visit updates from its own earlier value. *)
Lemma fold_visits_field {X} (field : ServerStat -> X)
    (update : X -> ProxyDestination -> X) :
  (∀ serverStats key pdstn,
     field (server_stat_of (visit_destination serverStats key pdstn) key)
     = update (field (server_stat_of serverStats key)) pdstn) ->
  ∀ l serverStats key,
    field (server_stat_of (fold_visits serverStats l) key)
    = foldl update (field (server_stat_of serverStats key))
        (filter (fun kd => kd.1 = key) l).*2.
Proof.
  intros Hstep l. induction l as [| [k pdstn] l IH]; intros serverStats key.
  - done.
  - change (fold_visits serverStats ((k, pdstn) :: l))
      with (fold_visits (visit_destination serverStats k pdstn) l).
    rewrite IH. destruct (decide (k = key)) as [-> | Hne].
    + rewrite filter_cons_True by done. rewrite fmap_cons. cbn [foldl].
      by rewrite Hstep.
    + rewrite filter_cons_False by done.
      unfold server_stat_of at 1.
      by rewrite visit_destination_other.
Qed.

Lemma server_stat_field {X} (field : ServerStat -> X)
    (update : X -> ProxyDestination -> X)
    (router : McrouterInstanceBase) (key : string) (stat : ServerStat) :
  (∀ serverStats key pdstn,
     field (server_stat_of (visit_destination serverStats key pdstn) key)
     = update (field (server_stat_of serverStats key)) pdstn) ->
  collect_server_stats router !! key = Some stat ->
  field stat = foldl update (field ServerStat_init) (shard_views router key).
Proof.
  intros Hstep Hstat.
  pose proof (fold_visits_field field update Hstep (visits router) ∅ key) as Hfold.
  rewrite <- collect_server_stats_visits in Hfold.
  unfold server_stat_of in Hfold at 1 2.
  by rewrite Hstat, lookup_empty in Hfold.
Qed.

Ltac visit_step :=
  intros ? ? ?; unfold server_stat_of, visit_destination;
  rewrite lookup_insert_eq; cbn [default results states sumLatencies
    cntLatencies pendingRequestsCount inflightRequestsCount sumRetransPerKByte
    cntRetransPerKByte maxRetransPerKByte minRetransPerKByte].

(** X20.  The entry of a destination counts the pending and the in-flight
    requests of all its views: each of the two fields is the sum, modulo
    2^64, of what the shards that hold the destination report. *)
Theorem server_stats_request_counts (router : McrouterInstanceBase)
    (key : string) (stat : ServerStat) :
  collect_server_stats router !! key = Some stat ->
  let views := shard_views router key in
  pendingRequestsCount stat = wrap64 (Zsum (pd_pendingRequestCount <$> views))
  ∧ inflightRequestsCount stat
    = wrap64 (Zsum (pd_inflightRequestCount <$> views)).
Proof.
  intros Hstat views.
  assert (Hzero : 0 ≤ 0 < two64) by (unfold two64; lia).
  split.
  - rewrite (server_stat_field pendingRequestsCount
               (fun acc pdstn => add64 acc (pd_pendingRequestCount pdstn))
               router key stat); [| by visit_step | done].
    by rewrite (foldl_add64 _ _ 0 Hzero).
  - rewrite (server_stat_field inflightRequestsCount
               (fun acc pdstn => add64 acc (pd_inflightRequestCount pdstn))
               router key stat); [| by visit_step | done].
    by rewrite (foldl_add64 _ _ 0 Hzero).
Qed.

(** X21.  The latency and retransmission fields of an entry take in only
    the views that have a value: views without an average latency, and
    views whose retransmission ratio is negative or not a number, change
    neither the sums, nor the counts, nor the extremes. *)
Theorem server_stats_latency_retrans (router : McrouterInstanceBase)
    (key : string) (stat : ServerStat) :
  collect_server_stats router !! key = Some stat ->
  let views := shard_views router key in
  sumLatencies stat = foldl Double.add Double.zero (latencies views)
  ∧ cntLatencies stat = wrap64 (Z.of_nat (length (latencies views)))
  ∧ sumRetransPerKByte stat
    = foldl Double.add Double.zero (retrans_ratios views)
  ∧ cntRetransPerKByte stat
    = wrap64 (Z.of_nat (length (retrans_ratios views)))
  ∧ maxRetransPerKByte stat
    = foldl Double.max Double.zero (retrans_ratios views)
  ∧ minRetransPerKByte stat
    = foldl Double.min Double.infinity (retrans_ratios views).
Proof.
  intros Hstat views.
  assert (Hzero : 0 ≤ 0 < two64) by (unfold two64; lia).
  pose (ratio := fun view =>
          if Double.leb Double.zero (pd_retransPerKByte view)
          then Some (pd_retransPerKByte view) else None).
  repeat apply conj.
  - rewrite (server_stat_field sumLatencies
               (fun acc pdstn => match pd_avgLatency pdstn with
                                 | Some l => Double.add acc l
                                 | None => acc
                                 end) router key stat); [| by visit_step | done].
    apply foldl_omap.
  - rewrite (server_stat_field cntLatencies
               (fun acc pdstn => match pd_avgLatency pdstn with
                                 | Some _ => add64 acc 1
                                 | None => acc
                                 end) router key stat); [| by visit_step | done].
    rewrite (foldl_omap pd_avgLatency (fun acc _ => add64 acc 1)).
    by rewrite (foldl_count64 _ 0 Hzero).
  - rewrite (server_stat_field sumRetransPerKByte
               (fun acc pdstn => match ratio pdstn with
                                 | Some val => Double.add acc val
                                 | None => acc
                                 end) router key stat); [| | done].
    + apply foldl_omap.
    + visit_step. unfold ratio.
      by destruct (Double.leb Double.zero (pd_retransPerKByte pdstn)).
  - rewrite (server_stat_field cntRetransPerKByte
               (fun acc pdstn => match ratio pdstn with
                                 | Some _ => add64 acc 1
                                 | None => acc
                                 end) router key stat); [| | done].
    + rewrite (foldl_omap ratio (fun acc _ => add64 acc 1)).
      by rewrite (foldl_count64 _ 0 Hzero).
    + visit_step. unfold ratio.
      by destruct (Double.leb Double.zero (pd_retransPerKByte pdstn)).
  - rewrite (server_stat_field maxRetransPerKByte
               (fun acc pdstn => match ratio pdstn with
                                 | Some val => Double.max acc val
                                 | None => acc
                                 end) router key stat); [| | done].
    + apply foldl_omap.
    + visit_step. unfold ratio.
      by destruct (Double.leb Double.zero (pd_retransPerKByte pdstn)).
  - rewrite (server_stat_field minRetransPerKByte
               (fun acc pdstn => match ratio pdstn with
                                 | Some val => Double.min acc val
                                 | None => acc
                                 end) router key stat); [| | done].
    + apply foldl_omap.
    + visit_step. unfold ratio.
      by destruct (Double.leb Double.zero (pd_retransPerKByte pdstn)).
Qed.

Lemma states_tally (s : State) (views : list ProxyDestination) (acc : list Z) :
  length acc = kNumStates ->
  0 ≤ default 0 (acc !! state_index s) < two64 ->
  default 0 (foldl (fun acc pdstn =>
                      array_add acc (state_index (pd_state pdstn)) 1)
               acc views !! state_index s)
  = wrap64 (default 0 (acc !! state_index s)
            + Z.of_nat (length (in_state s views))).
Proof.
  revert acc. induction views as [| view views IH]; intros acc Hlen Hacc.
  - cbn. rewrite Z.add_0_r. by rewrite wrap64_small.
  - cbn [foldl].
    assert (Hidx : (state_index (pd_state view) < length acc)%nat).
    { rewrite Hlen. unfold kNumStates. destruct (pd_state view); simpl; lia. }
    rewrite IH.
    2: { by rewrite array_add_length. }
    2: { rewrite array_add_lookup by done. case_decide; [| done].
         apply wrap64_range. }
    rewrite array_add_lookup by done. unfold in_state.
    destruct (decide (pd_state view = s)) as [Heq | Hne].
    + rewrite filter_cons_True by done. rewrite decide_True by (by rewrite Heq).
      rewrite Heq. unfold add64. rewrite wrap64_add_l. f_equal.
      cbn [length]. lia.
    + rewrite filter_cons_False by done.
      rewrite decide_False; [done |].
      intros Hidx'. apply Hne. symmetry. by apply state_index_inj.
Qed.

(** X22.  The [states] array of an entry is a tally of its views by
    connection state: the cell of a state holds, modulo 2^64, the number of
    shards that see the destination in that state. *)
Theorem server_stats_state_tally (router : McrouterInstanceBase)
    (key : string) (stat : ServerStat) (s : State) :
  collect_server_stats router !! key = Some stat ->
  default 0 (states stat !! state_index s)
  = wrap64 (Z.of_nat (length (in_state s (shard_views router key)))).
Proof.
  intros Hstat.
  rewrite (server_stat_field states
             (fun acc pdstn => array_add acc (state_index (pd_state pdstn)) 1)
             router key stat); [| by visit_step | done].
  assert (Hcell : default 0 (states ServerStat_init !! state_index s) = 0).
  { by destruct s. }
  rewrite states_tally.
  - by rewrite Hcell.
  - done.
  - rewrite Hcell. unfold two64. lia.
Qed.

Lemma results_sums (j : nat) (views : list ProxyDestination) (acc : list Z) :
  length acc = mc_nres ->
  (j < mc_nres)%nat ->
  0 ≤ default 0 (acc !! j) < two64 ->
  default 0 (foldl (fun acc pdstn =>
                      match pd_results pdstn with
                      | Some src => add_results acc src
                      | None => acc
                      end) acc views !! j)
  = wrap64 (default 0 (acc !! j) + Zsum (result_count j <$> views)).
Proof.
  intros Hlen Hj. revert acc Hlen.
  induction views as [| view views IH]; intros acc Hlen Hacc.
  - cbn. rewrite Z.add_0_r. by rewrite wrap64_small.
  - cbn [foldl]. rewrite fmap_cons.
    change (Zsum (result_count j view :: (result_count j <$> views)))
      with (result_count j view + Zsum (result_count j <$> views)).
    unfold result_count at 1. destruct (pd_results view) as [src |].
    + rewrite IH.
      * rewrite add_results_lookup by done. unfold add64.
        rewrite wrap64_add_l. f_equal. lia.
      * by rewrite add_results_length.
      * rewrite add_results_lookup by done. apply wrap64_range.
    + by rewrite IH.
Qed.

(** X23.  The [results] array of an entry adds up the result counters of
    its views: the cell of a result code below [mc_nres] holds, modulo 2^64,
    the sum of what the shards that publish counters report for it; a view
    without counters adds nothing. *)
Theorem server_stats_result_sums (router : McrouterInstanceBase)
    (key : string) (stat : ServerStat) (j : nat) :
  collect_server_stats router !! key = Some stat ->
  (j < mc_nres)%nat ->
  default 0 (results stat !! j)
  = wrap64 (Zsum (result_count j <$> shard_views router key)).
Proof.
  intros Hstat Hj.
  rewrite (server_stat_field results
             (fun acc pdstn => match pd_results pdstn with
                               | Some src => add_results acc src
                               | None => acc
                               end) router key stat); [| by visit_step | done].
  assert (Hcell : default 0 (results ServerStat_init !! j) = 0).
  { cbn [results ServerStat_init]. by rewrite lookup_replicate_2. }
  rewrite results_sums.
  - by rewrite Hcell.
  - apply length_replicate.
  - done.
  - rewrite Hcell. unfold two64. lia.
Qed.

End AccumulationFacts.

(** ** Single slots: set, get and the thread-safe counters *)

Lemma stat_write_write stats idx d d' :
  stat_write (stat_write stats idx d) idx d' = stat_write stats idx d'.
Proof.
  destruct (decide (idx < length stats)%nat) as [Hlt | Hge].
  - unfold stat_write at 1. rewrite stat_at_write_eq by done.
    unfold stat_write. by rewrite list_insert_insert_eq.
  - unfold stat_write.
    by rewrite !list_insert_ge by (rewrite ?length_insert; lia).
Qed.

Lemma stat_write_same stats idx :
  stat_write stats idx (data (stat_at stats idx)) = stats.
Proof.
  destruct (decide (idx < length stats)%nat) as [Hlt | Hge].
  - unfold stat_write, stat_at.
    destruct (lookup_lt_is_Some_2 stats idx Hlt) as [stat Hstat].
    rewrite Hstat. cbn [default]. apply list_insert_id.
    rewrite Hstat. by destruct stat.
  - unfold stat_write. by rewrite list_insert_ge by lia.
Qed.

Lemma add64_incr_decr v :
  0 ≤ v < two64 ->
  add64 (add64 v 1) (wrap64 (-1)) = v ∧ add64 (add64 v (wrap64 (-1))) 1 = v.
Proof.
  intros Hv. unfold add64, wrap64.
  rewrite Zplus_mod_idemp_r, Zplus_mod_idemp_l.
  rewrite Zplus_mod_idemp_r, Zplus_mod_idemp_l.
  replace (v + 1 + -1) with v by lia. replace (v + -1 + 1) with v by lia.
  by rewrite Z.mod_small.
Qed.

(** X24.  On a slot that holds an unsigned value, [stat_decr_safe] undoes
    [stat_incr_safe] and the other way round, also across the ends of the
    range: incrementing the largest value gives zero, decrementing zero
    gives the largest value, and the inverse call restores the array. *)
Theorem stat_incr_decr_safe (stats : list stat_t) (slot : nat) (v : Z) :
  data (stat_at stats slot) = data_uint64 v ->
  0 ≤ v < two64 ->
  stat_decr_safe (stat_incr_safe stats slot) slot = stats
  ∧ stat_incr_safe (stat_decr_safe stats slot) slot = stats
  ∧ ((slot < length stats)%nat ->
     stat_get_uint64 (stat_incr_safe stats slot) slot = wrap64 (v + 1)
     ∧ stat_get_uint64 (stat_decr_safe stats slot) slot = wrap64 (v - 1)).
Proof.
  intros Hdata Hv.
  destruct (add64_incr_decr v Hv) as [Hback Hforth].
  assert (Hget : stat_get_uint64 stats slot = v).
  { unfold stat_get_uint64. by rewrite Hdata. }
  destruct (decide (slot < length stats)%nat) as [Hlt | Hge].
  - assert (Hincr : stat_get_uint64 (stat_incr_safe stats slot) slot = add64 v 1).
    { unfold stat_get_uint64, stat_incr_safe.
      rewrite stat_write_data_eq by done. by rewrite Hget. }
    assert (Hdecr : stat_get_uint64 (stat_decr_safe stats slot) slot
                    = add64 v (wrap64 (-1))).
    { unfold stat_get_uint64, stat_decr_safe.
      rewrite stat_write_data_eq by done. by rewrite Hget. }
    split; [| split].
    + unfold stat_decr_safe. rewrite Hincr, Hback. unfold stat_incr_safe.
      rewrite stat_write_write, <- Hdata. apply stat_write_same.
    + unfold stat_incr_safe. rewrite Hdecr, Hforth. unfold stat_decr_safe.
      rewrite stat_write_write, <- Hdata. apply stat_write_same.
    + intros _. rewrite Hincr, Hdecr. split; [done |].
      unfold add64, wrap64. rewrite Zplus_mod_idemp_r. f_equal.
  - unfold stat_decr_safe, stat_incr_safe, stat_write.
    rewrite !list_insert_ge by (rewrite ?length_insert; lia).
    split; [done |]. split; [done |]. lia.
Qed.

(** X25.  [stat_set_uint64] writes only where the slot is unsigned, and
    aborts otherwise.  Where it writes, [stat_get_uint64] reads the value
    back, the array keeps its slots with their names, groups, types and
    aggregation flags, and every other slot is as before. *)
Theorem stat_set_get_uint64 (stats : list stat_t) (slot : nat) (value : Z) :
  (slot < length stats)%nat ->
  (type (stat_at stats slot) ≠ stat_uint64 ->
   stat_set_uint64 stats slot value = None)
  ∧ (type (stat_at stats slot) = stat_uint64 ->
     ∃ after,
       stat_set_uint64 stats slot value = Some after
       ∧ stat_get_uint64 after slot = value
       ∧ same_layout stats after
       ∧ untouched [slot] stats after).
Proof.
  intros Hlt. unfold stat_set_uint64. split; intros Htype.
  - by rewrite decide_False.
  - rewrite decide_True by done. eexists. split; [reflexivity |].
    split; [| split].
    + unfold stat_get_uint64. by rewrite stat_write_data_eq.
    + split; [apply stat_write_length |]. intros j. apply stat_write_meta.
    + intros j Hj. apply stat_at_write_ne. intros ->. apply Hj.
      apply list_elem_of_here.
Qed.

(** ** [get_proc_stat] *)

(** X26.  [get_proc_stat] returns [0] or [-1], and [-1] exactly when the
    status file does not open or fewer than six fields are converted; the
    resident size it reports is never negative and fits 64 bits. *)
Theorem get_proc_stat_code (env : host_env) :
  ((get_proc_stat env).1 = 0 ∨ (get_proc_stat env).1 = -1)
  ∧ ((get_proc_stat env).1 = -1 ↔ proc_stat_unreadable env)
  ∧ 0 ≤ rss (get_proc_stat env).2 < two64.
Proof.
  assert (Hzero : 0 ≤ 0 < two64) by (unfold two64; lia).
  unfold get_proc_stat, proc_stat_unreadable.
  destruct (proc_stat_scan env) as [conv |] eqn:Hscan; cbv zeta.
  - destruct (Z.eqb_spec (Z.of_nat (length (take 6 conv))) 6) as [Hsix | Hless];
      cbn [negb fst snd rss].
    + rewrite length_take in Hsix.
      split; [by left |]. split.
      * split; [done |]. intros [? | (conv' & Hconv & Hlen)]; [done |].
        injection Hconv as <-. lia.
      * destruct (scanned (take 6 conv) 5 0 <? 0); [done | apply wrap64_range].
    + rewrite length_take in Hless.
      split; [by right |]. split; [| done].
      split; [| done]. intros _. right. exists conv. split; [done |]. lia.
  - cbn [fst snd rss]. split; [by right |]. split; [| done].
    split; [by left | done].
Qed.

(** X27.  Where the status file yields six fields, [get_proc_stat] returns
    [0] with the two fault counts and the virtual size as read, the two CPU
    times as ticks divided by the clock rate, and the resident size in
    bytes: zero for a negative page count, pages times the page size where
    that product fits a signed 64-bit integer.  Fields after the sixth are
    not looked at. *)
Theorem get_proc_stat_success (env : host_env) (conv : list Z) :
  proc_stat_scan env = Some conv ->
  (6 ≤ length conv)%nat ->
  let field k := default 0 (conv !! k) in
  let ps_data := (get_proc_stat env).2 in
  (get_proc_stat env).1 = 0
  ∧ num_minor_faults ps_data = field 0%nat
  ∧ num_major_faults ps_data = field 1%nat
  ∧ user_time_sec ps_data
    = Double.div (Double.of_Z (field 2%nat))
        (Double.of_Z (sysconf_SC_CLK_TCK env))
  ∧ system_time_sec ps_data
    = Double.div (Double.of_Z (field 3%nat))
        (Double.of_Z (sysconf_SC_CLK_TCK env))
  ∧ vsize ps_data = field 4%nat
  ∧ (field 5%nat < 0 -> rss ps_data = 0)
  ∧ (0 ≤ field 5%nat * sysconf_SC_PAGESIZE env < 2 ^ 63 ->
     0 ≤ field 5%nat ->
     rss ps_data = field 5%nat * sysconf_SC_PAGESIZE env).
Proof.
  intros Hscan Hlen field ps_data. subst ps_data.
  assert (Hfield : ∀ k, (k < 6)%nat -> scanned (take 6 conv) k 0 = field k).
  { intros k Hk. unfold scanned, field. by rewrite lookup_take_lt. }
  unfold get_proc_stat. rewrite Hscan. cbv zeta.
  assert (Hsix : (Z.of_nat (length (take 6 conv)) =? 6) = true).
  { rewrite length_take. apply Z.eqb_eq. lia. }
  rewrite Hsix. cbn [negb fst snd num_minor_faults num_major_faults
    user_time_sec system_time_sec vsize rss].
  rewrite !Hfield by lia.
  repeat apply conj; try reflexivity.
  - intros Hneg. by destruct (Z.ltb_spec (field 5%nat) 0); [| lia].
  - intros Hfit Hpos. destruct (Z.ltb_spec (field 5%nat) 0); [lia |].
    unfold smul64. rewrite swrap64_small by lia.
    apply wrap64_small. unfold two64. lia.
Qed.

(** ** The snapshot: resource usage *)

Section ResourceFacts.
Context `{stats_h} `{stat_list_h}.

Lemma process_wide_stats_rusage router env stats :
  NoDup process_slots ->
  Forall (fun slot => (slot < length stats)%nat) process_slots ->
  let after := process_wide_stats router env stats in
  data (stat_at after rusage_user_stat)
  = data_dbl (Double.add (Double.of_Z (ru_utime_tv_sec env))
                (Double.div (Double.of_Z (ru_utime_tv_usec env)) Double.million))
  ∧ data (stat_at after rusage_system_stat)
    = data_dbl (Double.add (Double.of_Z (ru_stime_tv_sec env))
                  (Double.div (Double.of_Z (ru_stime_tv_usec env))
                     Double.million)).
Proof.
  unfold process_slots. intros Hnd Hin. distinct_slots Hnd Hin.
  cbv zeta. unfold process_wide_stats. cbv zeta.
  repeat apply conj; read_slot; reflexivity.
Qed.

Lemma snapshot_ps router env snapshot k :
  prepare_stats router env = Some snapshot ->
  assigned_slots_ok ->
  k ∈ ps_slots ->
  stat_at snapshot k = stat_at (after_proc_stat router env) k.
Proof.
  intros Hsnap (Hnd & _ & Hnosum) Hk.
  destruct (assigned_slots_split Hnd) as (_ & _ & _ & _ & _ & _ & Hf & _).
  rewrite (snapshot_assigned router env snapshot)
    by (first [assumption | apply in_assigned_slots; auto 8]).
  rewrite before_aggregation_stages.
  apply fiber_stats_untouched. intros Hfib.
  by destruct (Hf k Hfib) as (_ & _ & _ & Hps).
Qed.

(** X28.  The resource slots of a snapshot: the two [getrusage] times are
    seconds plus microseconds over a million, and the six process-status
    slots hold what [get_proc_stat] left in [ps_data], whatever it
    returned. *)
Theorem prepare_stats_resource_usage (router : McrouterInstanceBase)
    (env : host_env) (snapshot : list stat_t) :
  prepare_stats router env = Some snapshot ->
  assigned_slots_ok ->
  let seconds (sec usec : Z) :=
    Double.add (Double.of_Z sec)
      (Double.div (Double.of_Z usec) Double.million) in
  let ps_data := (get_proc_stat env).2 in
  stat_get_dbl snapshot rusage_user_stat
  = seconds (ru_utime_tv_sec env) (ru_utime_tv_usec env)
  ∧ stat_get_dbl snapshot rusage_system_stat
    = seconds (ru_stime_tv_sec env) (ru_stime_tv_usec env)
  ∧ stat_get_uint64 snapshot ps_num_minor_faults_stat = num_minor_faults ps_data
  ∧ stat_get_uint64 snapshot ps_num_major_faults_stat = num_major_faults ps_data
  ∧ stat_get_dbl snapshot ps_user_time_sec_stat = user_time_sec ps_data
  ∧ stat_get_dbl snapshot ps_system_time_sec_stat = system_time_sec ps_data
  ∧ stat_get_uint64 snapshot ps_rss_stat = rss ps_data
  ∧ stat_get_uint64 snapshot ps_vsize_stat = vsize ps_data.
Proof.
  intros Hsnap Hok seconds ps_data. subst seconds ps_data.
  pose proof Hok as (Hnd & _).
  destruct (assigned_slots_split Hnd) as (_ & Hprocess & Hps & _).
  destruct (process_wide_stats_rusage router env (after_ratios router))
    as (Huser & Hsystem); [done | |].
  { apply stage_slots_in_range; [done | apply after_ratios_length |].
    intros k Hk. apply in_assigned_slots. auto. }
  destruct (proc_stat_stats_data env (after_process router env))
    as (Hminor & Hmajor & Hutime & Hstime & Hrss & Hvsize); [done | |].
  { apply stage_slots_in_range; [done | apply after_process_length |].
    intros k Hk. apply in_assigned_slots. auto 8. }
  unfold stat_get_uint64, stat_get_dbl.
  rewrite !(snapshot_process router env snapshot)
    by (first [assumption | unfold process_slots; slot_listed]).
  rewrite !(snapshot_ps router env snapshot)
    by (first [assumption | unfold ps_slots; slot_listed]).
  unfold after_proc_stat. rewrite Hminor, Hmajor, Hutime, Hstime, Hrss, Hvsize.
  unfold after_process. rewrite Huser, Hsystem.
  repeat apply conj; reflexivity.
Qed.

End ResourceFacts.

(** ** Rates on a single shard *)

Section SingleShardFacts.
Context `{stats_h}.

(** X29.  On a router with a single shard the two rate functions agree:
    whatever the aggregation flag of the slot, the shard's own rate is the
    aggregated rate, as long as the window count is an unsigned 64-bit
    value. *)
Theorem stats_rate_value_single_shard (router : McrouterInstanceBase)
    (proxy : Proxy) (idx : nat) :
  proxies router = [proxy] ->
  0 ≤ window_at proxy idx < two64 ->
  stats_rate_value router proxy idx = stats_aggregate_rate_value router idx.
Proof.
  intros Hone Hwindow.
  assert (Hbins : get_num_bins_used router = num_bins_used proxy).
  { unfold get_num_bins_used, num_proxies, getProxy. by rewrite Hone. }
  unfold stats_rate_value, stats_aggregate_rate_value. rewrite Hbins.
  destruct (num_bins_used proxy =? 0); [done |].
  destruct (aggregate (stat_at (stats proxy) idx)); [done |].
  rewrite Hone. cbn [foldl]. unfold add64. rewrite Z.add_0_l.
  by rewrite wrap64_small.
Qed.

End SingleShardFacts.

(** * Examples on the sample table *)

#[local] Existing Instance Sample.res.
#[local] Existing Instance Sample.masks.
#[local] Existing Instance Sample.slots.
#[local] Existing Instance Sample.keys.

(** Three replies on a fresh context: only the first one acts. *)
Lemma sendReply_at_most_once_witness :
  let w := Sample.a_world false Sample.fresh_proxy in
  let replies := [Sample.ok_reply; Sample.error_reply; Sample.ok_reply] in
  foldl sendReply w replies = sendReply w Sample.ok_reply
  ∧ replies_of (trace (foldl sendReply w replies)) = [Sample.ok_reply].
Proof.
  intros w replies.
  destruct (sendReply_at_most_once w replies) as (Hfirst & _ & _).
  split.
  - apply (Hfirst Sample.ok_reply [Sample.error_reply; Sample.ok_reply]).
    reflexivity.
  - reflexivity.
Defined.

(** A successful reply on a fresh context: the success counter reads 1, the
    error counter 0. *)
Lemma sendReply_counts_outcome_witness :
  let w := Sample.a_world false Sample.fresh_proxy in
  recording (ctx w) = false
  ∧ replied_ (ctx w) = false
  ∧ NoDup request_slots
  ∧ Forall (fun slot => (slot < length (stats (proxy w)))%nat) request_slots
  ∧ stat_get_uint64 (stats (proxy (sendReply w Sample.ok_reply)))
      request_success_stat = 1
  ∧ stat_get_uint64 (stats (proxy (sendReply w Sample.ok_reply)))
      request_error_stat = 0.
Proof.
  intros w.
  assert (Hrec : recording (ctx w) = false) by reflexivity.
  assert (Hrep : replied_ (ctx w) = false) by reflexivity.
  assert (Hnd : NoDup request_slots) by compute_done.
  assert (Hin : Forall (fun slot => (slot < length (stats (proxy w)))%nat)
                  request_slots)
    by compute_done.
  destruct (sendReply_counts_outcome w Sample.ok_reply Hrec Hrep Hnd Hin)
    as (_ & _ & Houtcome & _).
  simpl in Houtcome. destruct Houtcome as (Hsuccess & _ & Herror & _).
  split; [exact Hrec |]. split; [exact Hrep |].
  split; [exact Hnd |]. split; [exact Hin |].
  split; [exact Hsuccess | exact Herror].
Defined.

(** A valid request on a proxy that is being destroyed: one reply,
    [mc_res_unknown], and nothing dispatched. *)
Lemma startProcessing_teardown_witness :
  let w := Sample.a_world false Sample.closing_proxy in
  req_ (ctx w) = Some Sample.a_request
  ∧ (precheckRequest w Sample.a_request).1 = true
  ∧ being_destroyed (proxy w) = true
  ∧ recording (ctx w) = false
  ∧ replied_ (ctx w) = false
  ∧ replies_of (trace (startProcessing w Sample.a_request))
    = [Reply_of mc_res_unknown]
  ∧ filter is_dispatch (trace (startProcessing w Sample.a_request)) = [].
Proof.
  intros w.
  assert (Hreq : req_ (ctx w) = Some Sample.a_request) by reflexivity.
  assert (Hok : (precheckRequest w Sample.a_request).1 = true) by reflexivity.
  assert (Hdown : being_destroyed (proxy w) = true) by reflexivity.
  assert (Hrec : recording (ctx w) = false) by reflexivity.
  assert (Hrep : replied_ (ctx w) = false) by reflexivity.
  destruct (startProcessing_teardown w Sample.a_request Hreq Hok Hdown)
    as (Hnone & Hone).
  destruct (Hone Hrec Hrep) as (_ & Hreplies & _).
  split; [exact Hreq |]. split; [exact Hok |]. split; [exact Hdown |].
  split; [exact Hrec |]. split; [exact Hrep |].
  split; [exact Hreplies | exact Hnone].
Defined.

(** C8 as stated fails on a recording context: validation succeeds, the
    proxy is being destroyed, and no reply is delivered. *)
Lemma startProcessing_teardown_recording :
  let w := Sample.a_world true Sample.closing_proxy in
  req_ (ctx w) = Some Sample.a_request
  ∧ (precheckRequest w Sample.a_request).1 = true
  ∧ being_destroyed (proxy w) = true
  ∧ replies_of (trace (startProcessing w Sample.a_request)) = []
  ∧ replied_ (ctx (startProcessing w Sample.a_request)) = false.
Proof. repeat split. Qed.

(** The token ["bogus"] is not a group. *)
Lemma stats_reply_unknown_group_witness :
  "bogus" ≠ "version"
  ∧ ("bogus" ∉ recognized_groups)
  ∧ (stats_reply Sample.fresh_router Sample.host_without_proc
       Sample.fresh_proxy "bogus"
     = {| snapshots_prepared := 0;
          reply := Some {| result := mc_res_client_error;
                           message := "bad stats command";
                           reply_stats := [] |} |}).
Proof.
  assert (Hversion : "bogus" ≠ "version") by discriminate.
  assert (Hgroup : "bogus" ∉ recognized_groups) by compute_done.
  split; [exact Hversion |]. split; [exact Hgroup |].
  exact (stats_reply_unknown_group Sample.fresh_router Sample.host_without_proc
           Sample.fresh_proxy "bogus" Hversion Hgroup).
Defined.

(** Fresh shards have used no bin: the rate of slot 0 is [+0.0], no division
    made. *)
Lemma stats_rate_value_no_bins_witness :
  num_bins_used Sample.fresh_proxy = 0
  ∧ get_num_bins_used Sample.fresh_router = 0
  ∧ stats_rate_value Sample.fresh_router Sample.fresh_proxy 0
    = (Double.zero, [])
  ∧ stats_aggregate_rate_value Sample.fresh_router 0 = (Double.zero, []).
Proof.
  assert (Hproxy : num_bins_used Sample.fresh_proxy = 0) by reflexivity.
  assert (Hrouter : get_num_bins_used Sample.fresh_router = 0) by reflexivity.
  destruct (stats_rate_value_no_bins Sample.fresh_router Sample.fresh_proxy 0)
    as (Hown & Hagg & _).
  split; [exact Hproxy |]. split; [exact Hrouter |].
  split; [exact (proj1 (Hown Hproxy)) | exact (Hagg Hrouter)].
Defined.

(** C2 as stated fails when the two records fall into the same bin: with 3
    on one shard and 5 on the other the aggregated max is 8, not the largest
    shard maximum 5. *)
Lemma stats_aggregate_max_value_same_bin :
  stats_aggregate_max_value Sample.same_bin_router 0 = 8
  ∧ maxOfShardMaxes Sample.same_bin_router 0 = 5
  ∧ stats_aggregate_max_value Sample.same_bin_router 0
    ≠ maxOfShardMaxes Sample.same_bin_router 0.
Proof. split; [reflexivity |]. split; [reflexivity |]. discriminate. Qed.

(** 3 in bin 0 of shard 0 and 5 in bin 1 of shard 1: the aggregated max
    is 5. *)
Lemma stats_aggregate_max_value_bin_sums_witness :
  let router := Sample.two_bin_router in
  (0 < num_proxies router)%nat
  ∧ (1 < num_proxies router)%nat
  ∧ 0%nat ∈ used_bins router
  ∧ 1%nat ∈ used_bins router
  ∧ 0 ≤ 3 < 5
  ∧ 5 < two64
  ∧ (∀ p proxy j, proxies router !! p = Some proxy -> j ∈ used_bins router ->
       bin_at proxy 0 j
       = (if decide (p = 0%nat ∧ j = 0%nat) then 3 else 0)
         + (if decide (p = 1%nat ∧ j = 1%nat) then 5 else 0))
  ∧ stats_aggregate_max_value router 0 = 5.
Proof.
  intros router.
  assert (HS : (0 < num_proxies router)%nat) by (vm_compute; lia).
  assert (HT : (1 < num_proxies router)%nat) by (vm_compute; lia).
  assert (Hj1 : 0%nat ∈ used_bins router) by compute_done.
  assert (Hj2 : 1%nat ∈ used_bins router) by compute_done.
  assert (Hab : 0 ≤ 3 < 5) by lia.
  assert (Hb : 5 < two64) by reflexivity.
  assert (Hbins : ∀ p proxy j,
            proxies router !! p = Some proxy -> j ∈ used_bins router ->
            bin_at proxy 0 j
            = (if decide (p = 0%nat ∧ j = 0%nat) then 3 else 0)
              + (if decide (p = 1%nat ∧ j = 1%nat) then 5 else 0)).
  { intros p proxy j Hp Hj.
    change (used_bins router) with [0%nat; 1%nat] in Hj.
    destruct p as [| [| p]]; simpl in Hp; [| | done];
      injection Hp as <-;
      (destruct j as [| [| j]];
       [ reflexivity | reflexivity
       | exfalso;
         repeat (apply elem_of_cons in Hj as [Hj | Hj]; [discriminate |]);
         by apply elem_of_nil in Hj ]). }
  destruct (stats_aggregate_max_value_bin_sums router 0) as (_ & _ & _ & Htwo).
  repeat (split; [assumption |]).
  exact (Htwo 0%nat 1%nat 0%nat 1%nat 3 5 HS HT Hj1 Hj2 Hab Hb Hbins).
Defined.

(** C1 as stated fails when the shards disagree: the first shard sees ["d"]
    knocked out, the second, visited last, does not; the aggregate reports
    it not knocked out although the OR of the views is set. *)
Lemma server_stats_knockout_last_view_wins :
  let router := Sample.split_view_router in
  (isHardTko <$> collect_server_stats router !! "d") = Some false
  ∧ or_reduced tracker_isHardTko (shard_views router "d") = true
  ∧ (isSoftTko <$> collect_server_stats router !! "d") = Some false
  ∧ or_reduced tracker_isSoftTko (shard_views router "d") = true.
Proof. vm_compute. repeat split. Qed.

(** Two shards that agree on ["d"]: the aggregate carries their view. *)
Lemma server_stats_knockout_flags_witness :
  let router := Sample.agreed_view_router in
  let views := shard_views router "d" in
  last views = Some (Sample.a_destination true false)
  ∧ Forall (fun v => tracker_isHardTko v = true) views
  ∧ (isHardTko <$> collect_server_stats router !! "d")
    = Some (or_reduced tracker_isHardTko views).
Proof.
  intros router views.
  assert (Hlast : last views = Some (Sample.a_destination true false))
    by reflexivity.
  assert (Hagree : Forall (fun v => tracker_isHardTko v = true) views)
    by (repeat constructor).
  destruct (server_stats_knockout_flags router "d"
              (Sample.a_destination true false) Hlast)
    as (stat & Hstat & _ & _ & _ & _ & Hhard & _).
  split; [exact Hlast |]. split; [exact Hagree |].
  rewrite Hstat. simpl. f_equal. apply Hhard. exact Hagree.
Defined.

(** Shard 0 counts 3 replies and shard 1 counts 4: the snapshot reads 7. *)
Lemma prepare_stats_sum_policy_witness :
  let slot := request_replied_count_stat in
  stat_list_ok
  ∧ assigned_not_summed
  ∧ (slot < num_stats)%nat
  ∧ sum_policy (stat_at stat_list slot) = true
  ∧ type (stat_at stat_list slot) = stat_uint64
  ∧ 0 ≤ stat_get_uint64 stat_list slot < two64
  ∧ snapshot_uint64 Sample.fresh_router Sample.host_without_proc slot = Some 0
  ∧ snapshot_uint64
      (stat_incr_on (stat_incr_on Sample.fresh_router 0 slot 3) 1 slot 4)
      Sample.host_without_proc slot
    = Some 7.
Proof.
  intros slot.
  assert (Hok : stat_list_ok) by (split; [reflexivity | compute_done]).
  assert (Hassigned : assigned_not_summed) by compute_done.
  assert (Hslot : (slot < num_stats)%nat) by (vm_compute; lia).
  assert (Hpol : sum_policy (stat_at stat_list slot) = true) by reflexivity.
  assert (Htype : type (stat_at stat_list slot) = stat_uint64) by reflexivity.
  assert (Hrange : 0 ≤ stat_get_uint64 stat_list slot < two64)
    by (vm_compute; split; [discriminate | reflexivity]).
  destruct (prepare_stats_sum_policy Sample.fresh_router
              Sample.host_without_proc slot Hok Hassigned Hslot Hpol)
    as (Hunsigned & _ & _).
  destruct (Hunsigned Htype Hrange) as (Hsum & Hincr).
  split; [exact Hok |]. split; [exact Hassigned |]. split; [exact Hslot |].
  split; [exact Hpol |]. split; [exact Htype |]. split; [exact Hrange |].
  split; [exact Hsum |].
  apply (Hincr 0%nat 1%nat 3 4).
  - vm_compute; lia.
  - vm_compute; lia.
  - compute_done.
Defined.

(** C10 as stated fails when [fscanf] stops after the two page-fault counts:
    the read fails, yet the snapshot reports 7 minor and 3 major faults. *)
Lemma prepare_stats_short_proc_stat :
  let env := Sample.host_with_short_proc in
  proc_stat_unreadable env
  ∧ (get_proc_stat env).1 = -1
  ∧ snapshot_uint64 Sample.fresh_router env ps_num_minor_faults_stat = Some 7
  ∧ snapshot_uint64 Sample.fresh_router env ps_num_major_faults_stat = Some 3.
Proof.
  intros env. split; [| repeat split].
  right. exists [7; 3]. split; [reflexivity | simpl; lia].
Qed.

(** [fopen] fails: the snapshot is still produced and its six process
    statistics are zero. *)
Lemma prepare_stats_proc_stat_unreadable_witness :
  let env := Sample.host_without_proc in
  stat_list_ok
  ∧ NoDup (ps_slots ++ fiber_slots)
  ∧ Forall (fun slot => (slot < num_stats)%nat
                        ∧ aggregate (stat_at stat_list slot) = false) ps_slots
  ∧ proc_stat_unreadable env
  ∧ ∃ snapshot,
      prepare_stats Sample.fresh_router env = Some snapshot
      ∧ data (stat_at snapshot ps_user_time_sec_stat) = data_dbl Double.zero
      ∧ data (stat_at snapshot ps_system_time_sec_stat) = data_dbl Double.zero
      ∧ data (stat_at snapshot ps_rss_stat) = data_uint64 0
      ∧ data (stat_at snapshot ps_num_minor_faults_stat) = data_uint64 0
      ∧ data (stat_at snapshot ps_num_major_faults_stat) = data_uint64 0
      ∧ data (stat_at snapshot ps_vsize_stat) = data_uint64 0.
Proof.
  intros env.
  assert (Hok : stat_list_ok) by (split; [reflexivity | compute_done]).
  assert (Hnd : NoDup (ps_slots ++ fiber_slots)) by compute_done.
  assert (Hps : Forall (fun slot => (slot < num_stats)%nat
                          ∧ aggregate (stat_at stat_list slot) = false) ps_slots)
    by compute_done.
  assert (Hfail : proc_stat_unreadable env) by (left; reflexivity).
  destruct (prepare_stats_proc_stat_unreadable Sample.fresh_router env
              Hok Hnd Hps Hfail)
    as (_ & snapshot & Hsnap & Huser & Hsystem & Hrss & _ & _ & _ & Hzero).
  destruct (Hzero eq_refl) as (Hminor & Hmajor & Hvsize).
  split; [exact Hok |]. split; [exact Hnd |]. split; [exact Hps |].
  split; [exact Hfail |].
  exists snapshot. repeat (split; [assumption |]). assumption.
Defined.

(** A valid get request on a fresh proxy is dispatched. *)
Lemma startProcessing_dispatches_witness :
  let w := Sample.a_world false Sample.fresh_proxy in
  (precheckRequest w Sample.a_request).1 = true
  ∧ being_destroyed (proxy w) = false
  ∧ startProcessing w Sample.a_request
    = {| ctx := ctx w; proxy := proxy w;
         trace := [ev_dispatch Sample.a_request] |}.
Proof.
  intros w.
  assert (Hok : (precheckRequest w Sample.a_request).1 = true) by reflexivity.
  assert (Hup : being_destroyed (proxy w) = false) by reflexivity.
  split; [exact Hok |]. split; [exact Hup |].
  exact (startProcessing_dispatches w Sample.a_request Hok Hup).
Defined.

(** A get request without a key: one [mc_res_local_error] reply, then the
    context is deleted. *)
Lemma startProcessing_invalid_key_witness :
  let req := Sample.keyless_request in
  let w := Sample.a_world_of req Sample.fresh_proxy in
  req_type req = McKeyedRequest
  ∧ isKeyValid (fullKey req) ≠ mc_req_err_valid
  ∧ trace (startProcessing w req)
    = [ev_callback (Some req)
         {| reply_result := mc_res_local_error; reply_message := "Invalid key" |};
       ev_delete]
  ∧ replied_ (ctx (startProcessing w req)) = true.
Proof.
  intros req w.
  assert (Htype : req_type req = McKeyedRequest) by reflexivity.
  assert (Hkey : isKeyValid (fullKey req) ≠ mc_req_err_valid) by discriminate.
  destruct (startProcessing_invalid_key w req Htype Hkey eq_refl eq_refl eq_refl)
    as (Htrace & Hreplied & _).
  split; [exact Htype |]. split; [exact Hkey |].
  split; [exact Htrace | exact Hreplied].
Defined.

(** A shutdown request and a flush-regex request on a fresh proxy. *)
Lemma startProcessing_unsupported_witness :
  let shutdown := Sample.shutdown_request in
  let flush_re := Sample.flush_re_request in
  trace (startProcessing (Sample.a_world_of shutdown Sample.fresh_proxy) shutdown)
  = [ev_callback (Some shutdown) (Reply_of mc_res_bad_command); ev_delete]
  ∧ trace (startProcessing (Sample.a_world_of flush_re Sample.fresh_proxy)
             flush_re)
    = [ev_callback (Some flush_re)
         {| reply_result := mc_res_local_error;
            reply_message := "Command not supported" |};
       ev_delete].
Proof.
  intros shutdown flush_re.
  destruct (startProcessing_unsupported
              (Sample.a_world_of shutdown Sample.fresh_proxy) shutdown
              eq_refl eq_refl eq_refl) as [Hshutdown _].
  destruct (startProcessing_unsupported
              (Sample.a_world_of flush_re Sample.fresh_proxy) flush_re
              eq_refl eq_refl eq_refl) as [_ Hflush].
  split; [exact (Hshutdown eq_refl) | exact (Hflush eq_refl)].
Defined.

(** A flush-all request without and with [enable_flush_cmd]. *)
Lemma startProcessing_flush_all_witness :
  let req := Sample.flush_all_request in
  req_type req = McFlushAllRequest
  ∧ trace (startProcessing (Sample.a_world_of req Sample.fresh_proxy) req)
    = [ev_callback (Some req)
         {| reply_result := mc_res_local_error;
            reply_message := "Command disabled" |};
       ev_delete]
  ∧ trace (startProcessing (Sample.a_world_of req Sample.flushing_proxy) req)
    = [ev_dispatch req].
Proof.
  intros req.
  assert (Htype : req_type req = McFlushAllRequest) by reflexivity.
  destruct (startProcessing_flush_all
              (Sample.a_world_of req Sample.fresh_proxy) req Htype)
    as [Hdisabled _].
  destruct (startProcessing_flush_all
              (Sample.a_world_of req Sample.flushing_proxy) req Htype)
    as [_ Henabled].
  split; [exact Htype |].
  split; [exact (Hdisabled eq_refl eq_refl eq_refl eq_refl) |].
  exact (Henabled eq_refl eq_refl).
Defined.

(** A shard that counted two replies, one success and one error: an error
    reply, and a request without a key, leave the counters balanced. *)
Lemma request_counters_balanced_witness :
  let req := Sample.keyless_request in
  let w := Sample.a_world_of req Sample.replied_proxy in
  NoDup request_slots
  ∧ Forall (fun slot => (slot < length (stats (proxy w)))%nat) request_slots
  ∧ stat_get_uint64 (stats (proxy (sendReply w Sample.error_reply)))
      request_replied_count_stat = 3
  ∧ unclassified_count (stats (proxy (sendReply w Sample.error_reply))) = 0
  ∧ unclassified_count (stats (proxy (startProcessing w req))) = 0.
Proof.
  intros req w.
  assert (Hnd : NoDup request_slots) by compute_done.
  assert (Hin : Forall (fun slot => (slot < length (stats (proxy w)))%nat)
                  request_slots)
    by compute_done.
  destruct (request_counters_balanced w Sample.error_reply req Hnd Hin)
    as [[Hreply _] [Hstart _]].
  split; [exact Hnd |]. split; [exact Hin |]. split; [reflexivity |].
  split; [exact Hreply | exact Hstart].
Defined.


(** 3 in bin 0 of shard 0 and 5 in bin 1 of shard 1: both readings give 5. *)
Lemma stats_aggregate_max_max_value_shard_maxes_witness :
  let router := Sample.two_bin_router in
  Forall (fun proxy => num_bins_used proxy = get_num_bins_used router)
    (proxies router)
  ∧ stats_aggregate_max_max_value router 0 = maxOfShardMaxes router 0
  ∧ maxOfShardMaxes router 0 = 5.
Proof.
  intros router.
  assert (Hsame : Forall (fun proxy => num_bins_used proxy
                                       = get_num_bins_used router)
                    (proxies router))
    by compute_done.
  split; [exact Hsame |].
  split; [exact (stats_aggregate_max_max_value_shard_maxes router 0 Hsame) |].
  reflexivity.
Defined.

(** 3 and 5 in the same bin: the largest single bin is 5, the largest bin
    total 8. *)
Lemma stats_aggregate_max_max_value_le_max_witness :
  let router := Sample.same_bin_router in
  (∀ j proxy, j ∈ used_bins router -> proxy ∈ proxies router ->
              0 ≤ bin_at proxy 0 j)
  ∧ (∀ j, j ∈ used_bins router ->
          Zsum ((fun proxy => bin_at proxy 0 j) <$> proxies router) < two64)
  ∧ stats_aggregate_max_max_value router 0 ≤ stats_aggregate_max_value router 0
  ∧ stats_aggregate_max_max_value router 0 = 5
  ∧ stats_aggregate_max_value router 0 = 8.
Proof.
  intros router.
  assert (Hpos : ∀ j proxy, j ∈ used_bins router -> proxy ∈ proxies router ->
                            0 ≤ bin_at proxy 0 j).
  { assert (Hall : Forall (fun j => Forall (fun proxy => 0 ≤ bin_at proxy 0 j)
                                      (proxies router)) (used_bins router))
      by compute_done.
    intros j proxy Hj Hproxy.
    rewrite Forall_forall in Hall. specialize (Hall j Hj).
    rewrite Forall_forall in Hall. exact (Hall proxy Hproxy). }
  assert (Hsmall : ∀ j, j ∈ used_bins router ->
            Zsum ((fun proxy => bin_at proxy 0 j) <$> proxies router) < two64).
  { assert (Hall : Forall (fun j => Zsum ((fun proxy => bin_at proxy 0 j)
                                            <$> proxies router) < two64)
                     (used_bins router))
      by compute_done.
    intros j Hj. rewrite Forall_forall in Hall. exact (Hall j Hj). }
  split; [exact Hpos |]. split; [exact Hsmall |].
  split; [exact (stats_aggregate_max_max_value_le_max router 0 Hpos Hsmall) |].
  split; reflexivity.
Defined.

(** The snapshot of two fresh shards has the 46 slots of the table. *)
Lemma prepare_stats_keeps_layout_witness :
  ∃ snapshot,
    prepare_stats Sample.fresh_router Sample.host_without_proc = Some snapshot
    ∧ length snapshot = 46%nat
    ∧ name (stat_at snapshot 16) = "num_suspect_servers"
    ∧ type (stat_at snapshot 16) = stat_uint64.
Proof.
  destruct (prepare_stats Sample.fresh_router Sample.host_without_proc)
    as [snapshot |] eqn:Hsnap; [| vm_compute in Hsnap; discriminate].
  destruct (prepare_stats_keeps_layout Sample.fresh_router
              Sample.host_without_proc snapshot Hsnap) as [Hlen Hmeta].
  destruct (Hmeta 16%nat) as (Hname & _ & Htype & _).
  exists snapshot. split; [reflexivity |].
  split; [exact Hlen |]. split; [exact Hname | exact Htype].
Defined.

(** A table whose suspect-servers slot is a string, a table whose command
    line slot is aggregated, and a router without shards. *)
Lemma prepare_stats_aborts_witness :
  let env := Sample.host_without_proc in
  @prepare_stats Sample.masks (Sample.slots_over Sample.suspect_text_table)
    Sample.fresh_router env = None
  ∧ @prepare_stats Sample.masks (Sample.slots_over Sample.summed_text_table)
      Sample.fresh_router env = None
  ∧ prepare_stats Sample.empty_router env
    = Some (before_aggregation Sample.empty_router env).
Proof.
  intros env.
  destruct (@prepare_stats_aborts Sample.masks
              (Sample.slots_over Sample.suspect_text_table)
              Sample.fresh_router env) as (Hsuspect & _ & _).
  destruct (@prepare_stats_aborts Sample.masks
              (Sample.slots_over Sample.summed_text_table)
              Sample.fresh_router env) as (_ & Hstring & _).
  destruct (prepare_stats_aborts Sample.empty_router env) as (_ & _ & Hnone).
  split; [apply Hsuspect; discriminate |].
  split; [| exact (Hnone eq_refl eq_refl)].
  apply (Hstring 23%nat).
  - vm_compute; lia.
  - reflexivity.
  - reflexivity.
  - discriminate.
Defined.

(** Slot 0 is a rate slot: three replies counted on shard 0 do not reach
    the snapshot. *)
Lemma prepare_stats_leaves_slot_witness :
  let router := stat_incr_on Sample.fresh_router 0 0 3 in
  sum_policy (stat_at stat_list 0) = false
  ∧ (0%nat ∉ assigned_slots)
  ∧ ∃ snapshot,
      prepare_stats router Sample.host_without_proc = Some snapshot
      ∧ stat_at snapshot 0 = stat_at stat_list 0.
Proof.
  intros router.
  assert (Hpol : sum_policy (stat_at stat_list 0) = false) by reflexivity.
  assert (Hfree : 0%nat ∉ assigned_slots) by compute_done.
  destruct (prepare_stats router Sample.host_without_proc)
    as [snapshot |] eqn:Hsnap; [| vm_compute in Hsnap; discriminate].
  split; [exact Hpol |]. split; [exact Hfree |].
  exists snapshot. split; [reflexivity |].
  exact (prepare_stats_leaves_slot router Sample.host_without_proc snapshot
           0%nat Hsnap Hpol Hfree).
Defined.

(** Started at 1000 and asked at 2000: the uptime is 1000, and with no
    configuration success recorded the age is 2000. *)
Lemma prepare_stats_process_wide_witness :
  assigned_slots_ok
  ∧ ∃ snapshot,
      prepare_stats Sample.fresh_router Sample.host_without_proc = Some snapshot
      ∧ stat_get_uint64 snapshot uptime_stat = 1000
      ∧ stat_get_uint64 snapshot config_age_stat = 2000
      ∧ stat_get_int64 snapshot pid_stat = 42.
Proof.
  assert (Hslots : assigned_slots_ok) by (repeat apply conj; compute_done).
  destruct (prepare_stats Sample.fresh_router Sample.host_without_proc)
    as [snapshot |] eqn:Hsnap; [| vm_compute in Hsnap; discriminate].
  destruct (prepare_stats_process_wide Sample.fresh_router
              Sample.host_without_proc snapshot Hsnap Hslots)
    as (_ & _ & _ & Huptime & Hlatest & _ & Hage & _ & _ & _ & Hpid & _).
  split; [exact Hslots |]. exists snapshot. split; [reflexivity |].
  split; [exact Huptime |]. split; [| exact Hpid].
  rewrite Hage, Hlatest. reflexivity.
Defined.

(** 12 requests in 3 batches: the average batch size is 4. *)
Lemma prepare_stats_derived_ratios_witness :
  assigned_slots_ok
  ∧ ∃ snapshot,
      prepare_stats Sample.batching_router Sample.host_without_proc
      = Some snapshot
      ∧ stat_get_dbl snapshot destination_batch_size_stat = Double.of_Z 4
      ∧ stat_get_dbl snapshot retrans_per_kbyte_avg_stat = Double.zero.
Proof.
  assert (Hslots : assigned_slots_ok) by (repeat apply conj; compute_done).
  destruct (prepare_stats Sample.batching_router Sample.host_without_proc)
    as [snapshot |] eqn:Hsnap; [| vm_compute in Hsnap; discriminate].
  destruct (prepare_stats_derived_ratios Sample.batching_router
              Sample.host_without_proc snapshot Hsnap Hslots)
    as (Hbatch & Hretrans & _).
  split; [exact Hslots |]. exists snapshot. split; [reflexivity |].
  split; [rewrite Hbatch | rewrite Hretrans]; reflexivity.
Defined.

(** 40 and 2 fibers allocated, durations 3 and 5: the snapshot reads 42
    fibers, the higher watermark and the mean duration 4. *)
Lemma prepare_stats_fibers_witness :
  assigned_slots_ok
  ∧ ∃ snapshot,
      prepare_stats Sample.fiber_router Sample.host_without_proc = Some snapshot
      ∧ stat_get_uint64 snapshot fibers_allocated_stat = 42
      ∧ stat_get_uint64 snapshot fibers_pool_size_stat = 128
      ∧ stat_get_dbl snapshot duration_us_stat = Double.of_Z 4.
Proof.
  assert (Hslots : assigned_slots_ok) by (repeat apply conj; compute_done).
  destruct (prepare_stats Sample.fiber_router Sample.host_without_proc)
    as [snapshot |] eqn:Hsnap; [| vm_compute in Hsnap; discriminate].
  destruct (prepare_stats_fibers Sample.fiber_router
              Sample.host_without_proc snapshot Hsnap Hslots)
    as (Hallocated & Hpool & _ & _ & Hduration & _).
  split; [exact Hslots |]. exists snapshot. split; [reflexivity |].
  split; [rewrite Hallocated; reflexivity |].
  split; [rewrite Hpool | rewrite Hduration]; reflexivity.
Defined.



(** Three shards hold ["d"], one of them also ["e"]: two lines. *)
Lemma server_lines_keys_witness :
  let router := Sample.busy_view_router in
  NoDup (server_lines router).*1
  ∧ ("d" ∈ (server_lines router).*1)
  ∧ ("e" ∈ (server_lines router).*1)
  ∧ ("f" ∉ (server_lines router).*1)
  ∧ length (visits router) = 4%nat.
Proof.
  intros router.
  destruct (server_lines_keys router) as [Hnd Hkeys].
  split; [exact Hnd |].
  split; [apply Hkeys; compute_done |].
  split; [apply Hkeys; compute_done |].
  split; [| reflexivity].
  intros Hin. apply Hkeys in Hin. revert Hin. compute_done.
Defined.

(** ["d"] seen by three shards with 2, 3 and 2 pending requests. *)
Lemma server_stats_request_counts_witness :
  ∃ stat,
    collect_server_stats Sample.busy_view_router !! "d" = Some stat
    ∧ pendingRequestsCount stat = 7
    ∧ inflightRequestsCount stat = 2.
Proof.
  destruct (collect_server_stats Sample.busy_view_router !! "d")
    as [stat |] eqn:Hstat; [| vm_compute in Hstat; discriminate].
  destruct (server_stats_request_counts Sample.busy_view_router "d" stat Hstat)
    as [Hpending Hinflight].
  exists stat. split; [reflexivity |].
  split; [rewrite Hpending | rewrite Hinflight]; reflexivity.
Defined.

(** The idle view of ["d"] has no latency and a negative ratio: two of the
    three views count. *)
Lemma server_stats_latency_retrans_witness :
  ∃ stat,
    collect_server_stats Sample.busy_view_router !! "d" = Some stat
    ∧ sumLatencies stat = Double.of_Z 500
    ∧ cntLatencies stat = 2
    ∧ cntRetransPerKByte stat = 2
    ∧ minRetransPerKByte stat = Double.of_Z 2.
Proof.
  destruct (collect_server_stats Sample.busy_view_router !! "d")
    as [stat |] eqn:Hstat; [| vm_compute in Hstat; discriminate].
  destruct (server_stats_latency_retrans Sample.busy_view_router "d" stat Hstat)
    as (Hsum & Hcnt & _ & Hretrans & _ & Hmin).
  exists stat. split; [reflexivity |].
  split; [rewrite Hsum; reflexivity |].
  split; [rewrite Hcnt; reflexivity |].
  split; [rewrite Hretrans | rewrite Hmin]; reflexivity.
Defined.

(** Two shards see ["d"] down, one up. *)
Lemma server_stats_state_tally_witness :
  ∃ stat,
    collect_server_stats Sample.busy_view_router !! "d" = Some stat
    ∧ default 0 (states stat !! state_index kDown) = 2
    ∧ default 0 (states stat !! state_index kUp) = 1
    ∧ default 0 (states stat !! state_index kNew) = 0.
Proof.
  destruct (collect_server_stats Sample.busy_view_router !! "d")
    as [stat |] eqn:Hstat; [| vm_compute in Hstat; discriminate].
  exists stat. split; [reflexivity |].
  rewrite !(server_stats_state_tally Sample.busy_view_router "d" stat _ Hstat).
  repeat apply conj; reflexivity.
Defined.

(** Two views of ["d"] report 4 [mc_res_ok] and 1 [mc_res_local_error]
    each, the third reports nothing. *)
Lemma server_stats_result_sums_witness :
  ∃ stat,
    collect_server_stats Sample.busy_view_router !! "d" = Some stat
    ∧ (mc_res_ok < mc_nres)%nat
    ∧ default 0 (results stat !! mc_res_ok) = 8
    ∧ default 0 (results stat !! mc_res_local_error) = 2.
Proof.
  destruct (collect_server_stats Sample.busy_view_router !! "d")
    as [stat |] eqn:Hstat; [| vm_compute in Hstat; discriminate].
  assert (Hok : (mc_res_ok < mc_nres)%nat) by (vm_compute; lia).
  assert (Herr : (mc_res_local_error < mc_nres)%nat) by (vm_compute; lia).
  pose proof (server_stats_result_sums Sample.busy_view_router "d" stat _
                Hstat Hok) as Hoks.
  pose proof (server_stats_result_sums Sample.busy_view_router "d" stat _
                Hstat Herr) as Herrs.
  exists stat. split; [reflexivity |]. split; [exact Hok |].
  split; (etrans; [first [exact Hoks | exact Herrs] | reflexivity]).
Defined.

(** Slot 0 of the table holds 0: decrementing gives 2^64 - 1, and
    incrementing again restores the table. *)
Lemma stat_incr_decr_safe_witness :
  data (stat_at Sample.table 0) = data_uint64 0
  ∧ 0 ≤ 0 < two64
  ∧ stat_get_uint64 (stat_decr_safe Sample.table 0) 0 = 2 ^ 64 - 1
  ∧ stat_incr_safe (stat_decr_safe Sample.table 0) 0 = Sample.table
  ∧ stat_decr_safe (stat_incr_safe Sample.table 0) 0 = Sample.table.
Proof.
  assert (Hdata : data (stat_at Sample.table 0) = data_uint64 0) by reflexivity.
  assert (Hv : 0 ≤ 0 < two64) by (unfold two64; lia).
  destruct (stat_incr_decr_safe Sample.table 0 0 Hdata Hv)
    as (Hback & Hforth & Hvalues).
  split; [exact Hdata |]. split; [exact Hv |].
  split; [| split; [exact Hforth | exact Hback]].
  assert (Hlt : (0 < length Sample.table)%nat) by (vm_compute; lia).
  destruct (Hvalues Hlt) as [_ Hdecr]. rewrite Hdecr. reflexivity.
Defined.

(** Setting the suspect-servers slot of the table to 7 and reading it back;
    the command line slot is a string and cannot be set. *)
Lemma stat_set_get_uint64_witness :
  (16 < length Sample.table)%nat
  ∧ (∃ after, stat_set_uint64 Sample.table 16 7 = Some after
              ∧ stat_get_uint64 after 16 = 7
              ∧ stat_at after 17 = stat_at Sample.table 17)
  ∧ stat_set_uint64 Sample.table 23 7 = None.
Proof.
  assert (Hsuspect : (16 < length Sample.table)%nat) by (vm_compute; lia).
  assert (Hargs : (23 < length Sample.table)%nat) by (vm_compute; lia).
  destruct (stat_set_get_uint64 Sample.table 16 7 Hsuspect) as [_ Hset].
  destruct (Hset eq_refl) as (after & Hafter & Hget & _ & Hother).
  destruct (stat_set_get_uint64 Sample.table 23 7 Hargs) as [Hnone _].
  split; [exact Hsuspect |]. split.
  - exists after. split; [exact Hafter |]. split; [exact Hget |].
    apply Hother. compute_done.
  - apply Hnone. discriminate.
Defined.

(** The status file is missing, or read in full. *)
Lemma get_proc_stat_code_witness :
  (get_proc_stat Sample.host_without_proc).1 = -1
  ∧ (get_proc_stat Sample.host_with_short_proc).1 = -1
  ∧ (get_proc_stat Sample.host_with_proc).1 ≠ -1
  ∧ ¬ proc_stat_unreadable Sample.host_with_proc.
Proof.
  destruct (get_proc_stat_code Sample.host_without_proc) as (_ & Hmissing & _).
  destruct (get_proc_stat_code Sample.host_with_short_proc) as (_ & Hshort & _).
  destruct (get_proc_stat_code Sample.host_with_proc) as (_ & Hfull & _).
  assert (Hcode : (get_proc_stat Sample.host_with_proc).1 ≠ -1) by discriminate.
  split; [apply Hmissing; left; reflexivity |].
  split; [apply Hshort; right; exists [7; 3]; split; [reflexivity | simpl; lia] |].
  split; [exact Hcode |].
  intros Hfail. apply Hcode. apply Hfull. exact Hfail.
Defined.

(** Ten pages of 4096 bytes: 40960 bytes resident; the seventh field is not
    looked at. *)
Lemma get_proc_stat_success_witness :
  let env := Sample.host_with_proc in
  proc_stat_scan env = Some [7; 3; 250; 125; 1048576; 10; 99]
  ∧ (get_proc_stat env).1 = 0
  ∧ num_minor_faults (get_proc_stat env).2 = 7
  ∧ vsize (get_proc_stat env).2 = 1048576
  ∧ rss (get_proc_stat env).2 = 40960.
Proof.
  intros env.
  assert (Hscan : proc_stat_scan env = Some [7; 3; 250; 125; 1048576; 10; 99])
    by reflexivity.
  assert (Hlen : (6 ≤ length (default [] (proc_stat_scan env)))%nat)
    by (simpl; lia).
  destruct (get_proc_stat_success env _ Hscan Hlen)
    as (Hcode & Hminor & _ & _ & _ & Hvsize & _ & Hrss).
  split; [exact Hscan |]. split; [exact Hcode |].
  split; [exact Hminor |]. split; [exact Hvsize |].
  apply Hrss; simpl; lia.
Defined.

(** The status file read in full: 7 minor faults and ten pages resident;
    3 s and 500000 us of user time are 3.5 s. *)
Lemma prepare_stats_resource_usage_witness :
  assigned_slots_ok
  ∧ ∃ snapshot,
      prepare_stats Sample.fresh_router Sample.host_with_proc = Some snapshot
      ∧ stat_get_dbl snapshot rusage_user_stat
        = Double.div (Double.of_Z 7) (Double.of_Z 2)
      ∧ stat_get_uint64 snapshot ps_num_minor_faults_stat = 7
      ∧ stat_get_uint64 snapshot ps_rss_stat = 40960.
Proof.
  assert (Hslots : assigned_slots_ok) by (repeat apply conj; compute_done).
  destruct (prepare_stats Sample.fresh_router Sample.host_with_proc)
    as [snapshot |] eqn:Hsnap; [| vm_compute in Hsnap; discriminate].
  destruct (prepare_stats_resource_usage Sample.fresh_router
              Sample.host_with_proc snapshot Hsnap Hslots)
    as (Huser & _ & Hminor & _ & _ & _ & Hrss & _).
  split; [exact Hslots |]. exists snapshot. split; [reflexivity |].
  split; [rewrite Huser; reflexivity |].
  split; [rewrite Hminor | rewrite Hrss]; reflexivity.
Defined.

(** One shard with one used bin and 4 requests in the window: both rate
    functions divide 4 by 1. *)
Lemma stats_rate_value_single_shard_witness :
  let proxy :=
    Sample.a_proxy Sample.table [] [0; 0; 0; 0; 0; 0; 1; 4] 1 [] false in
  let router := Sample.a_router [proxy] in
  0 ≤ window_at proxy 7 < two64
  ∧ stats_rate_value router proxy 7 = stats_aggregate_rate_value router 7
  ∧ stats_aggregate_rate_value router 7
    = (Double.div (Double.of_Z 4) (Double.of_Z 1), [1]).
Proof.
  intros proxy router.
  assert (Hwindow : 0 ≤ window_at proxy 7 < two64)
    by (vm_compute; split; [discriminate | reflexivity]).
  split; [exact Hwindow |].
  split; [exact (stats_rate_value_single_shard router proxy 7 eq_refl Hwindow) |].
  reflexivity.
Defined.
